(** * ESPLog acquisition-and-dispatch pipeline

    A shallow embedding of the pipeline of [esplog.py]: the smoothing filter
    ([apply_filters]), the threshold alerts ([check_thresholds]), the
    dispatcher ([process_data]) and the paced polling loop
    ([data_acquisition_loop], WiFi branch), followed by the properties of the
    specification that concern them.

    Python floats are IEEE 754 doubles and are modelled by Rocq's primitive
    floats; Python ints are unbounded and are modelled by [Z].  Methods are
    functions in a monad that reads the controls, threads the attributes of
    the window object and the outgoing calls, and may raise.  A call to a
    sink (signal emission, CSV writer, OSC client) completes or raises as
    the surroundings of the cycle decide.

    The slot [handle_new_data] runs in the GUI thread on each emitted frame
    and is not part of the model; the properties of [apply_filters] are
    about its successive calls.

    The serial branch of the loop and the search for a file name of
    [start_logging] are modelled as well, for the further properties at the
    end of the file.

    Layout: the model, the vocabulary of the properties, then lemmas and
    theorems by component, then the theorems at concrete inputs. *)

From Stdlib Require Import ZArith Lia Ascii.
From Stdlib Require Import PrimFloat.
From Stdlib Require SpecFloat FloatOps.
From stdpp Require Import base option list functions strings pretty gmap.

Set Warnings "-inexact-float".

Open Scope Z_scope.

(** ** Python values and exceptions *)

(** The exception classes that the modelled code can meet.  [OSError] stands
    for whatever a sink raises when it is given no more precise class. *)
Inductive exn : Type :=
  | ValueError
  | TypeError
  | KeyError
  | OverflowError
  | ZeroDivisionError
  | OSError.

#[global] Instance exn_eq_dec : EqDecision exn.
Proof. solve_decision. Defined.

Inductive result (A : Type) : Type :=
  | Ok (a : A)
  | Raise (e : exn).
Arguments Ok {A} a.
Arguments Raise {A} e.

(** What [json.loads] and [response.json()] produce. *)
#[local] Unset Elimination Schemes.
Inductive pyval : Type :=
  | PNone
  | PBool (b : bool)
  | PInt (z : Z)
  | PFloat (f : float)
  | PStr (s : string)
  | PList (l : list pyval)
  | PDict (d : gmap string pyval).
#[local] Set Elimination Schemes.

(** [v[k]] for a string key [k]: only a dict can be subscripted by a string. *)
Definition py_getitem (v : pyval) (k : string) : result pyval :=
  match v with
  | PDict d => match d !! k with Some x => Ok x | None => Raise KeyError end
  | _ => Raise TypeError
  end.

(** Conversion of an int to the nearest double (ties to even), as [float(z)]
    and as the coercion of an int operand in float arithmetic. *)
Definition float_of_Z (z : Z) : float :=
  FloatOps.SF2Prim (SpecFloat.binary_normalize FloatOps.prec FloatOps.emax z 0 false).

Definition is_infinite (f : float) : bool :=
  match FloatOps.Prim2SF f with
  | SpecFloat.S754_infinity _ => true
  | _ => false
  end.

(** [int(f)] for a float: truncation toward zero. *)
Definition py_int_of_float (f : float) : result Z :=
  match FloatOps.Prim2SF f with
  | SpecFloat.S754_zero _ => Ok 0
  | SpecFloat.S754_infinity _ => Raise OverflowError
  | SpecFloat.S754_nan => Raise ValueError
  | SpecFloat.S754_finite s m e =>
      let a := Z.shiftl (Z.pos m) e in
      Ok (if s then - a else a)
  end.

(** [sum(l)] over floats, added from the left starting at zero.  (CPython
    from 3.12 on carries a compensation term along, which can change the
    last bit of a sum; the sums evaluated below are exact either way.) *)
Definition py_sum (l : list float) : float :=
  foldl PrimFloat.add 0%float l.

(** [x / n] for a float [x] and an int [n]. *)
Definition py_truediv (x : float) (n : Z) : result float :=
  if decide (n = 0) then Raise ZeroDivisionError
  else Ok (x / float_of_Z n)%float.

(** [l[-n:]] for a non-negative [n]: the last [n] elements, and the whole
    list when [n] is zero (since [-0] is [0]). *)
Definition py_last (n : nat) {A : Type} (l : list A) : list A :=
  match n with
  | O => l
  | S _ => drop (length l - n)%nat l
  end.

(** [deque(maxlen=m).append(x)]: the oldest element is discarded when the
    deque is full. *)
Definition deque_append {A : Type} (maxlen : nat) (d : list A) (x : A) : list A :=
  let d' := d ++ [x] in
  if decide (maxlen < length d')%nat then drop 1 d' else d'.

(** ** Channels *)

(** The four lanes, [range(4)]. *)
Inductive chan : Type := Ch0 | Ch1 | Ch2 | Ch3.

#[global] Instance chan_eq_dec : EqDecision chan.
Proof. solve_decision. Defined.

Definition range4 : list chan := [Ch0; Ch1; Ch2; Ch3].

(** [str(i)] *)
Definition str (i : chan) : string :=
  match i with Ch0 => "0" | Ch1 => "1" | Ch2 => "2" | Ch3 => "3" end.

(** ** Frames, controls and state *)

(** A decoded device payload: a JSON object with an optional [timestamp]
    member and a [channels] member which, when present, is an object. *)
Record frame : Type := Frame {
  timestamp : option pyval;
  channels : option (gmap string pyval)
}.

(** One entry of the dict returned by [apply_filters]. *)
Record chan_out : Type := ChanOut {
  raw : Z;
  voltage : float;
  filtered_voltage : float
}.

Definition dict_of_out (o : chan_out) : pyval :=
  PDict (<["raw" := PInt (raw o)]>
        (<["voltage" := PFloat (voltage o)]>
        (<["filtered_voltage" := PFloat (filtered_voltage o)]> ∅))).

Inductive level : Type := high | low | normal.

#[global] Instance level_eq_dec : EqDecision level.
Proof. solve_decision. Defined.

(** The widgets and flags that the acquisition thread reads.  The window
    spin box has range 2..50, the setpoint spin boxes hold floats. *)
Record controls : Type := Controls {
  filter_enabled : chan → bool;
  filter_window : chan → nat;
  thresh_enabled : chan → bool;
  thresh_high : chan → float;
  thresh_low : chan → float;
  filtered_radio : bool;
  logging_active : bool;
  csv_writer : bool;
  streaming_active : bool
}.

(** Calls that leave the pipeline. *)
Inductive call : Type :=
  | Emit_new_data (data : frame)
  | Writerow (row : list pyval)
  | Set_row_label (n : Z)
  | Flush
  | Send_message (addr : string) (arg : pyval)
  | Sleep (d : float).

(** What surrounds one dispatch cycle: the controls, which outgoing calls
    raise (and what), and the local clock reading used for the log row. *)
Record env : Type := Env {
  ui : controls;
  faults : call → option exn;
  now_iso : string
}.

(** The mutable attributes of the window object that the pipeline touches,
    and the outgoing calls that completed, oldest first. *)
Record state : Type := State {
  filter_buffers : chan → list float;
  threshold_states : chan → option level;
  csv_row_count : Z;
  sample_count : Z;
  error_count : Z;
  delivered : list call
}.

Definition set_filter_buffers (f : chan → list float) (st : state) : state :=
  State f (threshold_states st) (csv_row_count st) (sample_count st)
        (error_count st) (delivered st).
Definition set_threshold_states (f : chan → option level) (st : state) : state :=
  State (filter_buffers st) f (csv_row_count st) (sample_count st)
        (error_count st) (delivered st).
Definition set_csv_row_count (n : Z) (st : state) : state :=
  State (filter_buffers st) (threshold_states st) n (sample_count st)
        (error_count st) (delivered st).
Definition set_sample_count (n : Z) (st : state) : state :=
  State (filter_buffers st) (threshold_states st) (csv_row_count st) n
        (error_count st) (delivered st).
Definition set_error_count (n : Z) (st : state) : state :=
  State (filter_buffers st) (threshold_states st) (csv_row_count st)
        (sample_count st) n (delivered st).
Definition set_delivered (l : list call) (st : state) : state :=
  State (filter_buffers st) (threshold_states st) (csv_row_count st)
        (sample_count st) (error_count st) l.

(** The state after [__init__]. *)
Definition init_state : state :=
  State (λ _, []) (λ _, None) 0 0 0 [].

(** ** A monad for methods: environment, state and exceptions *)

Definition M (A : Type) : Type := env → state → state * result A.

#[global] Instance M_ret : MRet M := λ A a _ st, (st, Ok a).
#[global] Instance M_bind : MBind M := λ A B k m en st,
  match m en st with
  | (st', Ok a) => k a en st'
  | (st', Raise e) => (st', Raise e)
  end.

Definition raise {A} (e : exn) : M A := λ _ st, (st, Raise e).
Definition lift {A} (r : result A) : M A := λ _ st, (st, r).
Definition ask : M env := λ en st, (st, Ok en).
Definition get : M state := λ _ st, (st, Ok st).
Definition modify (f : state → state) : M unit := λ _ st, (f st, Ok tt).

(** An outgoing call: it either raises, as the environment decides, or
    completes and is recorded. *)
Definition do_call (c : call) : M unit :=
  λ en st, match faults en c with
           | Some e => (st, Raise e)
           | None => (set_delivered (delivered st ++ [c]) st, Ok tt)
           end.

(** [for i in l: acc = body(i, acc)], stopping at the first exception. *)
Fixpoint for_each {A B} (l : list A) (body : A → B → M B) (acc : B) : M B :=
  match l with
  | [] => mret acc
  | i :: l' => acc' ← body i acc; for_each l' body acc'
  end.

#[global] Instance result_ret : MRet result := λ A a, Ok a.
#[global] Instance result_bind : MBind result := λ A B k r,
  match r with
  | Ok a => k a
  | Raise e => Raise e
  end.

(** ** The pipeline *)

Section Pipeline.

(** [float(s)] and [int(s)] for a string [s], [None] when Python raises
    ValueError.  The parsers are those of the Python runtime. *)
Variable float_of_str : string → option float.
Variable int_of_str : string → option Z.

(** [float(v)] *)
Definition py_float (v : pyval) : result float :=
  match v with
  | PNone => Raise TypeError
  | PBool b => Ok (if b then 1%float else 0%float)
  | PInt z =>
      let f := float_of_Z z in
      if is_infinite f then Raise OverflowError else Ok f
  | PFloat f => Ok f
  | PStr s =>
      match float_of_str s with Some f => Ok f | None => Raise ValueError end
  | PList _ | PDict _ => Raise TypeError
  end.

(** [int(v)] *)
Definition py_int (v : pyval) : result Z :=
  match v with
  | PNone => Raise TypeError
  | PBool b => Ok (if b then 1 else 0)
  | PInt z => Ok z
  | PFloat f => py_int_of_float f
  | PStr s =>
      match int_of_str s with Some z => Ok z | None => Raise ValueError end
  | PList _ | PDict _ => Raise TypeError
  end.

(** The body of the [try] of [apply_filters]. *)
Definition read_channel (entry : pyval) : result (float * Z) :=
  voltage ← py_getitem entry "voltage" ≫= py_float;
  raw ← py_getitem entry "raw" ≫= py_int;
  mret (voltage, raw).

(** The classes named by [except (ValueError, TypeError, KeyError)]. *)
Definition caught_by_filter (e : exn) : bool :=
  bool_decide (e ∈ [ValueError; TypeError; KeyError]).

(** One turn of the loop of [apply_filters]. *)
Definition apply_filters_body (chs : gmap string pyval) (i : chan)
    (filtered_data : gmap string chan_out) : M (gmap string chan_out) :=
  match chs !! str i with
  | None => mret filtered_data
  | Some entry =>
      match read_channel entry with
      | Raise e =>
          if caught_by_filter e then mret filtered_data else raise e
      | Ok (voltage, raw) =>
          modify (λ st, set_filter_buffers
                    (<[i := deque_append 50 (filter_buffers st i) voltage]>
                       (filter_buffers st)) st);;
          st ← get;
          en ← ask;
          let buf := filter_buffers st i in
          filtered_voltage ←
            (if filter_enabled (ui en) i && bool_decide (0 < length buf)%nat
             then
               let window := (filter_window (ui en) i `min` length buf)%nat in
               let recent_samples := py_last window buf in
               lift (py_truediv (py_sum recent_samples)
                                (Z.of_nat (length recent_samples)))
             else mret voltage) : M float;
          mret (<[str i := ChanOut raw voltage filtered_voltage]> filtered_data)
      end
  end.

Definition apply_filters (data : frame) : M (gmap string chan_out) :=
  chs ← lift (match channels data with
              | Some c => Ok c
              | None => Raise KeyError
              end);
  for_each range4 (apply_filters_body chs) ∅.

(** The three-way comparison of [check_thresholds]: [voltage > high_thresh]
    first, then [voltage < low_thresh]. *)
Definition classify (voltage high_thresh low_thresh : float) : level :=
  if (high_thresh <? voltage)%float then high
  else if (voltage <? low_thresh)%float then low
  else normal.

Definition alert_addr (i : chan) (kind : string) : string :=
  "/adc/alert/ch" +:+ str i +:+ "/" +:+ kind.

(** One turn of the loop of [check_thresholds].  Its argument is the dict
    built by [apply_filters], whose entries always hold both voltages, so
    the [try] around the reads has nothing to catch. *)
Definition check_thresholds_body (data : gmap string chan_out) (i : chan)
    (_ : unit) : M unit :=
  en ← ask;
  match data !! str i with
  | None => mret tt
  | Some ch =>
      if negb (thresh_enabled (ui en) i) then mret tt
      else
        let voltage :=
          if filter_enabled (ui en) i then filtered_voltage ch else voltage ch in
        let high_thresh := thresh_high (ui en) i in
        let low_thresh := thresh_low (ui en) i in
        let current_state := classify voltage high_thresh low_thresh in
        st ← get;
        if bool_decide (Some current_state ≠ threshold_states st i) then
          match current_state with
          | high =>
              do_call (Send_message (alert_addr i "high")
                         (PList [PFloat voltage; PFloat high_thresh]))
          | low =>
              do_call (Send_message (alert_addr i "low")
                         (PList [PFloat voltage; PFloat low_thresh]))
          | normal =>
              if bool_decide (threshold_states st i ≠ None)
              then do_call (Send_message (alert_addr i "normal") (PFloat voltage))
              else mret tt
          end;;
          modify (λ st, set_threshold_states
                    (<[i := Some current_state]> (threshold_states st)) st)
        else mret tt
  end.

Definition check_thresholds (data : gmap string chan_out) : M unit :=
  for_each range4 (check_thresholds_body data) tt.

Definition data_addr (i : chan) (kind : string) : string :=
  "/adc/ch" +:+ str i +:+ "/" +:+ kind.

(** The cells that one channel adds to the log row. *)
Definition row_body (use_filtered : bool) (output_data : gmap string pyval)
    (i : chan) (row : list pyval) : M (list pyval) :=
  match output_data !! str i with
  | Some e =>
      r ← lift (py_getitem e "raw");
      v ← lift (py_getitem e (if use_filtered then "filtered_voltage"
                              else "voltage"));
      mret (row ++ [r; v])
  | None => mret (row ++ [PInt 0; PFloat 0])
  end.

(** The two messages that one channel sends to the telemetry receiver. *)
Definition osc_body (use_filtered : bool) (output_data : gmap string pyval)
    (ch_num : chan) (_ : unit) : M unit :=
  match output_data !! str ch_num with
  | Some ch_data =>
      r ← lift (py_getitem ch_data "raw");
      do_call (Send_message (data_addr ch_num "raw") r);;
      voltage ← lift (py_getitem ch_data (if use_filtered
                                          then "filtered_voltage"
                                          else "voltage"));
      do_call (Send_message (data_addr ch_num "voltage") voltage)
  | None => mret tt
  end.

(** The body of [if self.logging_active and self.csv_writer]. *)
Definition log_to_csv (data : frame) (use_filtered : bool)
    (output_data : gmap string pyval) : M unit :=
  en ← ask;
  let timestamp_local := now_iso en in
  let timestamp_esp32 := default (PInt 0) (timestamp data) in
  row ← for_each range4 (row_body use_filtered output_data)
          [PStr timestamp_local; timestamp_esp32];
  do_call (Writerow row);;
  modify (λ st, set_csv_row_count (csv_row_count st + 1) st);;
  st ← get;
  (if bool_decide (csv_row_count st `mod` 10 = 0)
   then do_call (Set_row_label (csv_row_count st))
   else mret tt);;
  (if bool_decide (sample_count st `mod` 100 = 0)
   then do_call Flush
   else mret tt).

(** The body of [if self.streaming_active]. *)
Definition send_osc (use_filtered : bool) (output_data : gmap string pyval)
    (filtered_data : gmap string chan_out) : M unit :=
  for_each range4 (osc_body use_filtered output_data) tt;;
  check_thresholds filtered_data.

Definition process_data (data : frame) : M unit :=
  filtered_data ← apply_filters data;
  do_call (Emit_new_data data);;
  en ← ask;
  let use_filtered := filtered_radio (ui en) in
  output_data ←
    (if use_filtered then mret (dict_of_out <$> filtered_data)
     else lift (match channels data with
                | Some c => Ok c
                | None => Raise KeyError
                end)) : M (gmap string pyval);
  (if logging_active (ui en) && csv_writer (ui en)
   then log_to_csv data use_filtered output_data
   else mret tt);;
  (if streaming_active (ui en)
   then send_osc use_filtered output_data filtered_data
   else mret tt);;
  modify (λ st, set_sample_count (sample_count st + 1) st).

(** *** The polling loop *)

(** The local variable of the loop and the window object. *)
Record loop_state : Type := LoopState {
  next_sample_time : float;
  app : state
}.

(** What one turn of the loop reads from outside: the [running] flag, the
    clock, the outcome of the request (a decoded frame, or the exception
    of the request or of the decoding), and the surroundings of the
    dispatch. *)
Record observation : Type := Observation {
  running : bool;
  current_time : float;
  response : result frame;
  cycle : env
}.

(** [1.0 / self.rate_input.value()], the spin box having range 1..200. *)
Definition sample_interval (rate : Z) : float := (1 / float_of_Z rate)%float.

(** [max(0, d)] *)
Definition py_max0 (d : float) : float :=
  if (0 <? d)%float then d else 0%float.

(** The [try] of the loop: every exception is caught and counted. *)
Definition fetch_and_dispatch (o : observation) (st : state) : state :=
  match response o with
  | Ok data =>
      match process_data data (cycle o) st with
      | (st', Ok _) => st'
      | (st', Raise _) => set_error_count (error_count st' + 1) st'
      end
  | Raise _ => set_error_count (error_count st + 1) st
  end.

(** The body of [while self.running]. *)
Definition loop_body (interval : float) (o : observation) (ls : loop_state)
    : loop_state :=
  if (current_time o <? next_sample_time ls)%float then
    let d := py_max0 (next_sample_time ls - current_time o)%float in
    LoopState (next_sample_time ls)
              (set_delivered (delivered (app ls) ++ [Sleep d]) (app ls))
  else
    let st' := fetch_and_dispatch o (app ls) in
    let next := (next_sample_time ls + interval)%float in
    let next :=
      if (next <? current_time o)%float
      then (current_time o + interval)%float
      else next in
    LoopState next st'.

(** The loop over the observations of its successive turns; it ends when
    the flag is seen cleared.  The result tells whether the loop is still
    running once the observations are used up. *)
Fixpoint acquisition_loop (interval : float) (obs : list observation)
    (ls : loop_state) : loop_state * bool :=
  match obs with
  | [] => (ls, true)
  | o :: obs' =>
      if running o then acquisition_loop interval obs' (loop_body interval o ls)
      else (ls, false)
  end.

End Pipeline.

(** ** Vocabulary of the properties *)

(** The mean of a list of doubles, in double arithmetic. *)
Definition mean (l : list float) : float :=
  (py_sum l / float_of_Z (Z.of_nat (length l)))%float.

(** The last [k] elements of a list. *)
Definition last_n {A} (k : nat) (l : list A) : list A :=
  drop (length l - k) l.

(** [apply_filters] touches the histories only. *)
Definition same_but_buffers (st st' : state) : Prop :=
  threshold_states st' = threshold_states st ∧
  csv_row_count st' = csv_row_count st ∧
  sample_count st' = sample_count st ∧
  error_count st' = error_count st ∧
  delivered st' = delivered st.

(** A frame with one reading, of the channel [i]. *)
Definition reading (i : chan) (v : float) : frame :=
  Frame None
    (Some {[ str i := PDict (<["raw" := PInt 0]> (<["voltage" := PFloat v]> ∅)) ]}).

(** The filtered voltages of successive readings of one channel, from the
    history [buf]. *)
Fixpoint window_outputs (c : controls) (i : chan) (buf : list float)
    (vs : list float) : list (option float) :=
  match vs with
  | [] => []
  | v :: vs' =>
      let buf' := deque_append 50 buf v in
      Some (if filter_enabled c i
            then mean (py_last (filter_window c i `min` length buf') buf')
            else v)
      :: window_outputs c i buf' vs'
  end.

(** What one pass of [check_thresholds] does to the stored state of a
    channel, and the alert it sends, given the entry of the channel. *)
Definition threshold_channel (c : controls) (i : chan) (stored : option level)
    (entry : option chan_out) : option level * list call :=
  match entry with
  | None => (stored, [])
  | Some ch =>
      if thresh_enabled c i then
        let v := if filter_enabled c i then filtered_voltage ch else voltage ch in
        let cur := classify v (thresh_high c i) (thresh_low c i) in
        if decide (Some cur = stored) then (stored, [])
        else
          (Some cur,
           match cur with
           | high =>
               [Send_message (alert_addr i "high")
                  (PList [PFloat v; PFloat (thresh_high c i)])]
           | low =>
               [Send_message (alert_addr i "low")
                  (PList [PFloat v; PFloat (thresh_low c i)])]
           | normal =>
               if stored is Some _
               then [Send_message (alert_addr i "normal") (PFloat v)]
               else []
           end)
      else (stored, [])
  end.

(** [check_thresholds] touches the stored classifications and sends
    messages; the other fields stay. *)
Definition same_but_thresholds (st st' : state) : Prop :=
  filter_buffers st' = filter_buffers st ∧
  csv_row_count st' = csv_row_count st ∧
  sample_count st' = sample_count st ∧
  error_count st' = error_count st.

Definition no_faults (en : env) : Prop := ∀ c, faults en c = None.

(** The alerts of the channel [i] among the calls. *)
Definition alert_of (i : chan) (c : call) : bool :=
  match c with
  | Send_message addr _ =>
      bool_decide (addr ∈ [alert_addr i "high"; alert_addr i "low";
                           alert_addr i "normal"])
  | _ => false
  end.

Definition alerts (i : chan) (l : list call) : list call :=
  filter (λ c, Is_true (alert_of i c)) l.

(** The voltage that [check_thresholds] compares: the filtered one when the
    filter of the channel is on. *)
Definition checked_voltage (c : controls) (i : chan) (ch : chan_out) : float :=
  if filter_enabled c i then filtered_voltage ch else voltage ch.

(** The classification in the words of the specification: High if the value
    is above the high setpoint, else Low if it is below the low setpoint,
    else Normal. *)
Inductive classifies (v H L : float) : level → Prop :=
  | classifies_high :
      (H <? v)%float = true → classifies v H L high
  | classifies_low :
      (H <? v)%float = false → (v <? L)%float = true → classifies v H L low
  | classifies_normal :
      (H <? v)%float = false → (v <? L)%float = false → classifies v H L normal.

(** Successive passes of [check_thresholds]. *)
Fixpoint threshold_run (datas : list (gmap string chan_out)) (en : env)
    (st : state) : state :=
  match datas with
  | [] => st
  | d :: rest => threshold_run rest en (check_thresholds d en st).1
  end.

(** The alert that goes with a classification. *)
Definition alert_for (i : chan) (lv : level) (v H L : float) : call :=
  match lv with
  | high => Send_message (alert_addr i "high") (PList [PFloat v; PFloat H])
  | low => Send_message (alert_addr i "low") (PList [PFloat v; PFloat L])
  | normal => Send_message (alert_addr i "normal") (PFloat v)
  end.

(** The alerts of one pass over an enabled channel, by the stored state and
    the new classification. *)
Definition events_of (i : chan) (stored : option level) (lv : level)
    (v H L : float) : list call :=
  match stored with
  | None => if decide (lv = normal) then [] else [alert_for i lv v H L]
  | Some s => if decide (s = lv) then [] else [alert_for i lv v H L]
  end.

(** Controls with every threshold on at the default setpoints, 1.0 and 0.1,
    every filter off, no logging, and telemetry on. *)
Definition default_alerting : controls :=
  Controls (λ _, false) (λ _, 5%nat) (λ _, true) (λ _, 1%float)
           (λ _, 0.1%float) false false false true.

(** Surroundings in which no call raises. *)
Definition quiet (c : controls) : env := Env c (λ _, None) "".

Definition is_send (c : call) : bool :=
  match c with Send_message _ _ => true | _ => false end.

Definition is_row (c : call) : bool :=
  match c with Writerow _ => true | _ => false end.

(** States that differ by telemetry only: messages were sent, and stored
    classifications may have changed. *)
Definition telemetry_only (st st' : state) : Prop :=
  filter_buffers st' = filter_buffers st ∧
  csv_row_count st' = csv_row_count st ∧
  sample_count st' = sample_count st ∧
  error_count st' = error_count st ∧
  ∃ l, delivered st' = delivered st ++ l ∧ Forall (λ c, is_send c = true) l.

(** Entries from which the log row and the messages can be built. *)
Definition out_ok (uf : bool) (od : gmap string pyval) : Prop :=
  ∀ i e, od !! str i = Some e →
    ∃ r v, py_getitem e "raw" = Ok r ∧
           py_getitem e (if uf then "filtered_voltage" else "voltage") = Ok v.

(** An entry of a frame that is an object with both members. *)
Definition subscriptable (e : pyval) : bool :=
  match py_getitem e "raw", py_getitem e "voltage" with
  | Ok _, Ok _ => true
  | _, _ => false
  end.

Definition frame_subscriptable (chs : gmap string pyval) : bool :=
  forallb (λ i, from_option subscriptable true (chs !! str i)) range4.

(** Surroundings in which only telemetry may raise. *)
Definition non_telemetry_ok (en : env) : Prop :=
  ∀ c, is_send c = false → faults en c = None.

(** The log rows among the calls. *)
Definition rows (l : list call) : list call :=
  filter (λ c, Is_true (is_row c)) l.

(** A runtime whose parsers accept no string; the frames of the examples
    hold none. *)
Definition unparsed_float : string → option float := λ _, None.
Definition unparsed_int : string → option Z := λ _, None.

(** *** Concrete inputs *)

(** Controls with every filter on with a window of 5, filtered output
    chosen, thresholds off. *)
Definition smoothing : controls :=
  Controls (λ _, true) (λ _, 5%nat) (λ _, false) (λ _, 1%float)
           (λ _, 0.1%float) true false false true.

(** Controls with the setpoints the wrong way round: high 0.1, low 1.0. *)
Definition inverted : controls :=
  Controls (λ _, false) (λ _, 5%nat) (λ _, true) (λ _, 0.1%float)
           (λ _, 1%float) false false false true.

(** Controls with logging and telemetry on. *)
Definition logging : controls :=
  Controls (λ _, false) (λ _, 5%nat) (λ _, false) (λ _, 1%float)
           (λ _, 0.1%float) false true true true.

(** Surroundings in which the display handoff, every log write, or every
    telemetry send raises. *)
Definition display_down (c : controls) : env :=
  Env c (λ k, match k with Emit_new_data _ => Some OSError | _ => None end) "".
Definition log_down (c : controls) : env :=
  Env c (λ k, if is_row k then Some OSError else None) "".
Definition telemetry_down (c : controls) : env :=
  Env c (λ k, if is_send k then Some OSError else None) "".

(** The entries of a frame with a reading of 1.5 on channel 0 and, on
    channel 1, a null count. *)
Definition entry_ok : pyval :=
  PDict (<["raw" := PInt 7]> (<["voltage" := PFloat 1.5]> ∅)).
Definition entry_null : pyval :=
  PDict (<["raw" := PNone]> (<["voltage" := PFloat 2.5]> ∅)).
Definition two_channels : gmap string pyval :=
  <["0" := entry_ok]> (<["1" := entry_null]> ∅).

(** An entry whose count is infinite (the JSON number 1e999 decodes to
    [inf]), and frames that hold it on channel 0 or on channel 1 beside a
    reading of 1.5 on the other. *)
Definition entry_overflow : pyval :=
  PDict (<["raw" := PFloat infinity]> (<["voltage" := PFloat 2.5]> ∅)).
Definition overflow_first : gmap string pyval :=
  <["0" := entry_overflow]> (<["1" := entry_ok]> ∅).
Definition overflow_second : gmap string pyval :=
  <["0" := entry_ok]> (<["1" := entry_overflow]> ∅).

(** A state in which every channel was last classified High. *)
Definition alerted : state :=
  State (λ _, []) (λ _, Some high) 0 0 0 [].

Section Vocabulary.

Variable float_of_str : string → option float.
Variable int_of_str : string → option Z.

Abbreviation read_channel := (read_channel float_of_str int_of_str).
Abbreviation apply_filters := (apply_filters float_of_str int_of_str).
Abbreviation fetch_and_dispatch := (fetch_and_dispatch float_of_str int_of_str).

(** An entry that [apply_filters] gets past: its reading converts, or the
    conversion raises one of the classes that the [except] names. *)
Definition readable (entry : pyval) : bool :=
  match read_channel entry with
  | Ok _ => true
  | Raise e => caught_by_filter e
  end.

Definition frame_readable (chs : gmap string pyval) : bool :=
  forallb (λ i, from_option readable true (chs !! str i)) range4.

(** What one update does to the history of a channel and what it puts in
    the output dict, given the entry of the channel in the frame. *)
Definition filter_channel (c : controls) (i : chan) (buf : list float)
    (entry : option pyval) : list float * option chan_out :=
  match entry with
  | None => (buf, None)
  | Some e =>
      match read_channel e with
      | Raise _ => (buf, None)
      | Ok (v, r) =>
          let buf' := deque_append 50 buf v in
          (buf', Some (ChanOut r v
                         (if filter_enabled c i
                          then mean (py_last (filter_window c i `min` length buf') buf')
                          else v)))
      end
  end.

(** Successive updates: the filtered voltage that each returns for the
    channel [i]. *)
Fixpoint filter_run (i : chan) (frames : list frame) (en : env) (st : state)
    : list (option float) :=
  match frames with
  | [] => []
  | data :: rest =>
      match apply_filters data en st with
      | (st', Ok out) =>
          (filtered_voltage <$> out !! str i) :: filter_run i rest en st'
      | (st', Raise _) => None :: filter_run i rest en st'
      end
  end.

(** The [try] of the loop over successive turns. *)
Definition dispatch_all (obs : list observation) (st : state) : state :=
  foldl (λ st o, fetch_and_dispatch o st) st obs.

(** A turn whose frame the dispatcher can log: the request succeeded, the
    frame is one that [apply_filters] gets through and whose entries are
    objects with both members, logging is on, and nothing but telemetry
    raises. *)
Definition loggable (o : observation) : Prop :=
  ∃ data chs,
    response o = Ok data ∧
    channels data = Some chs ∧
    frame_readable chs = true ∧
    frame_subscriptable chs = true ∧
    non_telemetry_ok (cycle o) ∧
    logging_active (ui (cycle o)) = true ∧
    csv_writer (ui (cycle o)) = true.

End Vocabulary.

(** ** Vocabulary of the further properties *)

(** Every history keeps to the bound of its deque. *)
Definition histories_bounded (st : state) : Prop :=
  ∀ i, (length (filter_buffers st i) ≤ 50)%nat.

(** What [apply_filters] can do to the state, whatever it returns. *)
Definition filters_step (st st' : state) : Prop :=
  same_but_buffers st st' ∧ (histories_bounded st → histories_bounded st').

(** The calls of the logging step: a row of ten cells, the row label, a
    flush. *)
Definition log_call (c : call) : Prop :=
  match c with
  | Writerow row => length row = 10%nat
  | Set_row_label _ | Flush => True
  | _ => False
  end.

(** The calls that a cycle with the controls [c] on the frame [data] may
    make. *)
Definition cycle_call (c : controls) (data : frame) (k : call) : Prop :=
  match k with
  | Emit_new_data d => d = data
  | Writerow row =>
      length row = 10%nat ∧ logging_active c = true ∧ csv_writer c = true
  | Set_row_label _ | Flush => logging_active c = true ∧ csv_writer c = true
  | Send_message _ _ => streaming_active c = true
  | Sleep _ => False
  end.

(** What the logging step can do to the state, whatever it returns: it
    appends its calls, and counts the rows it wrote. *)
Definition log_step (st st' : state) : Prop :=
  filter_buffers st' = filter_buffers st ∧
  threshold_states st' = threshold_states st ∧
  sample_count st' = sample_count st ∧
  error_count st' = error_count st ∧
  ∃ l, delivered st' = delivered st ++ l ∧
       Forall log_call l ∧
       csv_row_count st' = csv_row_count st + Z.of_nat (length (rows l)).


Definition is_ok {A} (r : result A) : bool :=
  match r with Ok _ => true | Raise _ => false end.

(** What one dispatch can do to the state, whatever it returns: [ok] tells
    whether it returned. *)
Definition cycle_effect (c : controls) (data : frame) (st st' : state)
    (ok : bool) : Prop :=
  (histories_bounded st → histories_bounded st') ∧
  error_count st' = error_count st ∧
  sample_count st' = sample_count st + (if ok then 1 else 0) ∧
  (streaming_active c = false → threshold_states st' = threshold_states st) ∧
  ∃ l, delivered st' = delivered st ++ l ∧
       Forall (cycle_call c data) l ∧
       csv_row_count st' = csv_row_count st + Z.of_nat (length (rows l)).

(** A pass of [check_thresholds] that leaves the channel [i] alone: its
    stored classification and its alerts. *)
Definition channel_untouched (i : chan) (st st' : state) : Prop :=
  threshold_states st' i = threshold_states st i ∧
  alerts i (delivered st') = alerts i (delivered st).

Section MoreVocabulary.

Variable float_of_str : string → option float.
Variable int_of_str : string → option Z.

(** Successive calls of [apply_filters], whatever each returns. *)
Fixpoint filters_run (frames : list frame) (en : env) (st : state) : state :=
  match frames with
  | [] => st
  | data :: rest =>
      filters_run rest en (apply_filters float_of_str int_of_str data en st).1
  end.

(** A frame that [apply_filters] gets through and in which the reading of
    the channel [i] converts to the voltage [v]. *)
Definition reads (i : chan) (data : frame) (v : float) : Prop :=
  ∃ chs entry r,
    channels data = Some chs ∧
    frame_readable float_of_str int_of_str chs = true ∧
    chs !! str i = Some entry ∧
    read_channel float_of_str int_of_str entry = Ok (v, r).

End MoreVocabulary.

(** The member [k] of an entry that has it. *)
Definition member (e : pyval) (k : string) : pyval :=
  match py_getitem e k with Ok v => v | Raise _ => PNone end.

(** The two cells of a channel in a log row, from the dict that is logged:
    its count and the chosen voltage, or the placeholders [0] and [0.0]
    when the dict has no entry for the channel. *)
Definition logged_cells (use_filtered : bool) (output_data : gmap string pyval)
    (i : chan) : list pyval :=
  match output_data !! str i with
  | Some e =>
      [member e "raw";
       member e (if use_filtered then "filtered_voltage" else "voltage")]
  | None => [PInt 0; PFloat 0]
  end.

(** The controls with the output switch (raw or filtered) set to [b]. *)
Definition set_filtered_radio (b : bool) (c : controls) : controls :=
  Controls (filter_enabled c) (filter_window c) (thresh_enabled c)
           (thresh_high c) (thresh_low c) b (logging_active c)
           (csv_writer c) (streaming_active c).

Definition with_output_mode (b : bool) (en : env) : env :=
  Env (set_filtered_radio b (ui en)) (faults en) (now_iso en).

(** Calls after which the alerts of the channel [i] are the same. *)
Definition same_alerts (i : chan) (st st' : state) : Prop :=
  alerts i (delivered st') = alerts i (delivered st).

(** ** The serial transport *)

(** The line feed. *)
Definition newline : ascii := "010"%char.

(** [s.split('\n', 1)] when ['\n' in s]: the text before the first line
    feed and the text after it; [None] when [s] has no line feed. *)
Fixpoint split_newline (s : string) : option (string * string) :=
  match s with
  | EmptyString => None
  | String c s' =>
      if decide (c = newline) then Some (EmptyString, s')
      else match split_newline s' with
           | Some (line, rest) => Some (String c line, rest)
           | None => None
           end
  end.

(** [line.startswith('{')] *)
Definition starts_with_brace (line : string) : bool :=
  match line with
  | String c _ => bool_decide (c = "{"%char)
  | EmptyString => false
  end.

(** The local variables of the serial loop and the window object. *)
Record serial_state : Type := SerialState {
  serial_next_sample_time : float;
  line_buffer : string;
  serial_app : state
}.

(** What one turn of the serial loop reads from outside: the [running]
    flag, the clock, the port (an exception of [in_waiting] or [read],
    nothing waiting, or the decoded chunk), and the surroundings of the
    dispatch of each complete line of the turn, by its rank. *)
Record serial_observation : Type := SerialObservation {
  serial_running : bool;
  serial_current_time : float;
  incoming : result (option string);
  line_cycle : nat → env
}.

Section Serial.

Variable float_of_str : string → option float.
Variable int_of_str : string → option Z.

(** [line.strip()] and [json.loads(line)] of the Python runtime; [None]
    stands for JSONDecodeError.  A text that opens with a brace decodes to
    an object or not at all. *)
Variable strip : string → string.
Variable json_loads : string → option frame.

(** What the loop does with one complete line. *)
Definition serial_line (line : string) : M unit :=
  let line := strip line in
  if starts_with_brace line then
    match json_loads line with
    | Some data =>
        if channels data is Some _
        then process_data float_of_str int_of_str data
        else mret tt
    | None => mret tt
    end
  else mret tt.

(** [while '\n' in line_buffer], from the line of rank [k] on: the state,
    the buffer that is left, and whether a dispatch raised.  Each turn of
    the loop shortens the buffer, so a budget above its length is never
    used up. *)
Fixpoint serial_drain (budget : nat) (k : nat) (buffer : string)
    (cycles : nat → env) (st : state) : state * string * result unit :=
  match budget with
  | O => (st, buffer, Ok tt)
  | S budget' =>
      match split_newline buffer with
      | None => (st, buffer, Ok tt)
      | Some (line, rest) =>
          match serial_line line (cycles k) st with
          | (st', Ok _) => serial_drain budget' (S k) rest cycles st'
          | (st', Raise e) => (st', rest, Raise e)
          end
      end
  end.

(** The [try] of the serial loop: every exception is caught and counted. *)
Definition serial_read (o : serial_observation) (buffer : string) (st : state)
    : state * string :=
  match incoming o with
  | Raise _ => (set_error_count (error_count st + 1) st, buffer)
  | Ok None => (st, buffer)
  | Ok (Some chunk) =>
      let buffer := buffer +:+ chunk in
      match serial_drain (S (String.length buffer)) 0 buffer (line_cycle o) st with
      | (st', buffer', Ok _) => (st', buffer')
      | (st', buffer', Raise _) =>
          (set_error_count (error_count st' + 1) st', buffer')
      end
  end.

(** The body of [while self.running] of the serial branch. *)
Definition serial_body (interval : float) (o : serial_observation)
    (ss : serial_state) : serial_state :=
  if (serial_current_time o <? serial_next_sample_time ss)%float then
    let d := py_max0 (serial_next_sample_time ss - serial_current_time o)%float in
    SerialState (serial_next_sample_time ss) (line_buffer ss)
      (set_delivered (delivered (serial_app ss) ++ [Sleep d]) (serial_app ss))
  else
    let '(st', buffer') := serial_read o (line_buffer ss) (serial_app ss) in
    let next := (serial_next_sample_time ss + interval)%float in
    let next :=
      if (next <? serial_current_time o)%float
      then (serial_current_time o + interval)%float
      else next in
    SerialState next buffer' st'.

(** The serial loop over the observations of its successive turns. *)
Fixpoint serial_loop (interval : float) (obs : list serial_observation)
    (ss : serial_state) : serial_state * bool :=
  match obs with
  | [] => (ss, true)
  | o :: obs' =>
      if serial_running o
      then serial_loop interval obs' (serial_body interval o ss)
      else (ss, false)
  end.

(** The complete lines of a text, and the text after its last line feed. *)
Fixpoint lines_of (s : string) : list string * string :=
  match s with
  | EmptyString => ([], EmptyString)
  | String c s' =>
      let '(ls, r) := lines_of s' in
      if decide (c = newline) then (EmptyString :: ls, r)
      else match ls with
           | [] => ([], String c r)
           | l :: ls' => (String c l :: ls', r)
           end
  end.

(** Lines put back in front of a text, each with its line feed. *)
Fixpoint unlines (ls : list string) (r : string) : string :=
  match ls with
  | [] => r
  | l :: ls' => l +:+ String newline (unlines ls' r)
  end.

(** [raw.decode('utf-8', errors='ignore')] of the Python runtime: it never
    raises, and leaves out the bytes that form no character, among them a
    sequence of several bytes that the end of [raw] cuts short. *)
Variable utf8_decode : list Byte.byte → string.

(** What a turn observes at the time [now] when the port has the bytes
    [raw] waiting: the chunk is [raw], decoded on its own. *)
Definition port_delivers (raw : list Byte.byte) (cycles : nat → env)
    (now : float) : serial_observation :=
  SerialObservation true now (Ok (Some (utf8_decode raw))) cycles.

(** The lines dispatched in turn from rank [k], up to the first that
    raises; the lines after it go back in front of the rest. *)
Fixpoint run_lines (k : nat) (ls : list string) (r : string)
    (cycles : nat → env) (st : state) : state * string * result unit :=
  match ls with
  | [] => (st, r, Ok tt)
  | l :: ls' =>
      match serial_line l (cycles k) st with
      | (st', Ok _) => run_lines (S k) ls' r cycles st'
      | (st', Raise e) => (st', unlines ls' r, Raise e)
      end
  end.

(** A line that is no frame: stripped, it does not open with a brace, or
    does not decode, or decodes to an object without channels. *)
Definition no_frame (line : string) : bool :=
  negb (starts_with_brace (strip line)) ||
  match json_loads (strip line) with
  | Some data => negb (bool_decide (is_Some (channels data)))
  | None => true
  end.

End Serial.

(** ['\n' in s] *)
Fixpoint has_newline (s : string) : bool :=
  match s with
  | EmptyString => false
  | String c s' => bool_decide (c = newline) || has_newline s'
  end.

(** ** Opening a log ([start_logging]) *)

(** [f"{index:03d}"]: the decimal digits, padded with zeros to three. *)
Fixpoint zeros (n : nat) : string :=
  match n with O => "" | S n' => String "0" (zeros n') end.

Definition format_03d (index : nat) : string :=
  let digits := pretty index in
  zeros (3 - String.length digits) +:+ digits.

(** The name of the log of rank [index] for a base name. *)
Definition csv_name (base : string) (index : nat) : string :=
  match index with
  | O => base +:+ ".csv"
  | S _ => base +:+ "_" +:+ format_03d index +:+ ".csv"
  end.

(** [while True: ... if not csv_path.exists(): break; index += 1], over the
    names that the working directory holds ([present]), from [index] on.
    The loop has no bound of its own; [fuel] turns are run. *)
Fixpoint free_index (present : string → bool) (base : string)
    (fuel index : nat) : option nat :=
  match fuel with
  | O => None
  | S fuel' =>
      if present (csv_name base index)
      then free_index present base fuel' (S index)
      else Some index
  end.

(** The header row, as the loop over the four channels extends it. *)
Definition header : list string :=
  foldl (λ h i, h ++ ["ch" +:+ str i +:+ "_raw"; "ch" +:+ str i +:+ "_voltage"])
        ["timestamp_local"; "timestamp_esp32"] range4.

(** What the dispatch of lines can do to the counters and the histories,
    whatever it returns. *)
Definition lines_step (st st' : state) : Prop :=
  error_count st' = error_count st ∧
  sample_count st ≤ sample_count st' ∧
  (histories_bounded st → histories_bounded st').

(** What turns of the serial loop can do to them, [n] bounding the errors
    counted. *)
Definition turns_step (n : Z) (st st' : state) : Prop :=
  error_count st ≤ error_count st' ≤ error_count st + n ∧
  sample_count st ≤ sample_count st' ∧
  (histories_bounded st → histories_bounded st').

(** ** A serial runtime for the examples *)

(** The text of a record with an empty [channels] object, in two pieces as
    the port may deliver it. *)
Definition dquote : ascii := "034"%char.
Definition record_head : string := "{" +:+ String dquote "chan".
Definition record_tail : string := "nels" +:+ String dquote ":{}}".

(** A directory that holds the first two logs of the base name [run]. *)
Definition two_logs (name : string) : bool :=
  bool_decide (name ∈ ["run.csv"; "run_001.csv"]).

(** A decoder that knows that record and the empty object, and a [strip]
    for texts without blanks at their ends. *)
Definition decode_known (s : string) : option frame :=
  if decide (s = record_head +:+ record_tail) then Some (Frame None (Some ∅))
  else if decide (s = "{}") then Some (Frame None None)
  else None.
Definition strip_none (s : string) : string := s.

(** A decoder for the examples, whose streams are ASCII: a byte below 128
    is its character, and the other bytes, which form no character of such
    a stream, are left out. *)
Definition ascii_decode (raw : list Byte.byte) : string :=
  String.string_of_list_byte (List.filter (λ b, (Byte.to_N b <? 128)%N) raw).

(** The bytes of the two pieces of the record, the second with its line
    feed. *)
Definition head_bytes : list Byte.byte := String.list_byte_of_string record_head.
Definition tail_bytes : list Byte.byte :=
  String.list_byte_of_string (record_tail +:+ String newline "").

(** A turn of the serial loop in which the port delivers [chunk]. *)
Definition delivers (chunk : string) : serial_observation :=
  SerialObservation true 0%float (Ok (Some chunk)) (λ _, quiet logging).

(** A turn in which the port delivers that record twice, each time on a
    line of its own, while the display handoff raises. *)
Definition record_line : string :=
  record_head +:+ record_tail +:+ String newline "".
Definition two_records_display_down : serial_observation :=
  SerialObservation true 0%float (Ok (Some (record_line +:+ record_line)))
    (λ _, display_down logging).

Arguments float_of_Z : simpl never.
Arguments py_sum : simpl never.

(** ** Reasoning about methods *)

Ltac unfold_monad :=
  unfold mbind, M_bind, mret, M_ret, result_bind, result_ret,
    raise, lift, ask, get, modify, do_call in *.

Lemma for_each_app {A B} (l1 l2 : list A) (body : A → B → M B) (acc : B) en st :
  for_each (l1 ++ l2) body acc en st =
  match for_each l1 body acc en st with
  | (st', Ok acc') => for_each l2 body acc' en st'
  | (st', Raise e) => (st', Raise e)
  end.
Proof.
  revert acc st. induction l1 as [|i l1 IH]; intros acc st; simpl.
  - reflexivity.
  - unfold_monad. destruct (body i acc en st) as [st1 [acc1|e]]; auto.
Qed.

Lemma str_inj i j : str i = str j → i = j.
Proof. destruct i, j; simpl; congruence. Qed.

Lemma NoDup_range4 : NoDup range4.
Proof. by apply (bool_decide_unpack _). Qed.

Lemma elem_of_range4 i : i ∈ range4.
Proof. unfold range4. rewrite !elem_of_cons. destruct i; auto. Qed.

(** ** The smoothing filter *)

Lemma same_but_buffers_refl st : same_but_buffers st st.
Proof. by repeat split. Qed.

Lemma same_but_buffers_trans st1 st2 st3 :
  same_but_buffers st1 st2 → same_but_buffers st2 st3 → same_but_buffers st1 st3.
Proof.
  unfold same_but_buffers. intros (?&?&?&?&?) (?&?&?&?&?).
  repeat split; congruence.
Qed.

Lemma length_deque_append_pos {A} m (d : list A) x :
  (0 < m)%nat → (0 < length (deque_append m d x))%nat.
Proof.
  intros Hm. unfold deque_append. case_decide.
  - rewrite length_drop. lia.
  - rewrite length_app. simpl. lia.
Qed.

Lemma py_last_min {A} w (l : list A) :
  (0 < w)%nat → py_last (w `min` length l) l = last_n (w `min` length l) l.
Proof.
  intros Hw. unfold py_last, last_n.
  destruct (w `min` length l)%nat eqn:E; [|done].
  assert (length l = 0)%nat as Hl by lia.
  destruct l; [done|discriminate].
Qed.

Lemma length_py_last_pos {A} w (l : list A) :
  (0 < length l)%nat → (0 < length (py_last (w `min` length l) l))%nat.
Proof.
  intros Hl. unfold py_last.
  destruct (w `min` length l)%nat eqn:E; [done|].
  rewrite length_drop. lia.
Qed.

Section Filter.

Variable float_of_str : string → option float.
Variable int_of_str : string → option Z.

Abbreviation read_channel := (read_channel float_of_str int_of_str).
Abbreviation apply_filters_body := (apply_filters_body float_of_str int_of_str).
Abbreviation apply_filters := (apply_filters float_of_str int_of_str).
Abbreviation readable := (readable float_of_str int_of_str).
Abbreviation frame_readable := (frame_readable float_of_str int_of_str).
Abbreviation filter_channel := (filter_channel float_of_str int_of_str).
Abbreviation filter_run := (filter_run float_of_str int_of_str).

Lemma apply_filters_body_spec chs j acc en st :
  from_option readable true (chs !! str j) = true →
  ∃ st',
    apply_filters_body chs j acc en st =
      (st', Ok (from_option (λ o, <[str j := o]> acc) acc
                  (filter_channel (ui en) j (filter_buffers st j) (chs !! str j)).2)) ∧
    same_but_buffers st st' ∧
    (∀ i, filter_buffers st' i =
          if decide (i = j)
          then (filter_channel (ui en) j (filter_buffers st j) (chs !! str j)).1
          else filter_buffers st i).
Proof.
  intros Hr. unfold apply_filters_body, filter_channel.
  destruct (chs !! str j) as [entry|] eqn:Hentry; simpl in Hr.
  2:{ exists st. unfold_monad.
      split; [done|]. split; [apply same_but_buffers_refl|].
      intros i; simpl; case_decide; subst; done. }
  unfold readable in Hr.
  destruct (read_channel entry) as [[v r]|e] eqn:Hread.
  2:{ rewrite Hr. exists st. unfold_monad.
      split; [done|]. split; [apply same_but_buffers_refl|].
      intros i; simpl; case_decide; subst; done. }
  unfold_monad. simpl. rewrite fn_lookup_insert.
  set (buf' := deque_append 50 (filter_buffers st j) v).
  assert (0 < length buf')%nat as Hlen
    by (apply length_deque_append_pos; lia).
  destruct (filter_enabled (ui en) j) eqn:Hen; simpl.
  - rewrite bool_decide_eq_true_2 by done.
    unfold py_truediv. rewrite decide_False.
    2:{ pose proof (length_py_last_pos (filter_window (ui en) j) buf' Hlen). lia. }
    eexists. split; [reflexivity|]. split; [by repeat split|].
    intros i; simpl; case_decide; subst.
    + by rewrite fn_lookup_insert.
    + by rewrite fn_lookup_insert_ne.
  - eexists. split; [reflexivity|]. split; [by repeat split|].
    intros i; simpl; case_decide; subst.
    + by rewrite fn_lookup_insert.
    + by rewrite fn_lookup_insert_ne.
Qed.

Lemma apply_filters_loop_spec l chs acc en st :
  NoDup l →
  (∀ j, j ∈ l → from_option readable true (chs !! str j) = true) →
  ∃ st' acc',
    for_each l (apply_filters_body chs) acc en st = (st', Ok acc') ∧
    same_but_buffers st st' ∧
    (∀ i, filter_buffers st' i =
          if decide (i ∈ l)
          then (filter_channel (ui en) i (filter_buffers st i) (chs !! str i)).1
          else filter_buffers st i) ∧
    (∀ i, acc' !! str i =
          if decide (i ∈ l)
          then from_option Some (acc !! str i)
                 (filter_channel (ui en) i (filter_buffers st i) (chs !! str i)).2
          else acc !! str i).
Proof.
  intros Hnd. revert acc st.
  induction Hnd as [|j l Hj Hnd IH]; intros acc st Hr.
  - exists st, acc. simpl. unfold_monad.
    split; [done|]. split; [apply same_but_buffers_refl|].
    split; intros i; done.
  - destruct (apply_filters_body_spec chs j acc en st) as (st1 & E1 & S1 & B1).
    { apply Hr. left. }
    set (acc1 := from_option _ _ _) in E1.
    destruct (IH acc1 st1) as (st' & acc' & E & S & B & O).
    { intros k Hk. apply Hr. by right. }
    exists st', acc'. split.
    { simpl. unfold mbind, M_bind at 1. rewrite E1. exact E. }
    split; [by eapply same_but_buffers_trans|].
    split; intros i.
    + rewrite B. destruct (decide (i = j)) as [->|Hne].
      * rewrite (decide_False (P := j ∈ l)) by done.
        rewrite (decide_True (P := j ∈ j :: l)) by left.
        rewrite B1. by rewrite decide_True.
      * rewrite B1. rewrite (decide_False (P := i = j)) by done.
        destruct (decide (i ∈ l)) as [Hi|Hi].
        -- by rewrite decide_True by (by right).
        -- rewrite decide_False; [done|]. rewrite elem_of_cons. tauto.
    + rewrite O. destruct (decide (i = j)) as [->|Hne].
      * rewrite (decide_False (P := j ∈ l)) by done.
        rewrite (decide_True (P := j ∈ j :: l)) by left.
        unfold acc1.
        destruct (filter_channel _ _ _ _).2; simpl; [|done].
        by rewrite lookup_insert_eq.
      * assert (acc1 !! str i = acc !! str i) as ->.
        { unfold acc1.
          destruct (filter_channel (ui en) j _ _).2; simpl; [|done].
          rewrite lookup_insert_ne; [done|]. intros ?%str_inj. done. }
        rewrite B1. rewrite (decide_False (P := i = j)) by done.
        destruct (decide (i ∈ l)) as [Hi|Hi].
        -- by rewrite decide_True by (by right).
        -- rewrite decide_False; [done|]. rewrite elem_of_cons. tauto.
Qed.

Lemma apply_filters_unfold data chs en st :
  channels data = Some chs →
  apply_filters data en st = for_each range4 (apply_filters_body chs) ∅ en st.
Proof. intros Hchs. unfold apply_filters. by rewrite Hchs. Qed.

(** The summary of [apply_filters]: on a frame all of whose entries are
    readable it returns, touches nothing but the histories, and treats
    each channel on its own. *)
Lemma apply_filters_spec data chs en st :
  channels data = Some chs →
  frame_readable chs = true →
  ∃ st' out,
    apply_filters data en st = (st', Ok out) ∧
    same_but_buffers st st' ∧
    ∀ i, (filter_buffers st' i, out !! str i) =
         filter_channel (ui en) i (filter_buffers st i) (chs !! str i).
Proof.
  intros Hchs Hr.
  destruct (apply_filters_loop_spec range4 chs ∅ en st NoDup_range4)
    as (st' & out & E & S & B & O).
  { intros j Hj. unfold frame_readable in Hr.
    rewrite forallb_forall in Hr. apply Hr.
    by apply list_elem_of_In. }
  exists st', out. split.
  { by rewrite (apply_filters_unfold _ _ _ _ Hchs). }
  split; [done|]. intros i.
  rewrite B, O, !decide_True by apply elem_of_range4.
  rewrite lookup_empty.
  destruct (filter_channel _ _ _ _) as [b [o|]]; done.
Qed.

Lemma frame_readable_lookup chs i entry :
  frame_readable chs = true → chs !! str i = Some entry → readable entry = true.
Proof.
  intros Hr Hentry. unfold frame_readable in Hr. rewrite forallb_forall in Hr.
  specialize (Hr i (proj1 (list_elem_of_In _ _) (elem_of_range4 i))).
  by rewrite Hentry in Hr.
Qed.

Lemma apply_filters_body_delete chs i entry e j acc en st :
  chs !! str i = Some entry →
  read_channel entry = Raise e →
  caught_by_filter e = true →
  apply_filters_body (delete (str i) chs) j acc en st =
  apply_filters_body chs j acc en st.
Proof.
  intros Hentry Hread Hcaught. unfold apply_filters_body.
  destruct (decide (j = i)) as [->|Hne].
  - rewrite lookup_delete_eq, Hentry, Hread, Hcaught. done.
  - rewrite lookup_delete_ne; [done|]. intros ?%str_inj. done.
Qed.

Lemma for_each_ext {A B} (l : list A) (f g : A → B → M B) acc en st :
  (∀ j acc en st, f j acc en st = g j acc en st) →
  for_each l f acc en st = for_each l g acc en st.
Proof.
  intros Hfg. revert acc st. induction l as [|j l IH]; intros acc st; simpl.
  - done.
  - unfold mbind, M_bind. rewrite Hfg.
    destruct (g j acc en st) as [st1 [acc1|e1]]; auto.
Qed.

Lemma last_deque_append {A} m (d : list A) x :
  (0 < m)%nat → last (deque_append m d x) = Some x.
Proof.
  intros Hm. unfold deque_append. case_decide as Hlen.
  - rewrite length_app in Hlen. simpl in Hlen.
    destruct d as [|y d]; simpl in *; [lia|].
    rewrite drop_0. apply last_snoc.
  - apply last_snoc.
Qed.

Lemma length_deque_append_le {A} m (d : list A) x :
  (length d ≤ m)%nat → (length (deque_append m d x) ≤ m)%nat.
Proof.
  intros Hd. unfold deque_append. case_decide as Hlen.
  - rewrite length_drop, length_app. simpl. lia.
  - lia.
Qed.

(** C7: with the filter of a channel switched off, an update of that
    channel returns the reading itself as the filtered voltage, and the
    reading is appended to the bounded history of the channel all the same
    (it is its newest element, and the history keeps to its bound of 50).
    The frame is one that [apply_filters] gets through, and the entry of
    the channel converts to the voltage [v] and the count [r]. *)
Theorem filter_disabled_passthrough data chs i entry v r en st :
  channels data = Some chs →
  frame_readable chs = true →
  chs !! str i = Some entry →
  read_channel entry = Ok (v, r) →
  filter_enabled (ui en) i = false →
  ∃ st' out,
    apply_filters data en st = (st', Ok out) ∧
    out !! str i = Some (ChanOut r v v) ∧
    filter_buffers st' i = deque_append 50 (filter_buffers st i) v ∧
    last (filter_buffers st' i) = Some v ∧
    ((length (filter_buffers st i) ≤ 50)%nat →
     (length (filter_buffers st' i) ≤ 50)%nat).
Proof.
  intros Hchs Hr Hentry Hread Hoff.
  destruct (apply_filters_spec data chs en st Hchs Hr) as (st' & out & E & _ & C).
  exists st', out. split; [done|].
  specialize (C i). unfold filter_channel in C.
  rewrite Hentry, Hread, Hoff in C. simpl in C.
  injection C as Hbuf Hout. rewrite Hbuf, Hout.
  split; [done|]. split; [done|].
  split; [apply last_deque_append; lia|].
  apply length_deque_append_le.
Qed.

Lemma frame_readable_but_one chs i entry e :
  chs !! str i = Some entry →
  read_channel entry = Raise e →
  caught_by_filter e = true →
  frame_readable (delete (str i) chs) = true →
  frame_readable chs = true.
Proof.
  intros Hentry Hread Hcaught Hr. unfold frame_readable in *.
  rewrite forallb_forall in *. intros j Hj. specialize (Hr j Hj).
  destruct (decide (j = i)) as [->|Hne].
  - rewrite Hentry. simpl. unfold readable. by rewrite Hread.
  - rewrite lookup_delete_ne in Hr; [done|]. intros ?%str_inj. done.
Qed.

(** C10, amended.  When the entry of a channel is in the frame and its
    reading does not convert, what happens depends on the class of the
    exception, the other entries of the frame being readable.

    When the class is one that the [except] names (ValueError, TypeError,
    KeyError: a value that is no number, a missing member), the channel is
    left out of the returned dict and its history is not touched, and the
    other channels are processed: every other channel whose reading
    converts has its voltage appended to its history and gets its entry in
    the dict, with the mean over its window or the voltage itself as the
    filtered voltage; state and dict are the ones [apply_filters] gives on
    the frame without the entry.

    When the class is another one (OverflowError: an infinite count, an
    int beyond the doubles as voltage), the channel is not skipped:
    [apply_filters] raises, no dict is returned, and the channels after it
    in the order of the loop are not processed, the channels before it
    having been. *)
Theorem unreadable_channel_skipped :
  (∀ data chs i entry e en st,
     channels data = Some chs →
     chs !! str i = Some entry →
     read_channel entry = Raise e →
     caught_by_filter e = true →
     frame_readable (delete (str i) chs) = true →
     ∃ st' out,
       apply_filters data en st = (st', Ok out) ∧
       out !! str i = None ∧
       filter_buffers st' i = filter_buffers st i ∧
       apply_filters (Frame (timestamp data) (Some (delete (str i) chs))) en st =
         (st', Ok out) ∧
       (∀ j entry' v r,
          chs !! str j = Some entry' →
          read_channel entry' = Ok (v, r) →
          let buf' := deque_append 50 (filter_buffers st j) v in
          filter_buffers st' j = buf' ∧
          out !! str j =
            Some (ChanOut r v
                    (if filter_enabled (ui en) j
                     then mean (py_last (filter_window (ui en) j `min` length buf')
                                  buf')
                     else v))) ∧
       (∀ j, chs !! str j = None →
             filter_buffers st' j = filter_buffers st j ∧ out !! str j = None)) ∧
  (∀ data chs i entry e en st pre post,
     channels data = Some chs →
     chs !! str i = Some entry →
     read_channel entry = Raise e →
     caught_by_filter e = false →
     frame_readable (delete (str i) chs) = true →
     range4 = pre ++ i :: post →
     ∃ st',
       apply_filters data en st = (st', Raise e) ∧
       (∀ j, j = i ∨ j ∈ post → filter_buffers st' j = filter_buffers st j) ∧
       (∀ j entry' v r,
          j ∈ pre →
          chs !! str j = Some entry' →
          read_channel entry' = Ok (v, r) →
          filter_buffers st' j = deque_append 50 (filter_buffers st j) v)).
Proof.
  split.
  - intros data chs i entry e en st Hchs Hentry Hread Hcaught Hrest.
    pose proof (frame_readable_but_one chs i entry e Hentry Hread Hcaught Hrest)
      as Hr.
    destruct (apply_filters_spec data chs en st Hchs Hr)
      as (st' & out & E & _ & C).
    exists st', out. split; [done|].
    pose proof (C i) as Ci. unfold filter_channel in Ci.
    rewrite Hentry, Hread in Ci. injection Ci as Hbuf Hout.
    split; [done|]. split; [done|]. split.
    { rewrite <- E, (apply_filters_unfold _ _ _ _ Hchs).
      rewrite (apply_filters_unfold (Frame _ _) (delete (str i) chs)) by done.
      apply for_each_ext. intros.
      by eapply apply_filters_body_delete. }
    split.
    + intros j entry' v r Hj Hreadj buf'.
      pose proof (C j) as Cj. unfold filter_channel in Cj.
      rewrite Hj, Hreadj in Cj. by injection Cj as -> ->.
    + intros j Hj. pose proof (C j) as Cj. unfold filter_channel in Cj.
      rewrite Hj in Cj. by injection Cj as -> ->.
  - intros data chs i entry e en st pre post Hchs Hentry Hread Hcaught Hrest
      Hsplit.
    pose proof NoDup_range4 as Hnd. rewrite Hsplit in Hnd.
    apply NoDup_app in Hnd as (Hpre & Hdisj & Hpost).
    assert (∀ j, j ∈ pre → j ≠ i) as Hne.
    { intros j Hj ->. apply (Hdisj i Hj). left. }
    destruct (apply_filters_loop_spec pre chs ∅ en st Hpre)
      as (st' & acc & E & _ & B & _).
    { intros j Hj. unfold frame_readable in Hrest.
      rewrite forallb_forall in Hrest.
      specialize (Hrest j (proj1 (list_elem_of_In _ _) (elem_of_range4 j))).
      rewrite lookup_delete_ne in Hrest; [done|].
      intros ?%str_inj. by apply (Hne j). }
    exists st'. split.
    { rewrite (apply_filters_unfold _ _ _ _ Hchs), Hsplit, for_each_app, E.
      simpl. unfold mbind, M_bind at 1. unfold apply_filters_body.
      by rewrite Hentry, Hread, Hcaught. }
    split.
    + intros j Hj. rewrite B. rewrite decide_False; [done|].
      intros Hin. destruct Hj as [->|Hj].
      * by apply (Hne i).
      * apply (Hdisj j Hin). by right.
    + intros j entry' v r Hj Hlook Hreadj.
      rewrite B, decide_True by done. unfold filter_channel.
      by rewrite Hlook, Hreadj.
Qed.

Lemma reading_step i v en st :
  ∃ st' out,
    apply_filters (reading i v) en st = (st', Ok out) ∧
    (filter_buffers st' i, out !! str i) =
    filter_channel (ui en) i (filter_buffers st i)
      (Some (PDict (<["raw" := PInt 0]> (<["voltage" := PFloat v]> ∅)))).
Proof.
  destruct (apply_filters_spec (reading i v) _ en st eq_refl)
    as (st' & out & E & _ & C).
  { destruct i; vm_compute; reflexivity. }
  exists st', out. split; [done|].
  rewrite C. by rewrite lookup_singleton_eq.
Qed.

Lemma filter_run_reading vs i en st :
  filter_run i (reading i <$> vs) en st =
  window_outputs (ui en) i (filter_buffers st i) vs.
Proof.
  revert st. induction vs as [|v vs IH]; intros st; simpl; [done|].
  destruct (reading_step i v en st) as (st' & out & E & C).
  rewrite E. unfold filter_channel in C.
  change (read_channel (PDict _)) with (Ok (A := float * Z) (v, 0)) in C.
  injection C as Hbuf Hout. rewrite Hout, IH, Hbuf. done.
Qed.

End Filter.

Lemma deque_append_suffix {A} m (s d : list A) x :
  s `suffix_of` d → (length s < m)%nat →
  (s ++ [x]) `suffix_of` deque_append m d x.
Proof.
  intros [k ->] Hs. unfold deque_append. case_decide as Hlen.
  - destruct k as [|y k].
    + rewrite length_app in Hlen. simpl in Hlen. lia.
    + exists k. simpl. by rewrite drop_0, <- app_assoc.
  - exists k. by rewrite <- app_assoc.
Qed.

Lemma py_last_suffix {A} n (s l : list A) :
  s `suffix_of` l → (0 < n ≤ length s)%nat →
  py_last (n `min` length l) l = drop (length s - n) s.
Proof.
  intros [k ->] Hn. rewrite length_app.
  replace (n `min` (length k + length s))%nat with n by lia.
  unfold py_last. destruct n as [|n]; [lia|].
  rewrite length_app.
  replace (length k + length s - S n)%nat
    with (length k + (length s - S n))%nat by lia.
  by rewrite drop_app_add.
Qed.

(** With a window of 5, the sixth of the readings 1..6 is filtered to the
    mean of 2..6, whatever the history was before them. *)
Lemma window_outputs_six c i buf :
  filter_enabled c i = true →
  filter_window c i = 5%nat →
  window_outputs c i buf [1; 2; 3; 4; 5; 6]%float !! 5%nat = Some (Some 4%float).
Proof.
  intros Hen Hw. simpl. rewrite Hen, Hw. do 2 f_equal.
  set (b := deque_append 50 _ 6%float).
  assert ([1; 2; 3; 4; 5; 6]%float `suffix_of` b) as Hsuf.
  { unfold b.
    apply (deque_append_suffix 50 [1; 2; 3; 4; 5]%float); [|simpl; lia].
    apply (deque_append_suffix 50 [1; 2; 3; 4]%float); [|simpl; lia].
    apply (deque_append_suffix 50 [1; 2; 3]%float); [|simpl; lia].
    apply (deque_append_suffix 50 [1; 2]%float); [|simpl; lia].
    apply (deque_append_suffix 50 [1]%float); [|simpl; lia].
    apply (deque_append_suffix 50 []); [|simpl; lia].
    apply suffix_nil. }
  rewrite (py_last_suffix 5 _ _ Hsuf) by (simpl; lia).
  vm_compute. reflexivity.
Qed.

(** C6: an update of a channel whose filter is on returns the mean of the
    last [min(window, length of the history)] voltages of the history, the
    new reading included, so that it answers before the window is full; and
    with a window of 5 the sixth of the readings 1, 2, 3, 4, 5, 6 is
    filtered to 4.0, the mean of 2..6. *)
Theorem filter_window_mean float_of_str int_of_str :
  (∀ data chs i entry v r en st,
     channels data = Some chs →
     frame_readable float_of_str int_of_str chs = true →
     chs !! str i = Some entry →
     read_channel float_of_str int_of_str entry = Ok (v, r) →
     filter_enabled (ui en) i = true →
     (0 < filter_window (ui en) i)%nat →
     ∃ st' out fv,
       apply_filters float_of_str int_of_str data en st = (st', Ok out) ∧
       out !! str i = Some (ChanOut r v fv) ∧
       filter_buffers st' i = deque_append 50 (filter_buffers st i) v ∧
       fv = mean (last_n (filter_window (ui en) i `min` length (filter_buffers st' i))
                         (filter_buffers st' i))) ∧
  (∀ i en st,
     filter_enabled (ui en) i = true →
     filter_window (ui en) i = 5%nat →
     filter_run float_of_str int_of_str i
       (reading i <$> [1; 2; 3; 4; 5; 6]%float) en st !! 5%nat
     = Some (Some 4%float)).
Proof.
  split.
  - intros data chs i entry v r en st Hchs Hr Hentry Hread Hon Hw.
    destruct (apply_filters_spec _ _ data chs en st Hchs Hr)
      as (st' & out & E & _ & C).
    specialize (C i). unfold filter_channel in C.
    rewrite Hentry, Hread, Hon in C. simpl in C.
    injection C as Hbuf Hout.
    eexists st', out, _. split; [done|]. split; [exact Hout|].
    split; [done|]. rewrite Hbuf. by rewrite py_last_min.
  - intros i en st Hon Hw.
    rewrite filter_run_reading. by apply window_outputs_six.
Qed.

(** ** The threshold alerts *)

Lemma same_but_thresholds_refl st : same_but_thresholds st st.
Proof. by repeat split. Qed.

Lemma same_but_thresholds_trans st1 st2 st3 :
  same_but_thresholds st1 st2 → same_but_thresholds st2 st3 →
  same_but_thresholds st1 st3.
Proof.
  unfold same_but_thresholds. intros (?&?&?&?) (?&?&?&?).
  repeat split; congruence.
Qed.

Lemma check_thresholds_body_spec data j en st :
  no_faults en →
  ∃ st',
    check_thresholds_body data j tt en st = (st', Ok tt) ∧
    same_but_thresholds st st' ∧
    (∀ i, threshold_states st' i =
          if decide (i = j)
          then (threshold_channel (ui en) j (threshold_states st j) (data !! str j)).1
          else threshold_states st i) ∧
    delivered st' =
      delivered st ++
      (threshold_channel (ui en) j (threshold_states st j) (data !! str j)).2.
Proof.
  intros Hnf. unfold check_thresholds_body, threshold_channel.
  assert (∀ st, ∃ st', (st, Ok tt) = (st', Ok tt) ∧ same_but_thresholds st st' ∧
            (∀ i, threshold_states st' i =
                  if decide (i = j) then threshold_states st j
                  else threshold_states st i) ∧
            delivered st' = delivered st ++ []) as Hskip.
  { intros s. exists s. split; [done|]. split; [apply same_but_thresholds_refl|].
    split; [|by rewrite app_nil_r]. intros i. by case_decide; subst. }
  unfold_monad.
  destruct (data !! str j) as [ch|]; [|apply Hskip].
  destruct (thresh_enabled (ui en) j); simpl; [|apply Hskip].
  set (v := if filter_enabled (ui en) j then _ else _).
  set (cur := classify v _ _).
  destruct (decide (Some cur = threshold_states st j)) as [Heq|Hne].
  { rewrite bool_decide_eq_false_2 by (intros ?; done). apply Hskip. }
  rewrite bool_decide_eq_true_2 by done.
  assert (∀ l, ∃ st',
            (set_threshold_states (<[j:=Some cur]> (threshold_states st))
               (set_delivered (delivered st ++ l) st), Ok tt) = (st', Ok tt) ∧
            same_but_thresholds st st' ∧
            (∀ i, threshold_states st' i =
                  if decide (i = j) then Some cur else threshold_states st i) ∧
            delivered st' = delivered st ++ l) as Hsend.
  { intros l. eexists. split; [done|]. split; [by repeat split|].
    split; [|done]. intros i. simpl. case_decide; subst.
    - by rewrite fn_lookup_insert.
    - by rewrite fn_lookup_insert_ne. }
  destruct cur; rewrite ?Hnf; simpl.
  - apply Hsend.
  - apply Hsend.
  - destruct (threshold_states st j) as [s|] eqn:Hs.
    + rewrite bool_decide_eq_true_2 by done. rewrite Hnf. simpl. apply Hsend.
    + rewrite bool_decide_eq_false_2 by (intros ?; done). simpl.
      destruct (Hsend []) as (st' & E & S & T & D).
      exists st'. split; [|done]. rewrite <- E. unfold set_delivered.
      rewrite app_nil_r. by destruct st.
Qed.

Lemma check_thresholds_loop_spec l data en st :
  no_faults en →
  NoDup l →
  ∃ st',
    for_each l (check_thresholds_body data) tt en st = (st', Ok tt) ∧
    same_but_thresholds st st' ∧
    (∀ i, threshold_states st' i =
          if decide (i ∈ l)
          then (threshold_channel (ui en) i (threshold_states st i) (data !! str i)).1
          else threshold_states st i) ∧
    delivered st' =
      delivered st ++
      mjoin ((λ j, (threshold_channel (ui en) j (threshold_states st j)
                      (data !! str j)).2) <$> l).
Proof.
  intros Hnf Hnd. revert st.
  induction Hnd as [|j l Hj Hnd IH]; intros st.
  - exists st. split; [done|]. split; [apply same_but_thresholds_refl|].
    split; [done|]. simpl. by rewrite app_nil_r.
  - destruct (check_thresholds_body_spec data j en st Hnf) as (st1 & E1 & S1 & T1 & D1).
    destruct (IH st1) as (st' & E & S & T & D).
    exists st'. split.
    { simpl. unfold mbind, M_bind at 1. rewrite E1. exact E. }
    split; [by eapply same_but_thresholds_trans|].
    split.
    + intros i. rewrite T. destruct (decide (i = j)) as [->|Hne].
      * rewrite (decide_False (P := j ∈ l)) by done.
        rewrite (decide_True (P := j ∈ j :: l)) by left.
        rewrite T1. by rewrite decide_True.
      * rewrite T1. rewrite (decide_False (P := i = j)) by done.
        destruct (decide (i ∈ l)) as [Hi|Hi].
        -- by rewrite decide_True by (by right).
        -- rewrite decide_False; [done|]. rewrite elem_of_cons. tauto.
    + rewrite D, D1. rewrite fmap_cons. simpl. rewrite <- app_assoc.
      do 3 f_equal. apply Forall_fmap_ext, Forall_forall.
      intros k Hk. rewrite T1. rewrite decide_False; [done|].
      intros ->. done.
Qed.

Lemma alerts_app i l1 l2 : alerts i (l1 ++ l2) = alerts i l1 ++ alerts i l2.
Proof. apply filter_app. Qed.

Lemma alerts_threshold_channel_eq c i stored entry :
  alerts i (threshold_channel c i stored entry).2 =
  (threshold_channel c i stored entry).2.
Proof.
  unfold threshold_channel.
  destruct entry as [ch|]; [|done].
  destruct (thresh_enabled c i); [|done].
  case_decide; [done|].
  destruct (classify _ _ _), stored, i; simpl; try done; vm_compute; reflexivity.
Qed.

Lemma alerts_threshold_channel_ne c i j stored entry :
  i ≠ j → alerts i (threshold_channel c j stored entry).2 = [].
Proof.
  intros Hne. unfold threshold_channel.
  destruct entry as [ch|]; [|done].
  destruct (thresh_enabled c j); [|done].
  case_decide; [done|].
  destruct (classify _ _ _), stored, i, j; simpl; try done;
    vm_compute; reflexivity.
Qed.

(** The summary of [check_thresholds] when no send raises: it returns, and
    treats each channel on its own. *)
Lemma check_thresholds_spec data en st :
  no_faults en →
  ∃ st',
    check_thresholds data en st = (st', Ok tt) ∧
    same_but_thresholds st st' ∧
    ∀ i,
      threshold_states st' i =
        (threshold_channel (ui en) i (threshold_states st i) (data !! str i)).1 ∧
      alerts i (delivered st') =
        alerts i (delivered st) ++
        (threshold_channel (ui en) i (threshold_states st i) (data !! str i)).2.
Proof.
  intros Hnf.
  destruct (check_thresholds_loop_spec range4 data en st Hnf NoDup_range4)
    as (st' & E & S & T & D).
  exists st'. split; [exact E|]. split; [done|]. intros i. split.
  - rewrite T. by rewrite decide_True by apply elem_of_range4.
  - rewrite D, alerts_app. f_equal. unfold range4.
    rewrite !fmap_cons, fmap_nil. simpl. rewrite !alerts_app.
    destruct i;
      rewrite ?alerts_threshold_channel_eq;
      rewrite ?alerts_threshold_channel_ne by done;
      simpl; by rewrite ?app_nil_r.
Qed.

Lemma classify_classifies v H L : classifies v H L (classify v H L).
Proof.
  unfold classify.
  destruct (H <? v)%float eqn:E1; [by constructor|].
  destruct (v <? L)%float eqn:E2; by constructor.
Qed.

Lemma threshold_channel_stored c i stored ch :
  thresh_enabled c i = true →
  (threshold_channel c i stored (Some ch)).1 =
  Some (classify (checked_voltage c i ch) (thresh_high c i) (thresh_low c i)).
Proof.
  intros Hen. unfold threshold_channel, checked_voltage. rewrite Hen.
  by case_decide.
Qed.

(** C8: whatever the value and the two setpoints, in whatever order the
    setpoints are, the pass over an enabled channel returns and stores the
    classification High if the value is above the high setpoint, else Low
    if it is below the low setpoint, else Normal; a value that is both
    above the high setpoint and below the low one is High. *)
Theorem threshold_classification data i ch en st :
  no_faults en →
  data !! str i = Some ch →
  thresh_enabled (ui en) i = true →
  ∃ st' lv,
    check_thresholds data en st = (st', Ok tt) ∧
    threshold_states st' i = Some lv ∧
    classifies (checked_voltage (ui en) i ch)
               (thresh_high (ui en) i) (thresh_low (ui en) i) lv ∧
    ((thresh_high (ui en) i <? checked_voltage (ui en) i ch)%float = true →
     (checked_voltage (ui en) i ch <? thresh_low (ui en) i)%float = true →
     lv = high).
Proof.
  intros Hnf Hch Hen.
  destruct (check_thresholds_spec data en st Hnf) as (st' & E & _ & T).
  destruct (T i) as [Ti _]. rewrite Hch, threshold_channel_stored in Ti by done.
  eexists st', _. split; [exact E|]. split; [exact Ti|].
  split; [apply classify_classifies|].
  intros Hhi _. unfold classify. by rewrite Hhi.
Qed.

Lemma no_faults_quiet c : no_faults (quiet c).
Proof. by intros ?. Qed.

Lemma threshold_channel_enabled c i stored ch :
  thresh_enabled c i = true →
  threshold_channel c i stored (Some ch) =
  let v := checked_voltage c i ch in
  let lv := classify v (thresh_high c i) (thresh_low c i) in
  (Some lv, events_of i stored lv v (thresh_high c i) (thresh_low c i)).
Proof.
  intros Hen. unfold threshold_channel, events_of, checked_voltage.
  rewrite Hen. simpl.
  set (lv := classify _ _ _).
  destruct stored as [s|].
  - destruct (decide (Some lv = Some s)) as [Heq|Hne].
    + injection Heq as <-. by rewrite decide_True.
    + rewrite decide_False by congruence. by destruct lv.
  - rewrite decide_False by done. by destruct lv.
Qed.

Lemma check_thresholds_step data i ch en st :
  no_faults en →
  data !! str i = Some ch →
  thresh_enabled (ui en) i = true →
  let v := checked_voltage (ui en) i ch in
  let lv := classify v (thresh_high (ui en) i) (thresh_low (ui en) i) in
  ∃ st',
    check_thresholds data en st = (st', Ok tt) ∧
    threshold_states st' i = Some lv ∧
    alerts i (delivered st') =
      alerts i (delivered st) ++
      events_of i (threshold_states st i) lv v
        (thresh_high (ui en) i) (thresh_low (ui en) i).
Proof.
  intros Hnf Hch Hen.
  destruct (check_thresholds_spec data en st Hnf) as (st' & E & _ & T).
  destruct (T i) as [Ti Ai].
  rewrite Hch, threshold_channel_enabled in Ti, Ai by done.
  by exists st'.
Qed.

(** C1 fails as stated: from the unset state, a first reading above the high
    setpoint (2.0 against 1.0) sends the High alert. *)
Lemma first_classification_high_alerts :
  threshold_states init_state Ch0 = None ∧
  alerts Ch0 (delivered
    (check_thresholds {[ "0" := ChanOut 0 2 2 ]} (quiet default_alerting)
       init_state).1)
  = [Send_message "/adc/alert/ch0/high" (PList [PFloat 2; PFloat 1])].
Proof. split; [reflexivity|]. vm_compute. reflexivity. Qed.

(** C1, amended: a pass over an enabled channel stores the classification
    and sends, from the unset state, no alert when the classification is
    Normal and one alert when it is High or Low; from a stored
    classification, one alert when the classification has changed and none
    when it has not.  Hence a run of passes that all classify as stored
    sends no alert at all. *)
Theorem threshold_events data i ch en st :
  no_faults en →
  data !! str i = Some ch →
  thresh_enabled (ui en) i = true →
  let v := checked_voltage (ui en) i ch in
  let lv := classify v (thresh_high (ui en) i) (thresh_low (ui en) i) in
  (∃ st' events,
     check_thresholds data en st = (st', Ok tt) ∧
     threshold_states st' i = Some lv ∧
     alerts i (delivered st') = alerts i (delivered st) ++ events ∧
     length events =
       match threshold_states st i with
       | None => if decide (lv = normal) then 0%nat else 1%nat
       | Some s => if decide (s = lv) then 0%nat else 1%nat
       end) ∧
  (∀ s datas,
     threshold_states st i = Some s →
     Forall (λ d, ∃ ch', d !! str i = Some ch' ∧
                   classify (checked_voltage (ui en) i ch')
                     (thresh_high (ui en) i) (thresh_low (ui en) i) = s) datas →
     threshold_states (threshold_run datas en st) i = Some s ∧
     alerts i (delivered (threshold_run datas en st)) = alerts i (delivered st)).
Proof.
  intros Hnf Hch Hen v lv. split.
  - destruct (check_thresholds_step data i ch en st Hnf Hch Hen)
      as (st' & E & T & A).
    eexists st', _. split; [exact E|]. split; [exact T|]. split; [exact A|].
    unfold events_of. fold v lv.
    destruct (threshold_states st i); by case_decide.
  - intros s datas. revert st. clear Hch.
    induction datas as [|d datas IH]; intros st Hst Hall; [done|].
    apply Forall_cons in Hall as [(ch' & Hch' & Hlv) Hall]. simpl.
    destruct (check_thresholds_step d i ch' en st Hnf Hch' Hen)
      as (st' & E & T & A).
    rewrite E. simpl. rewrite Hlv in T, A. rewrite Hst in A.
    unfold events_of in A. rewrite decide_True, app_nil_r in A by done.
    destruct (IH st' T Hall) as [T' A']. split; [done|]. by rewrite A'.
Qed.

(** C3 fails as stated: with the setpoints 1.0 and 0.1, the readings 0.05,
    0.5 and 0.95 from the unset state send two alerts, Low at 0.05 and
    Normal at 0.5, not one. *)
Lemma hysteresis_sequence_two_alerts :
  alerts Ch0 (delivered
    (threshold_run [ {[ "0" := ChanOut 0 0.05 0.05 ]};
                     {[ "0" := ChanOut 0 0.5 0.5 ]};
                     {[ "0" := ChanOut 0 0.95 0.95 ]} ]
       (quiet default_alerting) init_state))
  = [Send_message "/adc/alert/ch0/low" (PList [PFloat 0.05; PFloat 0.1]);
     Send_message "/adc/alert/ch0/normal" (PFloat 0.5)].
Proof. vm_compute. reflexivity. Qed.

(** C3, amended: on an enabled channel with the setpoints 1.0 and 0.1, the
    readings 0.05, 0.5 and 0.95 from the unset state send exactly two
    alerts: Low at 0.05 (the first classification is not suppressed),
    Normal at 0.5, and nothing at 0.95. *)
Theorem hysteresis_sequence d1 d2 d3 c1 c2 c3 i en st :
  no_faults en →
  thresh_enabled (ui en) i = true →
  thresh_high (ui en) i = 1%float →
  thresh_low (ui en) i = 0.1%float →
  threshold_states st i = None →
  d1 !! str i = Some c1 → checked_voltage (ui en) i c1 = 0.05%float →
  d2 !! str i = Some c2 → checked_voltage (ui en) i c2 = 0.5%float →
  d3 !! str i = Some c3 → checked_voltage (ui en) i c3 = 0.95%float →
  ∃ st1 st2 st3,
    check_thresholds d1 en st = (st1, Ok tt) ∧
    check_thresholds d2 en st1 = (st2, Ok tt) ∧
    check_thresholds d3 en st2 = (st3, Ok tt) ∧
    alerts i (delivered st1) =
      alerts i (delivered st) ++
      [Send_message (alert_addr i "low") (PList [PFloat 0.05; PFloat 0.1])] ∧
    alerts i (delivered st2) =
      alerts i (delivered st1) ++
      [Send_message (alert_addr i "normal") (PFloat 0.5)] ∧
    alerts i (delivered st3) = alerts i (delivered st2) ∧
    threshold_states st3 i = Some normal.
Proof.
  intros Hnf Hen HH HL Hst H1 V1 H2 V2 H3 V3.
  destruct (check_thresholds_step d1 i c1 en st Hnf H1 Hen) as (st1 & E1 & T1 & A1).
  destruct (check_thresholds_step d2 i c2 en st1 Hnf H2 Hen) as (st2 & E2 & T2 & A2).
  destruct (check_thresholds_step d3 i c3 en st2 Hnf H3 Hen) as (st3 & E3 & T3 & A3).
  rewrite HH, HL in *. rewrite V1 in T1, A1. rewrite V2 in T2, A2.
  rewrite V3 in T3, A3.
  change (classify 0.05 1 0.1) with low in *.
  change (classify 0.5 1 0.1) with normal in *.
  change (classify 0.95 1 0.1) with normal in *.
  rewrite Hst in A1. rewrite T1 in A2. rewrite T2 in A3.
  simpl in A1, A2, A3. rewrite app_nil_r in A3.
  by exists st1, st2, st3.
Qed.

(** ** The dispatcher *)

#[global] Instance telemetry_only_refl : Reflexive telemetry_only.
Proof.
  intros st. repeat split. exists []. by rewrite app_nil_r.
Qed.

#[global] Instance telemetry_only_trans : Transitive telemetry_only.
Proof.
  intros st1 st2 st3 (?&?&?&?&l1&D1&F1) (?&?&?&?&l2&D2&F2).
  repeat split; try congruence.
  exists (l1 ++ l2). split.
  - by rewrite D2, D1, app_assoc.
  - by apply Forall_app.
Qed.

Lemma for_each_preserves {A B} (R : relation state)
    `{!Reflexive R, !Transitive R} (l : list A) (body : A → B → M B) en :
  (∀ i acc st, R st (body i acc en st).1) →
  ∀ acc st, R st (for_each l body acc en st).1.
Proof.
  intros Hbody. induction l as [|i l IH]; intros acc st; simpl.
  - reflexivity.
  - unfold mbind, M_bind. pose proof (Hbody i acc st) as Hi.
    destruct (body i acc en st) as [st1 [acc1|e]]; simpl in *.
    + etrans; [exact Hi|]. apply IH.
    + done.
Qed.

Lemma for_each_ok {A} (l : list A) (body : A → unit → M unit) en :
  (∀ i st, ∃ st', body i tt en st = (st', Ok tt)) →
  ∀ st, ∃ st', for_each l body tt en st = (st', Ok tt).
Proof.
  intros Hbody. induction l as [|i l IH]; intros st; simpl.
  - by exists st.
  - unfold mbind, M_bind. destruct (Hbody i st) as [st1 ->]. apply IH.
Qed.

Lemma do_call_send_telemetry addr arg en st :
  telemetry_only st (do_call (Send_message addr arg) en st).1.
Proof.
  unfold do_call. destruct (faults en _); simpl; [reflexivity|].
  repeat split. eexists [_]. split; [done|]. by repeat constructor.
Qed.

Lemma osc_body_telemetry uf od i acc en st :
  telemetry_only st (osc_body uf od i acc en st).1.
Proof.
  unfold osc_body. destruct (od !! str i) as [e|]; [|reflexivity].
  unfold_monad.
  destruct (py_getitem e "raw") as [r|]; simpl; [|reflexivity].
  pose proof (do_call_send_telemetry (data_addr i "raw") r en st) as H1.
  unfold do_call in H1.
  destruct (faults en (Send_message (data_addr i "raw") r)); simpl in *;
    [reflexivity|].
  destruct (py_getitem e _) as [v|]; simpl; [|exact H1].
  etrans; [exact H1|].
  match goal with |- telemetry_only ?s _ =>
    pose proof (do_call_send_telemetry (data_addr i "voltage") v en s) as H2 end.
  unfold do_call in H2.
  by destruct (faults en (Send_message (data_addr i "voltage") v)).
Qed.

Lemma check_thresholds_body_telemetry data i acc en st :
  telemetry_only st (check_thresholds_body data i acc en st).1.
Proof.
  unfold check_thresholds_body. unfold_monad.
  destruct (data !! str i) as [ch|]; [|reflexivity].
  destruct (thresh_enabled (ui en) i); simpl; [|reflexivity].
  set (v := if filter_enabled (ui en) i then _ else _).
  case_bool_decide; [|reflexivity].
  assert (∀ addr arg, telemetry_only st
    (let (st', r) :=
       match faults en (Send_message addr arg) with
       | Some e => (st, Raise e)
       | None => (set_delivered (delivered st ++ [Send_message addr arg]) st, Ok tt)
       end in
     match r with
     | Ok _ =>
         (set_threshold_states
            (<[i:=Some (classify v (thresh_high (ui en) i) (thresh_low (ui en) i))]>
               (threshold_states st')) st', Ok tt)
     | Raise e => (st', Raise e)
     end).1) as Hsend.
  { intros addr arg. destruct (faults en _); simpl; [reflexivity|].
    repeat split. eexists [_]. split; [done|]. by repeat constructor. }
  destruct (classify _ _ _); try apply Hsend.
  case_bool_decide; cbv beta; [apply Hsend|]. simpl.
  repeat split. exists []. by rewrite app_nil_r.
Qed.

Lemma send_osc_telemetry uf od fd en st :
  telemetry_only st (send_osc uf od fd en st).1.
Proof.
  unfold send_osc. unfold mbind, M_bind.
  pose proof (for_each_preserves telemetry_only range4 (osc_body uf od) en
                (λ i acc s, osc_body_telemetry uf od i acc en s) tt st) as H1.
  destruct (for_each range4 (osc_body uf od) tt en st) as [st1 [[]|e]];
    simpl in *; [|done].
  etrans; [exact H1|].
  apply (for_each_preserves telemetry_only range4 (check_thresholds_body fd) en
           (λ i acc s, check_thresholds_body_telemetry fd i acc en s)).
Qed.

Lemma no_faults_non_telemetry_ok en : no_faults en → non_telemetry_ok en.
Proof. intros Hnf c _. apply Hnf. Qed.

Lemma out_ok_filtered fd : out_ok true (dict_of_out <$> fd).
Proof.
  intros i e. rewrite lookup_fmap.
  destruct (fd !! str i) as [o|]; simpl; [|done].
  intros [= <-]. by eexists _, _.
Qed.

Lemma out_ok_raw chs : frame_subscriptable chs = true → out_ok false chs.
Proof.
  intros Hs i e Hi. unfold frame_subscriptable in Hs.
  rewrite forallb_forall in Hs.
  specialize (Hs i (proj1 (list_elem_of_In _ _) (elem_of_range4 i))).
  rewrite Hi in Hs. simpl in Hs. unfold subscriptable in Hs.
  destruct (py_getitem e "raw") as [r|]; [|done].
  destruct (py_getitem e "voltage") as [v|]; [|done].
  by exists r, v.
Qed.

Lemma row_loop_pure uf od l row en st :
  (for_each l (row_body uf od) row en st).1 = st.
Proof.
  revert row. induction l as [|i l IH]; intros row; simpl; [done|].
  unfold mbind, M_bind at 1. unfold row_body at 1.
  destruct (od !! str i) as [e|]; unfold_monad.
  - destruct (py_getitem e "raw"); simpl; [|done].
    destruct (py_getitem e _); simpl; [|done]. apply IH.
  - apply IH.
Qed.

Lemma row_loop_ok uf od l row en st :
  out_ok uf od →
  ∃ row', for_each l (row_body uf od) row en st = (st, Ok row').
Proof.
  intros Hok. revert row. induction l as [|i l IH]; intros row; simpl.
  - by exists row.
  - unfold mbind, M_bind at 1. unfold row_body at 1.
    destruct (od !! str i) as [e|] eqn:Hi; unfold_monad.
    + destruct (Hok i e Hi) as (r & v & -> & ->). simpl. apply IH.
    + apply IH.
Qed.

Lemma log_to_csv_spec data uf od en st :
  non_telemetry_ok en →
  out_ok uf od →
  ∃ st' row admin,
    log_to_csv data uf od en st = (st', Ok tt) ∧
    csv_row_count st' = csv_row_count st + 1 ∧
    delivered st' = delivered st ++ Writerow row :: admin ∧
    Forall (λ c, is_send c = false ∧ is_row c = false) admin ∧
    filter_buffers st' = filter_buffers st ∧
    threshold_states st' = threshold_states st ∧
    sample_count st' = sample_count st ∧
    error_count st' = error_count st.
Proof.
  intros Hnt Hok. unfold log_to_csv.
  unfold mbind, M_bind at 1. unfold ask at 1.
  unfold mbind, M_bind at 1.
  destruct (row_loop_ok uf od range4
              [PStr (now_iso en); default (PInt 0) (timestamp data)] en st Hok)
    as [row ->].
  unfold_monad. rewrite (Hnt (Writerow row)) by done. simpl.
  case_bool_decide; cbv beta;
    rewrite ?(Hnt (Set_row_label _)) by done; simpl;
    (case_bool_decide; cbv beta; rewrite ?(Hnt Flush) by done; simpl);
    eexists _, row, _; (split; [reflexivity|]); simpl;
    rewrite <- ?app_assoc; simpl;
    (split; [done|]); (split; [reflexivity|]);
    (split; [by repeat constructor|]); done.
Qed.

Lemma log_to_csv_write_fails data uf od en st e :
  (∀ row, faults en (Writerow row) = Some e) →
  ∃ e', log_to_csv data uf od en st = (st, Raise e').
Proof.
  intros Hfail. unfold log_to_csv.
  unfold mbind, M_bind at 1. unfold ask at 1.
  unfold mbind, M_bind at 1.
  pose proof (row_loop_pure uf od range4
                [PStr (now_iso en); default (PInt 0) (timestamp data)] en st) as Hp.
  destruct (for_each range4 _ _ en st) as [st1 [row|e1]]; simpl in Hp; subst st1.
  - unfold_monad. rewrite Hfail. by exists e.
  - by exists e1.
Qed.

Lemma osc_body_thresholds uf od i acc en st :
  threshold_states (osc_body uf od i acc en st).1 = threshold_states st.
Proof.
  unfold osc_body. destruct (od !! str i) as [e|]; [|done].
  unfold_monad.
  destruct (py_getitem e "raw") as [r|]; simpl; [|done].
  destruct (faults en _); simpl; [done|].
  destruct (py_getitem e _) as [v|]; simpl; [|done].
  by destruct (faults en _).
Qed.

Lemma osc_body_ok uf od i en st :
  no_faults en → out_ok uf od →
  ∃ st', osc_body uf od i tt en st = (st', Ok tt).
Proof.
  intros Hnf Hok. unfold osc_body.
  destruct (od !! str i) as [e|] eqn:Hi; [|by eexists].
  destruct (Hok i e Hi) as (r & v & Hr & Hv).
  unfold_monad. rewrite Hr. simpl. rewrite Hnf. rewrite Hv. simpl.
  rewrite Hnf. by eexists.
Qed.

#[global] Instance same_thresholds_refl :
  Reflexive (λ st st' : state, threshold_states st' = threshold_states st).
Proof. by intros ?. Qed.

#[global] Instance same_thresholds_trans :
  Transitive (λ st st' : state, threshold_states st' = threshold_states st).
Proof. intros ??? H1 H2. by rewrite H2. Qed.

(** The summary of the telemetry block when no send raises. *)
Lemma send_osc_spec uf od fd en st :
  no_faults en → out_ok uf od →
  ∃ st1 st',
    send_osc uf od fd en st = (st', Ok tt) ∧
    telemetry_only st st1 ∧
    threshold_states st1 = threshold_states st ∧
    check_thresholds fd en st1 = (st', Ok tt).
Proof.
  intros Hnf Hok.
  destruct (for_each_ok range4 (osc_body uf od) en
              (λ i s, osc_body_ok uf od i en s Hnf Hok) st) as [st1 E1].
  destruct (check_thresholds_spec fd en st1 Hnf) as (st' & E & _).
  exists st1, st'. split.
  { unfold send_osc. unfold mbind, M_bind. by rewrite E1. }
  split.
  { pose proof (for_each_preserves telemetry_only range4 (osc_body uf od) en
                  (λ i acc s, osc_body_telemetry uf od i acc en s) tt st) as H1.
    by rewrite E1 in H1. }
  split; [|done].
  pose proof (for_each_preserves
                (λ st st' : state, threshold_states st' = threshold_states st)
                range4 (osc_body uf od) en
                (λ i acc s, osc_body_thresholds uf od i acc en s) tt st) as H1.
  by rewrite E1 in H1.
Qed.

Section Dispatch.

Variable float_of_str : string → option float.
Variable int_of_str : string → option Z.

Abbreviation read_channel := (read_channel float_of_str int_of_str).
Abbreviation apply_filters := (apply_filters float_of_str int_of_str).
Abbreviation process_data := (process_data float_of_str int_of_str).
Abbreviation frame_readable := (frame_readable float_of_str int_of_str).
Abbreviation filter_channel := (filter_channel float_of_str int_of_str).
Abbreviation dispatch_all := (dispatch_all float_of_str int_of_str).
Abbreviation loggable := (loggable float_of_str int_of_str).

(** [process_data] once [apply_filters] has returned. *)
Lemma process_data_unfold data chs en st st1 out :
  channels data = Some chs →
  apply_filters data en st = (st1, Ok out) →
  process_data data en st =
  match faults en (Emit_new_data data) with
  | Some e => (st1, Raise e)
  | None =>
      let st2 := set_delivered (delivered st1 ++ [Emit_new_data data]) st1 in
      let uf := filtered_radio (ui en) in
      let od := if uf then dict_of_out <$> out else chs in
      match (if logging_active (ui en) && csv_writer (ui en)
             then log_to_csv data uf od else mret tt) en st2 with
      | (st3, Ok _) =>
          match (if streaming_active (ui en)
                 then send_osc uf od out else mret tt) en st3 with
          | (st4, Ok _) => (set_sample_count (sample_count st4 + 1) st4, Ok tt)
          | (st4, Raise e) => (st4, Raise e)
          end
      | (st3, Raise e) => (st3, Raise e)
      end
  end.
Proof.
  intros Hchs E. unfold process_data.
  unfold mbind, M_bind at 1. rewrite E.
  unfold mbind, M_bind at 1. unfold do_call at 1.
  destruct (faults en (Emit_new_data data)); [done|].
  unfold mbind, M_bind at 1. unfold ask at 1.
  unfold mbind, M_bind at 1. rewrite Hchs.
  destruct (filtered_radio (ui en)); reflexivity.
Qed.

Lemma out_ok_output chs out uf :
  frame_subscriptable chs = true →
  out_ok uf (if uf then dict_of_out <$> out else chs).
Proof.
  intros Hs. destruct uf; [apply out_ok_filtered|by apply out_ok_raw].
Qed.

(** The logging step when only telemetry may raise: it returns, and writes
    one row when logging is on and none when it is off. *)
Lemma log_block_spec data uf od en st :
  non_telemetry_ok en →
  out_ok uf od →
  ∃ st' l,
    (if logging_active (ui en) && csv_writer (ui en)
     then log_to_csv data uf od else mret tt) en st = (st', Ok tt) ∧
    filter_buffers st' = filter_buffers st ∧
    threshold_states st' = threshold_states st ∧
    sample_count st' = sample_count st ∧
    error_count st' = error_count st ∧
    delivered st' = delivered st ++ l ∧
    Forall (λ c, is_send c = false) l ∧
    (logging_active (ui en) && csv_writer (ui en) = true →
     csv_row_count st' = csv_row_count st + 1 ∧
     ∃ row admin, l = Writerow row :: admin ∧
                  Forall (λ c, is_send c = false ∧ is_row c = false) admin).
Proof.
  intros Hnt Hok.
  destruct (logging_active (ui en) && csv_writer (ui en)).
  - destruct (log_to_csv_spec data uf od en st Hnt Hok)
      as (st' & row & admin & E & Hc & Hd & Ha & ? & ? & ? & ?).
    exists st', (Writerow row :: admin). repeat (split; [done|]).
    split.
    { constructor; [done|]. eapply Forall_impl; [exact Ha|]. by intros ? []. }
    intros _. split; [done|]. by exists row, admin.
  - exists st, []. unfold_monad. rewrite app_nil_r.
    repeat (split; [done|]). done.
Qed.

(** C2, amended: for every frame that the dispatcher gets through and every
    channel in it whose reading converts, the dispatcher runs the filter on
    the reading (it enters the history) whatever the sinks; the threshold
    pass runs after it on the filtered data only when telemetry is on, and
    then classifies the channel if its threshold is on; with telemetry off
    the stored classifications are left as they were. *)
Theorem dispatch_filters_then_classifies data chs i entry v r en st :
  channels data = Some chs →
  frame_readable chs = true →
  frame_subscriptable chs = true →
  chs !! str i = Some entry →
  read_channel entry = Ok (v, r) →
  no_faults en →
  ∃ st' st1 out ch,
    process_data data en st = (st', Ok tt) ∧
    apply_filters data en st = (st1, Ok out) ∧
    out !! str i = Some ch ∧
    voltage ch = v ∧
    filter_buffers st' i = deque_append 50 (filter_buffers st i) v ∧
    sample_count st' = sample_count st + 1 ∧
    (streaming_active (ui en) = true →
     thresh_enabled (ui en) i = true →
     threshold_states st' i =
       Some (classify (checked_voltage (ui en) i ch)
               (thresh_high (ui en) i) (thresh_low (ui en) i))) ∧
    (streaming_active (ui en) = false →
     threshold_states st' = threshold_states st).
Proof.
  intros Hchs Hr Hs Hentry Hread Hnf.
  destruct (apply_filters_spec _ _ data chs en st Hchs Hr)
    as (st1 & out & E & (ST1 & _ & SC1 & _) & C).
  specialize (C i). unfold filter_channel in C.
  rewrite Hentry, Hread in C. simpl in C. injection C as Hbuf Hout.
  rewrite (process_data_unfold data chs en st st1 out Hchs E), Hnf.
  cbv zeta.
  set (st2 := set_delivered _ st1).
  set (uf := filtered_radio (ui en)).
  set (od := if uf then _ else _).
  assert (out_ok uf od) as Hok by (by apply out_ok_output).
  destruct (log_block_spec data uf od en st2
              (no_faults_non_telemetry_ok en Hnf) Hok)
    as (st3 & l & -> & FB3 & TS3 & SC3 & _).
  destruct (streaming_active (ui en)) eqn:Hstream.
  - destruct (send_osc_spec uf od out en st3 Hnf Hok)
      as (st4 & st5 & -> & (FB4 & _ & SC4 & _) & TS4 & E5).
    destruct (check_thresholds_spec out en st4 Hnf) as (st5' & E5' & S5 & T5).
    rewrite E5 in E5'. injection E5' as <-.
    destruct S5 as (FB5 & _ & SC5 & _).
    eexists _, st1, out, _. split; [reflexivity|]. split; [done|].
    split; [exact Hout|]. split; [done|]. simpl.
    split; [by rewrite FB5, FB4, FB3|].
    split; [by rewrite SC5, SC4, SC3, <- SC1|].
    split; [|done]. intros _ Hen.
    destruct (T5 i) as [-> _]. rewrite Hout.
    by rewrite threshold_channel_stored.
  - unfold_monad.
    eexists _, st1, out, _. split; [reflexivity|]. split; [done|].
    split; [exact Hout|]. split; [done|]. simpl.
    split; [by rewrite FB3|].
    split; [by rewrite SC3, <- SC1|].
    split; [done|]. intros _. by rewrite TS3, <- ST1.
Qed.

Lemma rows_app l1 l2 : rows (l1 ++ l2) = rows l1 ++ rows l2.
Proof. apply filter_app. Qed.

Lemma rows_none l : Forall (λ c, is_row c = false) l → rows l = [].
Proof.
  induction 1 as [|c l Hc _ IH]; [done|].
  unfold rows in *. rewrite filter_cons_False; [exact IH|].
  rewrite Hc. by intros [].
Qed.

Lemma is_send_not_row c : is_send c = true → is_row c = false.
Proof. by destruct c. Qed.

(** One cycle with logging on: whatever telemetry does, the row is written,
    and it is written before any message of the cycle is sent. *)
Lemma process_data_logs data chs en st :
  channels data = Some chs →
  frame_readable chs = true →
  frame_subscriptable chs = true →
  non_telemetry_ok en →
  logging_active (ui en) = true →
  csv_writer (ui en) = true →
  ∃ st' res row admin sends,
    process_data data en st = (st', res) ∧
    delivered st' =
      delivered st ++ Emit_new_data data :: Writerow row :: admin ++ sends ∧
    Forall (λ c, is_send c = false ∧ is_row c = false) admin ∧
    Forall (λ c, is_send c = true) sends ∧
    csv_row_count st' = csv_row_count st + 1.
Proof.
  intros Hchs Hr Hs Hnt Hlog Hcsv.
  destruct (apply_filters_spec _ _ data chs en st Hchs Hr)
    as (st1 & out & E & (_ & RC1 & _ & _ & D1) & _).
  rewrite (process_data_unfold data chs en st st1 out Hchs E).
  rewrite (Hnt (Emit_new_data data)) by done. cbv zeta.
  set (st2 := set_delivered _ st1).
  set (uf := filtered_radio (ui en)).
  set (od := if uf then _ else _).
  assert (out_ok uf od) as Hok by (by apply out_ok_output).
  destruct (log_block_spec data uf od en st2 Hnt Hok)
    as (st3 & l & -> & _ & _ & _ & _ & D3 & _ & Hrow).
  rewrite Hlog, Hcsv in Hrow.
  destruct (Hrow eq_refl) as (RC3 & row & admin & -> & Hadmin).
  assert (∃ st4 res sends,
            (if streaming_active (ui en) then send_osc uf od out else mret tt)
              en st3 = (st4, res) ∧
            delivered st4 = delivered st3 ++ sends ∧
            Forall (λ c, is_send c = true) sends ∧
            csv_row_count st4 = csv_row_count st3) as (st4 & res & sends & -> & D4 & Hsends & RC4).
  { destruct (streaming_active (ui en)).
    - pose proof (send_osc_telemetry uf od out en st3) as (_ & ? & _ & _ & sends & ? & ?).
      destruct (send_osc uf od out en st3) as [st4 res].
      by exists st4, res, sends.
    - exists st3, (Ok tt), []. unfold_monad. by rewrite app_nil_r. }
  assert (delivered st4 =
          delivered st ++ Emit_new_data data :: Writerow row :: admin ++ sends) as D.
  { rewrite D4, D3. unfold st2. simpl. rewrite D1.
    rewrite <- !app_assoc. done. }
  assert (csv_row_count st4 = csv_row_count st + 1) as RC.
  { rewrite RC4, RC3. unfold st2. simpl. by rewrite RC1. }
  destruct res as [[]|e].
  - eexists _, _, row, admin, sends. split; [reflexivity|]. done.
  - eexists _, _, row, admin, sends. split; [reflexivity|]. done.
Qed.

End Dispatch.

(** C2 fails as stated: with telemetry switched off, a frame is dispatched
    (its reading 2.0 enters the history and the sample is counted) but the
    reading is not classified, though the threshold of the channel is on
    and 2.0 is above the high setpoint 1.0. *)
Lemma no_classification_without_telemetry :
  let c := Controls (λ _, false) (λ _, 5%nat) (λ _, true) (λ _, 1%float)
             (λ _, 0.1%float) false false false false in
  let st' := (process_data unparsed_float unparsed_int (reading Ch0 2) (quiet c) init_state).1 in
  (process_data unparsed_float unparsed_int (reading Ch0 2) (quiet c) init_state).2 = Ok tt ∧
  sample_count st' = 1 ∧
  filter_buffers st' Ch0 = [2%float] ∧
  thresh_enabled c Ch0 = true ∧
  classify 2 (thresh_high c Ch0) (thresh_low c Ch0) = high ∧
  threshold_states st' Ch0 = None.
Proof. vm_compute. repeat split; reflexivity. Qed.


(** C4 fails as stated: when the log write raises, the telemetry messages of
    that cycle are not sent, though telemetry is on and the same frame
    sends two messages when the log write succeeds. *)
Lemma log_failure_skips_telemetry :
  let c := Controls (λ _, false) (λ _, 5%nat) (λ _, false) (λ _, 1%float)
             (λ _, 0.1%float) false true true true in
  let log_down := Env c (λ c, if is_row c then Some OSError else None) "" in
  let failed := process_data unparsed_float unparsed_int (reading Ch0 2)
                  log_down init_state in
  let passed := process_data unparsed_float unparsed_int (reading Ch0 2)
                  (quiet c) init_state in
  failed.2 = Raise OSError ∧
  filter (λ c, Is_true (is_send c)) (delivered failed.1) = [] ∧
  passed.2 = Ok tt ∧
  filter (λ c, Is_true (is_send c)) (delivered passed.1) =
    [Send_message "/adc/ch0/raw" (PInt 0);
     Send_message "/adc/ch0/voltage" (PFloat 2)].
Proof. vm_compute. repeat split; reflexivity. Qed.

(** C9 fails as stated: with an interval of one second, a tick due at 0 and
    a fetch at time 1, the advanced tick is 1, which is not in the future
    of the observed time 1, and it is kept: the tick is not moved to 2. *)
Lemma no_resync_at_equality :
  let o := Observation true 1%float (Raise OSError) (quiet default_alerting) in
  let ls := LoopState 0%float init_state in
  let next := next_sample_time
                (loop_body unparsed_float unparsed_int (sample_interval 1) o ls) in
  (current_time o <? next_sample_time ls + sample_interval 1)%float = false ∧
  (next =? 1)%float = true ∧
  (next =? current_time o + sample_interval 1)%float = false.
Proof. vm_compute. repeat split; reflexivity. Qed.

Section Loop.

Variable float_of_str : string → option float.
Variable int_of_str : string → option Z.

Abbreviation process_data := (process_data float_of_str int_of_str).
Abbreviation fetch_and_dispatch := (fetch_and_dispatch float_of_str int_of_str).
Abbreviation loop_body := (loop_body float_of_str int_of_str).
Abbreviation acquisition_loop := (acquisition_loop float_of_str int_of_str).

(** C4, amended: a sink call that raises ends the dispatch cycle.  When the
    display handoff raises, nothing of the cycle is delivered; when the log
    write raises, no telemetry message of the cycle is sent; in both cases
    the sample is not counted.  Whatever raises in the dispatch, the loop
    catches it, counts one error and goes on with its next turn. *)
Theorem sink_failure_ends_cycle_not_loop :
  (∀ data chs en st e,
     channels data = Some chs →
     frame_readable float_of_str int_of_str chs = true →
     faults en (Emit_new_data data) = Some e →
     ∃ st',
       process_data data en st = (st', Raise e) ∧
       delivered st' = delivered st ∧
       csv_row_count st' = csv_row_count st ∧
       sample_count st' = sample_count st) ∧
  (∀ data chs en st e,
     channels data = Some chs →
     frame_readable float_of_str int_of_str chs = true →
     faults en (Emit_new_data data) = None →
     logging_active (ui en) = true →
     csv_writer (ui en) = true →
     (∀ row, faults en (Writerow row) = Some e) →
     ∃ st' e',
       process_data data en st = (st', Raise e') ∧
       delivered st' = delivered st ++ [Emit_new_data data] ∧
       csv_row_count st' = csv_row_count st ∧
       sample_count st' = sample_count st) ∧
  (∀ interval o ls data st' e obs,
     running o = true →
     (current_time o <? next_sample_time ls)%float = false →
     response o = Ok data →
     process_data data (cycle o) (app ls) = (st', Raise e) →
     app (loop_body interval o ls) = set_error_count (error_count st' + 1) st' ∧
     acquisition_loop interval (o :: obs) ls =
       acquisition_loop interval obs (loop_body interval o ls)).
Proof.
  split; [|split].
  - intros data chs en st e Hchs Hr Hfail.
    destruct (apply_filters_spec _ _ data chs en st Hchs Hr)
      as (st1 & out & E & (_ & RC1 & SC1 & _ & D1) & _).
    rewrite (process_data_unfold _ _ data chs en st st1 out Hchs E), Hfail.
    by exists st1.
  - intros data chs en st e Hchs Hr Hemit Hlog Hcsv Hfail.
    destruct (apply_filters_spec _ _ data chs en st Hchs Hr)
      as (st1 & out & E & (_ & RC1 & SC1 & _ & D1) & _).
    rewrite (process_data_unfold _ _ data chs en st st1 out Hchs E), Hemit.
    cbv zeta. rewrite Hlog, Hcsv. simpl.
    match goal with |- context [log_to_csv ?d ?u ?o ?en ?s] =>
      destruct (log_to_csv_write_fails d u o en s e Hfail) as [e' ->] end.
    eexists _, e'. split; [reflexivity|]. simpl.
    by rewrite D1, RC1, SC1.
  - intros interval o ls data st' e obs Hrun Hdue Hresp E.
    split.
    + unfold loop_body. rewrite Hdue. simpl.
      unfold fetch_and_dispatch. by rewrite Hresp, E.
    + simpl. by rewrite Hrun.
Qed.

(** C9, amended: a turn of the loop that reads a time before the tick
    sleeps for the remaining time and fetches nothing, the tick staying as
    it is.  Any other turn attempts one fetch and then advances the tick by
    one interval, whatever the outcome of the fetch; when the advanced tick
    is strictly before the time read in that turn, the tick is set to that
    time plus one interval instead. *)
Theorem scheduler_pacing interval o ls :
  ((current_time o <? next_sample_time ls)%float = true →
   loop_body interval o ls =
     LoopState (next_sample_time ls)
       (set_delivered
          (delivered (app ls) ++
           [Sleep (py_max0 (next_sample_time ls - current_time o)%float)])
          (app ls))) ∧
  ((current_time o <? next_sample_time ls)%float = false →
   app (loop_body interval o ls) = fetch_and_dispatch o (app ls) ∧
   next_sample_time (loop_body interval o ls) =
     (if (next_sample_time ls + interval <? current_time o)%float
      then (current_time o + interval)%float
      else (next_sample_time ls + interval)%float) ∧
   ∀ o', current_time o' = current_time o →
         next_sample_time (loop_body interval o' ls) =
         next_sample_time (loop_body interval o ls)).
Proof.
  split; intros Hcmp; unfold loop_body; rewrite Hcmp; [done|].
  split; [done|]. split; [done|].
  intros o' Ho'. rewrite Ho', Hcmp. done.
Qed.

End Loop.

(** ** The theorems at concrete inputs *)

(** [filter_window_mean] on a first reading of 1.5 with a window of 5, and
    on the six readings from the initial state. *)
Lemma filter_window_mean_witness :
  (∃ st' out fv,
     apply_filters unparsed_float unparsed_int
       (Frame None (Some two_channels)) (quiet smoothing) init_state
     = (st', Ok out) ∧
     out !! str Ch0 = Some (ChanOut 7 1.5 fv) ∧
     filter_buffers st' Ch0 = deque_append 50 (filter_buffers init_state Ch0) 1.5%float ∧
     fv = mean (last_n (filter_window (ui (quiet smoothing)) Ch0
                          `min` length (filter_buffers st' Ch0))
                  (filter_buffers st' Ch0))) ∧
  filter_run unparsed_float unparsed_int Ch0
    (reading Ch0 <$> [1; 2; 3; 4; 5; 6]%float) (quiet smoothing) init_state
    !! 5%nat = Some (Some 4%float).
Proof.
  split.
  - apply (proj1 (filter_window_mean unparsed_float unparsed_int)
             (Frame None (Some two_channels)) two_channels Ch0 entry_ok
             1.5%float 7 (quiet smoothing) init_state);
      try reflexivity.
    simpl. lia.
  - apply (proj2 (filter_window_mean unparsed_float unparsed_int)
             Ch0 (quiet smoothing) init_state); reflexivity.
Defined.

(** [filter_disabled_passthrough] on a first reading of 1.5 with the filter
    off. *)
Lemma filter_disabled_passthrough_witness :
  ∃ st' out,
    apply_filters unparsed_float unparsed_int
      (Frame None (Some two_channels)) (quiet default_alerting) init_state
    = (st', Ok out) ∧
    out !! str Ch0 = Some (ChanOut 7 1.5 1.5) ∧
    filter_buffers st' Ch0 = deque_append 50 (filter_buffers init_state Ch0) 1.5%float ∧
    last (filter_buffers st' Ch0) = Some 1.5%float ∧
    ((length (filter_buffers init_state Ch0) ≤ 50)%nat →
     (length (filter_buffers st' Ch0) ≤ 50)%nat).
Proof.
  apply (filter_disabled_passthrough unparsed_float unparsed_int
           (Frame None (Some two_channels)) two_channels Ch0 entry_ok
           1.5%float 7 (quiet default_alerting) init_state);
    reflexivity.
Defined.

(** [unreadable_channel_skipped] on a frame whose channel 1 has a null
    count, and on a frame whose channel 1 has an infinite count. *)
Lemma unreadable_channel_skipped_witness :
  let en := quiet default_alerting in
  (∃ st' out,
     apply_filters unparsed_float unparsed_int
       (Frame None (Some two_channels)) en init_state = (st', Ok out) ∧
     out !! str Ch1 = None ∧
     filter_buffers st' Ch1 = filter_buffers init_state Ch1 ∧
     apply_filters unparsed_float unparsed_int
       (Frame None (Some (delete (str Ch1) two_channels))) en init_state
     = (st', Ok out) ∧
     (∀ j entry' v r,
        two_channels !! str j = Some entry' →
        read_channel unparsed_float unparsed_int entry' = Ok (v, r) →
        let buf' := deque_append 50 (filter_buffers init_state j) v in
        filter_buffers st' j = buf' ∧
        out !! str j =
          Some (ChanOut r v
                  (if filter_enabled (ui en) j
                   then mean (py_last (filter_window (ui en) j `min` length buf')
                                buf')
                   else v))) ∧
     (∀ j, two_channels !! str j = None →
           filter_buffers st' j = filter_buffers init_state j ∧
           out !! str j = None)) ∧
  (∃ st',
     apply_filters unparsed_float unparsed_int
       (Frame None (Some overflow_second)) en init_state
     = (st', Raise OverflowError) ∧
     (∀ j, j = Ch1 ∨ j ∈ [Ch2; Ch3] →
           filter_buffers st' j = filter_buffers init_state j) ∧
     (∀ j entry' v r,
        j ∈ [Ch0] →
        overflow_second !! str j = Some entry' →
        read_channel unparsed_float unparsed_int entry' = Ok (v, r) →
        filter_buffers st' j = deque_append 50 (filter_buffers init_state j) v)).
Proof.
  intros en. split.
  - apply (proj1 (unreadable_channel_skipped unparsed_float unparsed_int)
             (Frame None (Some two_channels)) two_channels Ch1 entry_null
             TypeError en init_state);
      reflexivity.
  - apply (proj2 (unreadable_channel_skipped unparsed_float unparsed_int)
             (Frame None (Some overflow_second)) overflow_second Ch1
             entry_overflow OverflowError en init_state [Ch0] [Ch2; Ch3]);
      reflexivity.
Defined.

(** C10 fails as stated: a count that is infinite cannot be converted
    ([int] raises OverflowError, which the [except] does not name), and
    the channel is not skipped.  On a frame with such an entry on channel
    0 and a reading of 1.5 on channel 1, [apply_filters] raises: no dict
    is returned, and channel 1 is not processed, its history staying
    empty; on the frame without the entry of channel 0 the reading of
    channel 1 enters its history and the dict. *)
Lemma overflow_aborts_frame :
  let en := quiet default_alerting in
  overflow_first !! str Ch0 = Some entry_overflow ∧
  read_channel unparsed_float unparsed_int entry_overflow = Raise OverflowError ∧
  apply_filters unparsed_float unparsed_int
    (Frame None (Some overflow_first)) en init_state
  = (init_state, Raise OverflowError) ∧
  filter_buffers init_state Ch1 = [] ∧
  ∃ st' out,
    apply_filters unparsed_float unparsed_int
      (Frame None (Some (delete (str Ch0) overflow_first))) en init_state
    = (st', Ok out) ∧
    filter_buffers st' Ch1 = [1.5%float] ∧
    out !! str Ch1 = Some (ChanOut 7 1.5 1.5).
Proof.
  intros en. repeat (split; [reflexivity|]).
  eexists _, _. repeat split; reflexivity.
Qed.

(** [threshold_classification] with the setpoints inverted and a value
    between them. *)
Lemma threshold_classification_witness :
  ∃ st' lv,
    check_thresholds {[ "0" := ChanOut 0 0.5 0.5 ]} (quiet inverted) init_state
    = (st', Ok tt) ∧
    threshold_states st' Ch0 = Some lv ∧
    classifies (checked_voltage inverted Ch0 (ChanOut 0 0.5 0.5))
               (thresh_high inverted Ch0) (thresh_low inverted Ch0) lv ∧
    ((thresh_high inverted Ch0 <? checked_voltage inverted Ch0 (ChanOut 0 0.5 0.5))%float
       = true →
     (checked_voltage inverted Ch0 (ChanOut 0 0.5 0.5) <? thresh_low inverted Ch0)%float
       = true →
     lv = high).
Proof.
  apply (threshold_classification {[ "0" := ChanOut 0 0.5 0.5 ]} Ch0
           (ChanOut 0 0.5 0.5) (quiet inverted) init_state);
    [apply no_faults_quiet | reflexivity | reflexivity].
Defined.

(** [threshold_events] on a channel that stays High. *)
Lemma threshold_events_witness :
  (∃ st' events,
     check_thresholds {[ "0" := ChanOut 0 2 2 ]} (quiet default_alerting) alerted
     = (st', Ok tt) ∧
     threshold_states st' Ch0 = Some high ∧
     alerts Ch0 (delivered st') = alerts Ch0 (delivered alerted) ++ events ∧
     length events = 0%nat) ∧
  threshold_states
    (threshold_run [ {[ "0" := ChanOut 0 2 2 ]}; {[ "0" := ChanOut 0 3 3 ]} ]
       (quiet default_alerting) alerted) Ch0 = Some high ∧
  alerts Ch0 (delivered
    (threshold_run [ {[ "0" := ChanOut 0 2 2 ]}; {[ "0" := ChanOut 0 3 3 ]} ]
       (quiet default_alerting) alerted)) = alerts Ch0 (delivered alerted).
Proof.
  pose proof (threshold_events {[ "0" := ChanOut 0 2 2 ]} Ch0 (ChanOut 0 2 2)
                (quiet default_alerting) alerted
                (no_faults_quiet default_alerting) eq_refl eq_refl) as [H1 H2].
  split; [exact H1|].
  apply (H2 high); [reflexivity|].
  repeat constructor; eexists; (split; [reflexivity|]); reflexivity.
Defined.

(** [hysteresis_sequence] on channel 0 from the initial state. *)
Lemma hysteresis_sequence_witness :
  ∃ st1 st2 st3,
    check_thresholds {[ "0" := ChanOut 0 0.05 0.05 ]} (quiet default_alerting)
      init_state = (st1, Ok tt) ∧
    check_thresholds {[ "0" := ChanOut 0 0.5 0.5 ]} (quiet default_alerting)
      st1 = (st2, Ok tt) ∧
    check_thresholds {[ "0" := ChanOut 0 0.95 0.95 ]} (quiet default_alerting)
      st2 = (st3, Ok tt) ∧
    alerts Ch0 (delivered st1) =
      alerts Ch0 (delivered init_state) ++
      [Send_message (alert_addr Ch0 "low") (PList [PFloat 0.05; PFloat 0.1])] ∧
    alerts Ch0 (delivered st2) =
      alerts Ch0 (delivered st1) ++
      [Send_message (alert_addr Ch0 "normal") (PFloat 0.5)] ∧
    alerts Ch0 (delivered st3) = alerts Ch0 (delivered st2) ∧
    threshold_states st3 Ch0 = Some normal.
Proof.
  apply (hysteresis_sequence
           {[ "0" := ChanOut 0 0.05 0.05 ]} {[ "0" := ChanOut 0 0.5 0.5 ]}
           {[ "0" := ChanOut 0 0.95 0.95 ]}
           (ChanOut 0 0.05 0.05) (ChanOut 0 0.5 0.5) (ChanOut 0 0.95 0.95)
           Ch0 (quiet default_alerting) init_state);
    first [apply no_faults_quiet | reflexivity].
Defined.

(** [dispatch_filters_then_classifies] on a frame with two channels, the
    thresholds on. *)
Lemma dispatch_filters_then_classifies_witness :
  ∃ st' st1 out ch,
    process_data unparsed_float unparsed_int (Frame None (Some two_channels))
      (quiet default_alerting) init_state = (st', Ok tt) ∧
    apply_filters unparsed_float unparsed_int (Frame None (Some two_channels))
      (quiet default_alerting) init_state = (st1, Ok out) ∧
    out !! str Ch0 = Some ch ∧
    voltage ch = 1.5%float ∧
    filter_buffers st' Ch0 = deque_append 50 (filter_buffers init_state Ch0) 1.5%float ∧
    sample_count st' = sample_count init_state + 1 ∧
    (streaming_active (ui (quiet default_alerting)) = true →
     thresh_enabled (ui (quiet default_alerting)) Ch0 = true →
     threshold_states st' Ch0 =
       Some (classify (checked_voltage (ui (quiet default_alerting)) Ch0 ch)
               (thresh_high (ui (quiet default_alerting)) Ch0)
               (thresh_low (ui (quiet default_alerting)) Ch0))) ∧
    (streaming_active (ui (quiet default_alerting)) = false →
     threshold_states st' = threshold_states init_state).
Proof.
  apply (dispatch_filters_then_classifies unparsed_float unparsed_int
           (Frame None (Some two_channels)) two_channels Ch0 entry_ok
           1.5%float 7 (quiet default_alerting) init_state);
    first [apply no_faults_quiet | reflexivity].
Defined.

Lemma non_telemetry_ok_telemetry_down c : non_telemetry_ok (telemetry_down c).
Proof. intros k Hk. simpl. by rewrite Hk. Qed.

(** [sink_failure_ends_cycle_not_loop] with the display down, with the log
    down, and on a turn of the loop with the log down. *)
Lemma sink_failure_ends_cycle_not_loop_witness :
  let data := Frame None (Some two_channels) in
  let o := Observation true 1%float (Ok data) (log_down logging) in
  let ls := LoopState 0%float init_state in
  let failed :=
    (process_data unparsed_float unparsed_int data (log_down logging) init_state).1 in
  (∃ st',
     process_data unparsed_float unparsed_int data (display_down logging)
       init_state = (st', Raise OSError) ∧
     delivered st' = delivered init_state ∧
     csv_row_count st' = csv_row_count init_state ∧
     sample_count st' = sample_count init_state) ∧
  (∃ st' e',
     process_data unparsed_float unparsed_int data (log_down logging)
       init_state = (st', Raise e') ∧
     delivered st' = delivered init_state ++ [Emit_new_data data] ∧
     csv_row_count st' = csv_row_count init_state ∧
     sample_count st' = sample_count init_state) ∧
  app (loop_body unparsed_float unparsed_int 1%float o ls)
    = set_error_count (error_count failed + 1) failed ∧
  acquisition_loop unparsed_float unparsed_int 1%float [o] ls
    = acquisition_loop unparsed_float unparsed_int 1%float []
        (loop_body unparsed_float unparsed_int 1%float o ls).
Proof.
  intros data o ls failed.
  pose proof (sink_failure_ends_cycle_not_loop unparsed_float unparsed_int)
    as (H1 & H2 & H3).
  split.
  { apply (H1 data two_channels (display_down logging) init_state OSError);
      reflexivity. }
  split.
  { apply (H2 data two_channels (log_down logging) init_state OSError);
      first [reflexivity | intros row; reflexivity]. }
  apply (H3 1%float o ls data failed OSError []); reflexivity.
Defined.

(** [scheduler_pacing] at five samples a second: a turn half a second
    early, and a turn two seconds late. *)
Lemma scheduler_pacing_witness :
  let early := Observation true 0.5%float (Raise OSError) (quiet default_alerting) in
  let late := Observation true 3%float (Raise OSError) (quiet default_alerting) in
  let ls := LoopState 1%float init_state in
  let interval := sample_interval 5 in
  loop_body unparsed_float unparsed_int interval early ls =
    LoopState (next_sample_time ls)
      (set_delivered
         (delivered (app ls) ++
          [Sleep (py_max0 (next_sample_time ls - current_time early)%float)])
         (app ls)) ∧
  app (loop_body unparsed_float unparsed_int interval late ls) =
    fetch_and_dispatch unparsed_float unparsed_int late (app ls) ∧
  next_sample_time (loop_body unparsed_float unparsed_int interval late ls) =
    (if (next_sample_time ls + interval <? current_time late)%float
     then (current_time late + interval)%float
     else (next_sample_time ls + interval)%float) ∧
  ∀ o', current_time o' = current_time late →
        next_sample_time (loop_body unparsed_float unparsed_int interval o' ls) =
        next_sample_time (loop_body unparsed_float unparsed_int interval late ls).
Proof.
  intros early late ls interval. split.
  - apply (proj1 (scheduler_pacing unparsed_float unparsed_int interval early ls)).
    reflexivity.
  - apply (proj2 (scheduler_pacing unparsed_float unparsed_int interval late ls)).
    reflexivity.
Defined.


(** ** Further properties of the dispatcher *)

#[global] Instance filters_step_refl : Reflexive filters_step.
Proof. intros st. split; [apply same_but_buffers_refl|done]. Qed.

#[global] Instance filters_step_trans : Transitive filters_step.
Proof.
  intros st1 st2 st3 [S1 B1] [S2 B2]. split.
  - by eapply same_but_buffers_trans.
  - auto.
Qed.

Lemma row_loop_length uf od l row en st st' row' :
  for_each l (row_body uf od) row en st = (st', Ok row') →
  length row' = (length row + 2 * length l)%nat.
Proof.
  revert row. induction l as [|i l IH]; intros row; simpl.
  - unfold_monad. intros [= _ <-]. lia.
  - unfold mbind, M_bind at 1. unfold row_body at 1.
    destruct (od !! str i) as [e|]; unfold_monad.
    + destruct (py_getitem e "raw"); simpl; [|done].
      destruct (py_getitem e _); simpl; [|done].
      intros H%IH. rewrite H, length_app. simpl. lia.
    + intros H%IH. rewrite H, length_app. simpl. lia.
Qed.

Section Effects.

Variable float_of_str : string → option float.
Variable int_of_str : string → option Z.

Abbreviation apply_filters_body := (apply_filters_body float_of_str int_of_str).
Abbreviation apply_filters := (apply_filters float_of_str int_of_str).
Abbreviation process_data := (process_data float_of_str int_of_str).

Lemma apply_filters_body_step chs i acc en st :
  filters_step st (apply_filters_body chs i acc en st).1.
Proof.
  unfold apply_filters_body.
  destruct (chs !! str i) as [entry|]; [|reflexivity].
  destruct (read_channel _ _ entry) as [[v r]|e].
  2:{ destruct (caught_by_filter e); reflexivity. }
  unfold_monad. simpl. rewrite fn_lookup_insert.
  assert (filters_step st
            (set_filter_buffers
               (<[i:=deque_append 50 (filter_buffers st i) v]> (filter_buffers st))
               st)) as Hstep.
  { split; [by repeat split|]. intros Hb j. simpl.
    destruct (decide (j = i)) as [->|Hne].
    - rewrite fn_lookup_insert. apply length_deque_append_le, Hb.
    - rewrite fn_lookup_insert_ne by done. apply Hb. }
  destruct (filter_enabled (ui en) i && _); [|exact Hstep].
  destruct (py_truediv _ _); exact Hstep.
Qed.

Lemma apply_filters_step data en st :
  filters_step st (apply_filters data en st).1.
Proof.
  unfold apply_filters. unfold_monad.
  destruct (channels data) as [chs|]; [|reflexivity].
  apply (for_each_preserves filters_step range4 (apply_filters_body chs) en
           (λ i acc s, apply_filters_body_step chs i acc en s)).
Qed.

End Effects.

#[global] Instance log_step_refl : Reflexive log_step.
Proof.
  intros st. repeat split. exists []. rewrite app_nil_r. simpl.
  split; [done|]. split; [done|]. lia.
Qed.

#[global] Instance log_step_trans : Transitive log_step.
Proof.
  intros st1 st2 st3 (?&?&?&?&l1&D1&F1&C1) (?&?&?&?&l2&D2&F2&C2).
  repeat split; try congruence.
  exists (l1 ++ l2). split; [by rewrite D2, D1, app_assoc|].
  split; [by apply Forall_app|].
  rewrite rows_app, length_app. lia.
Qed.

Lemma do_call_admin_log_step c en st :
  log_call c → is_row c = false →
  log_step st (do_call c en st).1.
Proof.
  intros Hc Hr. unfold do_call. destruct (faults en c); [reflexivity|].
  repeat split. exists [c]. simpl. split; [done|]. split; [by constructor|].
  unfold rows. rewrite filter_cons_False by (rewrite Hr; by intros []).
  simpl. lia.
Qed.

Lemma log_to_csv_step data uf od en st :
  log_step st (log_to_csv data uf od en st).1.
Proof.
  unfold log_to_csv.
  unfold mbind, M_bind at 1. unfold ask at 1.
  unfold mbind, M_bind at 1.
  pose proof (row_loop_pure uf od range4
                [PStr (now_iso en); default (PInt 0) (timestamp data)] en st) as Hp.
  destruct (for_each range4 _ _ en st) as [st1 [row|e1]] eqn:Hrow;
    simpl in Hp; subst st1; [|reflexivity].
  apply row_loop_length in Hrow. simpl in Hrow.
  unfold mbind, M_bind at 1. unfold do_call at 1.
  destruct (faults en (Writerow row)); [reflexivity|].
  unfold mbind, M_bind at 1. unfold modify at 1.
  unfold mbind, M_bind at 1. unfold get at 1.
  set (s := set_csv_row_count _ _).
  assert (log_step st s) as Hs.
  { repeat split. exists [Writerow row]. simpl.
    split; [done|]. split; [by constructor|]. lia. }
  etrans; [exact Hs|].
  unfold mbind, M_bind at 1.
  assert (log_step s
            ((if bool_decide (csv_row_count s `mod` 10 = 0)
              then do_call (Set_row_label (csv_row_count s))
              else mret ()) en s).1) as H1.
  { case_bool_decide; [by apply do_call_admin_log_step|reflexivity]. }
  set (p1 := (if bool_decide (csv_row_count s `mod` 10 = 0)
              then do_call (Set_row_label (csv_row_count s))
              else mret ()) en s) in *.
  destruct p1 as [s1 [[]|e1]]; simpl in *; [|exact H1].
  etrans; [exact H1|].
  case_bool_decide; [by apply do_call_admin_log_step|reflexivity].
Qed.

Lemma rows_sends l : Forall (λ c, is_send c = true) l → rows l = [].
Proof.
  intros Hl. apply rows_none. eapply Forall_impl; [exact Hl|].
  apply is_send_not_row.
Qed.

Section Cycle.

Variable float_of_str : string → option float.
Variable int_of_str : string → option Z.

Abbreviation apply_filters := (apply_filters float_of_str int_of_str).
Abbreviation process_data := (process_data float_of_str int_of_str).
Abbreviation fetch_and_dispatch := (fetch_and_dispatch float_of_str int_of_str).
Abbreviation loop_body := (loop_body float_of_str int_of_str).
Abbreviation acquisition_loop := (acquisition_loop float_of_str int_of_str).
Abbreviation dispatch_all := (dispatch_all float_of_str int_of_str).

Lemma process_data_filters_raise data en st st1 e :
  apply_filters data en st = (st1, Raise e) →
  process_data data en st = (st1, Raise e).
Proof.
  intros E. unfold process_data. unfold mbind, M_bind at 1. by rewrite E.
Qed.

Lemma apply_filters_ok_channels data en st st1 out :
  apply_filters data en st = (st1, Ok out) → ∃ chs, channels data = Some chs.
Proof.
  unfold apply_filters. unfold_monad.
  destruct (channels data) as [chs|]; [by exists chs|done].
Qed.

(** The summary of [process_data] for every frame and whichever calls
    raise. *)
Lemma process_data_effect data en st :
  cycle_effect (ui en) data st (process_data data en st).1
    (is_ok (process_data data en st).2).
Proof.
  pose proof (apply_filters_step float_of_str int_of_str data en st)
    as [(TS1 & RC1 & SC1 & EC1 & D1) HB1].
  destruct (apply_filters data en st) as [st1 [out|e]] eqn:E; simpl in *.
  2:{ rewrite (process_data_filters_raise _ _ _ _ _ E). simpl.
      split; [done|]. split; [done|]. split; [lia|]. split; [done|].
      exists []. rewrite app_nil_r. split; [done|]. split; [done|]. simpl. lia. }
  destruct (apply_filters_ok_channels _ _ _ _ _ E) as [chs Hchs].
  rewrite (process_data_unfold _ _ data chs en st st1 out Hchs E).
  destruct (faults en (Emit_new_data data)); simpl.
  { split; [done|]. split; [done|]. split; [lia|]. split; [done|].
    exists []. rewrite app_nil_r. split; [done|]. split; [done|]. simpl. lia. }
  set (st2 := set_delivered _ st1).
  set (uf := filtered_radio (ui en)).
  set (od := if uf then _ else _).
  (* the logging step *)
  assert (log_step st2
            ((if logging_active (ui en) && csv_writer (ui en)
              then log_to_csv data uf od else mret ()) en st2).1 ∧
          (logging_active (ui en) && csv_writer (ui en) = false →
           ((if logging_active (ui en) && csv_writer (ui en)
             then log_to_csv data uf od else mret ()) en st2).1 = st2))
    as [(FB3 & TS3 & SC3 & EC3 & l3 & D3 & F3 & RC3) Hoff3].
  { destruct (logging_active (ui en) && csv_writer (ui en)).
    - split; [apply log_to_csv_step|done].
    - split; [reflexivity|done]. }
  assert (Forall (cycle_call (ui en) data) l3) as F3'.
  { destruct (logging_active (ui en) && csv_writer (ui en)) eqn:Hlog.
    - apply andb_true_iff in Hlog as [Hl Hw].
      eapply Forall_impl; [exact F3|]. intros [] Hc; simpl in *; done.
    - rewrite (Hoff3 eq_refl) in D3.
      assert (l3 = []) as ->; [|done].
      apply (app_inv_head (delivered st2)). by rewrite app_nil_r. }
  clear Hoff3.
  destruct ((if logging_active (ui en) && csv_writer (ui en)
             then log_to_csv data uf od else mret ()) en st2)
    as [st3 [[]|e3]]; simpl in *.
  2:{ split; [intros Hb j; rewrite FB3; by apply HB1|].
      split; [by rewrite EC3|]. split; [rewrite SC3; simpl; lia|].
      split; [intros _; by rewrite TS3|].
      exists (Emit_new_data data :: l3). split.
      { rewrite D3. unfold st2. simpl. rewrite D1, <- app_assoc. done. }
      split; [by constructor|].
      rewrite RC3. change (csv_row_count st2) with (csv_row_count st1).
      rewrite RC1.
      change (Emit_new_data data :: l3) with ([Emit_new_data data] ++ l3).
      rewrite rows_app.
      change (rows [Emit_new_data data]) with (@nil call). simpl. lia. }
  (* the telemetry step *)
  assert (telemetry_only st3
            ((if streaming_active (ui en)
              then send_osc uf od out else mret ()) en st3).1 ∧
          (streaming_active (ui en) = false →
           ((if streaming_active (ui en)
             then send_osc uf od out else mret ()) en st3).1 = st3))
    as [(FB4 & RC4 & SC4 & EC4 & l4 & D4 & F4) Hoff4].
  { destruct (streaming_active (ui en)).
    - split; [apply send_osc_telemetry|done].
    - split; [reflexivity|done]. }
  assert (Forall (cycle_call (ui en) data) l4) as F4'.
  { destruct (streaming_active (ui en)) eqn:Hs.
    - eapply Forall_impl; [exact F4|]. intros [] Hc; simpl in *; done.
    - rewrite (Hoff4 eq_refl) in D4.
      assert (l4 = []) as ->; [|done].
      apply (app_inv_head (delivered st3)). by rewrite app_nil_r. }
  assert (streaming_active (ui en) = false →
          threshold_states
            ((if streaming_active (ui en)
              then send_osc uf od out else mret ()) en st3).1
          = threshold_states st) as TS4.
  { intros Hs. rewrite (Hoff4 Hs). by rewrite TS3. }
  clear Hoff4.
  assert (delivered st ++ (Emit_new_data data :: l3) ++ l4
          = (delivered st3 ++ l4)) as D.
  { rewrite D3. unfold st2. simpl. rewrite D1, <- !app_assoc. done. }
  assert (csv_row_count st3
          = csv_row_count st +
            Z.of_nat (length (rows ((Emit_new_data data :: l3) ++ l4)))) as RC.
  { rewrite RC3. change (csv_row_count st2) with (csv_row_count st1).
    rewrite RC1.
    change (Emit_new_data data :: l3) with ([Emit_new_data data] ++ l3).
    rewrite !rows_app, (rows_sends l4 F4), app_nil_r.
    change (rows [Emit_new_data data]) with (@nil call). simpl. lia. }
  destruct ((if streaming_active (ui en)
             then send_osc uf od out else mret ()) en st3)
    as [st4 [[]|e4]]; simpl in *.
  - split; [intros Hb j; simpl; rewrite FB4, FB3; by apply HB1|].
    split; [simpl; by rewrite EC4, EC3|].
    split; [simpl; rewrite SC4, SC3; simpl; lia|].
    split; [done|].
    exists ((Emit_new_data data :: l3) ++ l4). split; [simpl; rewrite D4; symmetry; exact D|].
    split; [apply Forall_app; split; [by constructor|done]|].
    simpl. by rewrite RC4, RC.
  - split; [intros Hb j; rewrite FB4, FB3; by apply HB1|].
    split; [by rewrite EC4, EC3|]. split; [rewrite SC4, SC3; simpl; lia|].
    split; [done|].
    exists ((Emit_new_data data :: l3) ++ l4). split; [rewrite D4; symmetry; exact D|].
    split; [apply Forall_app; split; [by constructor|done]|].
    by rewrite RC4, RC.
Qed.

Lemma fetch_and_dispatch_effect o st :
  (histories_bounded st → histories_bounded (fetch_and_dispatch o st)) ∧
  ((sample_count (fetch_and_dispatch o st) = sample_count st + 1 ∧
    error_count (fetch_and_dispatch o st) = error_count st) ∨
   (sample_count (fetch_and_dispatch o st) = sample_count st ∧
    error_count (fetch_and_dispatch o st) = error_count st + 1)).
Proof.
  unfold fetch_and_dispatch. destruct (response o) as [data|e].
  - pose proof (process_data_effect data (cycle o) st) as (HB & EC & SC & _).
    destruct (process_data data (cycle o) st) as [st' [[]|e]]; simpl in *.
    + split; [done|]. left. split; [lia|done].
    + split; [done|]. right. split; [lia|]. by rewrite EC.
  - split; [done|]. by right.
Qed.

(** X1: starting from histories within the bound of 50 readings, the
    histories stay within it over any run of the polling loop, whatever
    the device sends and whichever calls raise. *)
Theorem histories_stay_bounded interval obs ls :
  histories_bounded (app ls) →
  histories_bounded (app (acquisition_loop interval obs ls).1).
Proof.
  revert ls. induction obs as [|o obs IH]; intros ls Hb; simpl; [done|].
  destruct (running o); [|done]. apply IH.
  unfold loop_body. destruct (current_time o <? next_sample_time ls)%float.
  - done.
  - simpl. by apply fetch_and_dispatch_effect.
Qed.

(** X2: every fetch attempt of the loop is counted exactly once, as a sample
    when the dispatch returns and as an error when the request or the
    dispatch raises; so the two counters together advance by the number of
    attempts. *)
Theorem attempts_counted_once :
  (∀ o st,
     (sample_count (fetch_and_dispatch o st) = sample_count st + 1 ∧
      error_count (fetch_and_dispatch o st) = error_count st) ∨
     (sample_count (fetch_and_dispatch o st) = sample_count st ∧
      error_count (fetch_and_dispatch o st) = error_count st + 1)) ∧
  (∀ obs st,
     sample_count (dispatch_all obs st) + error_count (dispatch_all obs st) =
     sample_count st + error_count st + Z.of_nat (length obs)).
Proof.
  split; [intros; apply fetch_and_dispatch_effect|].
  intros obs. induction obs as [|o obs IH]; intros st.
  - simpl. lia.
  - unfold dispatch_all in *. simpl. rewrite IH.
    destruct (fetch_and_dispatch_effect o st) as [_ [[-> ->]|[-> ->]]]; lia.
Qed.

(** X3: the sinks keep to their switches, whichever calls raise: a dispatch
    with telemetry off sends no message and leaves the stored
    classifications alone, and a dispatch with logging off (or without a
    writer) writes no row and leaves the row counter alone. *)
Theorem sinks_keep_to_switches data en st :
  ∃ l,
    delivered (process_data data en st).1 = delivered st ++ l ∧
    (streaming_active (ui en) = false →
     Forall (λ c, is_send c = false) l ∧
     threshold_states (process_data data en st).1 = threshold_states st) ∧
    (logging_active (ui en) && csv_writer (ui en) = false →
     Forall (λ c, is_row c = false) l ∧
     csv_row_count (process_data data en st).1 = csv_row_count st).
Proof.
  destruct (process_data_effect data en st) as (_ & _ & _ & TS & l & D & F & RC).
  exists l. split; [done|]. split.
  - intros Hs. split; [|by apply TS].
    eapply Forall_impl; [exact F|]. intros [] Hc; simpl in *; congruence.
  - intros Hl.
    assert (Forall (λ c, is_row c = false) l) as Hrows.
    { eapply Forall_impl; [exact F|]. intros [] Hc; simpl in *; try done.
      destruct Hc as (_ & Hla & Hcw). by rewrite Hla, Hcw in Hl. }
    split; [done|]. rewrite RC, (rows_none l Hrows). simpl. lia.
Qed.

(** X4: every log row that a dispatch writes has as many cells as the
    header row that [start_logging] writes, ten (two time stamps and two
    cells for each of the four channels, present or not), and the row
    counter advances by the number of rows written, whichever calls
    raise. *)
Theorem rows_have_ten_cells data en st :
  ∃ l,
    delivered (process_data data en st).1 = delivered st ++ l ∧
    (∀ row, Writerow row ∈ l → length row = length header) ∧
    csv_row_count (process_data data en st).1 =
      csv_row_count st + Z.of_nat (length (rows l)).
Proof.
  destruct (process_data_effect data en st) as (_ & _ & _ & _ & l & D & F & RC).
  exists l. split; [done|]. split; [|done].
  intros row Hrow. rewrite Forall_forall in F.
  by destruct (F _ Hrow) as [? _].
Qed.

End Cycle.

(** ** The log and the counters *)

Section Durability.

Variable float_of_str : string → option float.
Variable int_of_str : string → option Z.

Abbreviation process_data := (process_data float_of_str int_of_str).
Abbreviation fetch_and_dispatch := (fetch_and_dispatch float_of_str int_of_str).
Abbreviation dispatch_all := (dispatch_all float_of_str int_of_str).
Abbreviation frame_readable := (frame_readable float_of_str int_of_str).
Abbreviation loggable := (loggable float_of_str int_of_str).

(** A dispatch in which nothing raises returns. *)
Lemma process_data_returns data chs en st :
  channels data = Some chs →
  frame_readable chs = true →
  frame_subscriptable chs = true →
  no_faults en →
  (process_data data en st).2 = Ok tt.
Proof.
  intros Hchs Hr Hs Hnf.
  destruct (apply_filters_spec _ _ data chs en st Hchs Hr)
    as (st1 & out & E & _ & _).
  rewrite (process_data_unfold _ _ data chs en st st1 out Hchs E), Hnf.
  cbv zeta.
  set (st2 := set_delivered _ st1).
  set (uf := filtered_radio (ui en)).
  set (od := if uf then _ else _).
  assert (out_ok uf od) as Hok by (by apply out_ok_output).
  destruct (log_block_spec data uf od en st2
              (no_faults_non_telemetry_ok en Hnf) Hok)
    as (st3 & l & -> & _).
  destruct (streaming_active (ui en)).
  - by destruct (send_osc_spec uf od out en st3 Hnf Hok)
      as (st4 & st5 & -> & _).
  - done.
Qed.

(** One turn of the loop on a frame that can be logged: the row is written
    and counted; the turn is counted as a sample or as an error, and as a
    sample when nothing raises. *)
Lemma loggable_turn o st :
  loggable o →
  csv_row_count (fetch_and_dispatch o st) = csv_row_count st + 1 ∧
  length (rows (delivered (fetch_and_dispatch o st))) =
    S (length (rows (delivered st))) ∧
  ((sample_count (fetch_and_dispatch o st) = sample_count st + 1 ∧
    error_count (fetch_and_dispatch o st) = error_count st) ∨
   (sample_count (fetch_and_dispatch o st) = sample_count st ∧
    error_count (fetch_and_dispatch o st) = error_count st + 1)) ∧
  (no_faults (cycle o) →
   sample_count (fetch_and_dispatch o st) = sample_count st + 1 ∧
   error_count (fetch_and_dispatch o st) = error_count st).
Proof.
  intros (data & chs & Hresp & Hchs & Hr & Hs & Hnt & Hlog & Hcsv).
  destruct (process_data_logs _ _ data chs (cycle o) st Hchs Hr Hs Hnt Hlog Hcsv)
    as (st' & res & row & admin & sends & E & D & Ha & Hsd & RC).
  pose proof (process_data_effect float_of_str int_of_str data (cycle o) st)
    as (_ & EC & SC & _).
  pose proof (process_data_returns data chs (cycle o) st Hchs Hr Hs) as Hret.
  rewrite E in EC, SC, Hret. simpl in EC, SC, Hret.
  assert (length (rows (delivered st')) = S (length (rows (delivered st))))
    as Hrows.
  { rewrite D, rows_app.
    change (Emit_new_data data :: Writerow row :: admin ++ sends)
      with ([Emit_new_data data; Writerow row] ++ (admin ++ sends)).
    rewrite !rows_app, (rows_none admin), (rows_none sends).
    - rewrite !length_app. simpl. lia.
    - eapply Forall_impl; [exact Hsd|]. apply is_send_not_row.
    - eapply Forall_impl; [exact Ha|]. by intros ? []. }
  unfold fetch_and_dispatch. rewrite Hresp, E.
  destruct res as [[]|e]; simpl in *.
  - split; [done|]. split; [done|]. split; [left; split; [lia|done]|].
    intros _. split; [lia|done].
  - split; [done|]. split; [done|]. split; [right; split; [lia|by rewrite EC]|].
    intros Hnf. by specialize (Hret Hnf).
Qed.

(** C5, amended.  In a cycle with logging on the row is written before any
    telemetry message is sent, so that the row is written and counted
    whatever the telemetry sends do; the cycle is counted as a sample only
    when it returns.  Over any number of dispatched frames, whichever
    telemetry sends raise, the rows written and the row counter advance by
    the number of frames.  The sample counter does not: each frame is
    counted as a sample or, when a telemetry send raised, as an error, so
    that the rows are the samples and the errors together; the rows are
    the samples when no send raises. *)
Theorem log_before_telemetry :
  (∀ data chs en st,
     channels data = Some chs →
     frame_readable chs = true →
     frame_subscriptable chs = true →
     non_telemetry_ok en →
     logging_active (ui en) = true →
     csv_writer (ui en) = true →
     ∃ st' res row admin sends,
       process_data data en st = (st', res) ∧
       delivered st' =
         delivered st ++ Emit_new_data data :: Writerow row :: admin ++ sends ∧
       Forall (λ c, is_send c = false ∧ is_row c = false) admin ∧
       Forall (λ c, is_send c = true) sends ∧
       csv_row_count st' = csv_row_count st + 1 ∧
       sample_count st' = sample_count st + (if is_ok res then 1 else 0)) ∧
  (∀ obs st,
     Forall loggable obs →
     csv_row_count (dispatch_all obs st) =
       csv_row_count st + Z.of_nat (length obs) ∧
     length (rows (delivered (dispatch_all obs st))) =
       (length (rows (delivered st)) + length obs)%nat ∧
     sample_count (dispatch_all obs st) - sample_count st +
       (error_count (dispatch_all obs st) - error_count st) =
       csv_row_count (dispatch_all obs st) - csv_row_count st ∧
     sample_count st ≤ sample_count (dispatch_all obs st) ∧
     error_count st ≤ error_count (dispatch_all obs st) ∧
     (Forall (λ o, no_faults (cycle o)) obs →
      sample_count (dispatch_all obs st) - sample_count st =
        csv_row_count (dispatch_all obs st) - csv_row_count st ∧
      error_count (dispatch_all obs st) = error_count st)).
Proof.
  split.
  - intros data chs en st Hchs Hr Hs Hnt Hlog Hcsv.
    destruct (process_data_logs _ _ data chs en st Hchs Hr Hs Hnt Hlog Hcsv)
      as (st' & res & row & admin & sends & E & D & Ha & Hsd & RC).
    pose proof (process_data_effect float_of_str int_of_str data en st)
      as (_ & _ & SC & _).
    rewrite E in SC. simpl in SC.
    by exists st', res, row, admin, sends.
  - intros obs. induction obs as [|o obs IH]; intros st Hall.
    + simpl. repeat split; lia.
    + apply Forall_cons in Hall as [Ho Hall].
      destruct (loggable_turn o st Ho) as (RC & Hrows & Hcount & Hquiet).
      unfold dispatch_all in *. simpl.
      destruct (IH (fetch_and_dispatch o st) Hall)
        as (RC' & Hrows' & Hsum & Hs & He & Hq).
      split; [lia|]. split; [lia|]. split; [lia|]. split; [lia|].
      split; [lia|].
      intros Hnf. apply Forall_cons in Hnf as [Hnf1 Hnf].
      specialize (Hq Hnf). specialize (Hquiet Hnf1). lia.
Qed.

End Durability.

(** [log_before_telemetry] with every telemetry send raising, on one frame
    and on two, and with nothing raising on two frames. *)
Lemma log_before_telemetry_witness :
  let data := Frame None (Some two_channels) in
  let en := telemetry_down logging in
  let o := Observation true 0%float (Ok data) en in
  let q := Observation true 0%float (Ok data) (quiet logging) in
  let failed := dispatch_all unparsed_float unparsed_int [o; o] init_state in
  let passed := dispatch_all unparsed_float unparsed_int [q; q] init_state in
  (∃ st' res row admin sends,
     process_data unparsed_float unparsed_int data en init_state = (st', res) ∧
     delivered st' =
       delivered init_state ++
       Emit_new_data data :: Writerow row :: admin ++ sends ∧
     Forall (λ c, is_send c = false ∧ is_row c = false) admin ∧
     Forall (λ c, is_send c = true) sends ∧
     csv_row_count st' = csv_row_count init_state + 1 ∧
     sample_count st' = sample_count init_state + (if is_ok res then 1 else 0)) ∧
  (csv_row_count failed = csv_row_count init_state + Z.of_nat (length [o; o]) ∧
   length (rows (delivered failed)) =
     (length (rows (delivered init_state)) + length [o; o])%nat ∧
   sample_count failed - sample_count init_state +
     (error_count failed - error_count init_state) =
     csv_row_count failed - csv_row_count init_state ∧
   sample_count init_state ≤ sample_count failed ∧
   error_count init_state ≤ error_count failed) ∧
  (sample_count passed - sample_count init_state =
     csv_row_count passed - csv_row_count init_state ∧
   error_count passed = error_count init_state).
Proof.
  intros data en o q failed passed.
  pose proof (log_before_telemetry unparsed_float unparsed_int) as (H1 & H2).
  assert (loggable unparsed_float unparsed_int o) as Ho.
  { exists data, two_channels.
    repeat (split; [reflexivity|]).
    split; [apply non_telemetry_ok_telemetry_down|]. split; reflexivity. }
  assert (loggable unparsed_float unparsed_int q) as Hq.
  { exists data, two_channels.
    repeat (split; [reflexivity|]).
    split; [intros c _; reflexivity|]. split; reflexivity. }
  split.
  { apply (H1 data two_channels en init_state);
      first [reflexivity | apply non_telemetry_ok_telemetry_down]. }
  split.
  { destruct (H2 [o; o] init_state) as (A & B & C & D & E & _);
      [by repeat constructor|].
    repeat split; assumption. }
  destruct (H2 [q; q] init_state) as (_ & _ & _ & _ & _ & Hquiet);
    [by repeat constructor|].
  apply Hquiet. repeat constructor; intros c; reflexivity.
Defined.

(** C5 fails as stated: the row count is not the processed sample count
    when telemetry sends raise.  [sample_count] is advanced at the end of
    a cycle only: on two frames whose telemetry sends raise, with logging
    on, two rows are written and counted, and two errors, and no sample. *)
Lemma sample_count_behind_rows :
  let o := Observation true 0%float (Ok (Frame None (Some two_channels)))
             (telemetry_down logging) in
  let st := dispatch_all unparsed_float unparsed_int [o; o] init_state in
  logging_active (ui (cycle o)) = true ∧
  length (rows (delivered st)) = 2%nat ∧
  csv_row_count st = 2 ∧ sample_count st = 0 ∧ error_count st = 2.
Proof. vm_compute. repeat split; reflexivity. Qed.

(** ** Further properties of the threshold alerts *)

Lemma for_each_preserves_in {A B} (R : relation state)
    `{!Reflexive R, !Transitive R} (l : list A) (body : A → B → M B) en :
  (∀ i, i ∈ l → ∀ acc st, R st (body i acc en st).1) →
  ∀ acc st, R st (for_each l body acc en st).1.
Proof.
  induction l as [|i l IH]; intros Hbody acc st; simpl.
  - reflexivity.
  - unfold mbind, M_bind.
    pose proof (Hbody i (list_elem_of_here _ _) acc st) as Hi.
    destruct (body i acc en st) as [st1 [acc1|e]]; simpl in *; [|done].
    etrans; [exact Hi|]. apply IH. intros j Hj. apply Hbody. by right.
Qed.

Lemma range4_split i :
  ∃ pre post, range4 = pre ++ i :: post ∧ i ∉ pre.
Proof.
  destruct i.
  - exists [], [Ch1; Ch2; Ch3]. split; [done|]. apply not_elem_of_nil.
  - exists [Ch0], [Ch2; Ch3]. split; [done|].
    rewrite elem_of_cons, elem_of_nil. by intros [|].
  - exists [Ch0; Ch1], [Ch3]. split; [done|].
    rewrite !elem_of_cons, elem_of_nil. by intros [|[|]].
  - exists [Ch0; Ch1; Ch2], []. split; [done|].
    rewrite !elem_of_cons, elem_of_nil. by intros [|[|[|]]].
Qed.

#[global] Instance channel_untouched_refl i : Reflexive (channel_untouched i).
Proof. by intros st. Qed.

#[global] Instance channel_untouched_trans i : Transitive (channel_untouched i).
Proof. intros st1 st2 st3 [T1 A1] [T2 A2]. split; congruence. Qed.

Lemma alerts_other_alert i j lv v H L :
  i ≠ j → alerts i [alert_for j lv v H L] = [].
Proof. intros Hne. destruct lv, i, j; try done; vm_compute; reflexivity. Qed.

(** A pass over the channel [j] leaves every other channel alone, whichever
    sends raise. *)
Lemma check_thresholds_body_other data i j acc en st :
  i ≠ j → channel_untouched i st (check_thresholds_body data j acc en st).1.
Proof.
  intros Hne. unfold check_thresholds_body. unfold_monad.
  destruct (data !! str j) as [ch|]; [|reflexivity].
  destruct (thresh_enabled (ui en) j); simpl; [|reflexivity].
  set (v := if filter_enabled (ui en) j then _ else _).
  set (H := thresh_high (ui en) j). set (L := thresh_low (ui en) j).
  case_bool_decide; [|reflexivity].
  assert (∀ lv, channel_untouched i st
    (let (st', r) :=
       match faults en (alert_for j lv v H L) with
       | Some e => (st, Raise e)
       | None => (set_delivered (delivered st ++ [alert_for j lv v H L]) st, Ok tt)
       end in
     match r with
     | Ok _ =>
         (set_threshold_states
            (<[j:=Some (classify v H L)]> (threshold_states st')) st', Ok tt)
     | Raise e => (st', Raise e)
     end).1) as Hsend.
  { intros lv. destruct (faults en _); simpl; [reflexivity|].
    split; simpl.
    - by rewrite fn_lookup_insert_ne.
    - by rewrite alerts_app, alerts_other_alert, app_nil_r. }
  destruct (classify v H L) eqn:Hlv.
  - apply (Hsend high).
  - apply (Hsend low).
  - case_bool_decide; cbv beta; [apply (Hsend normal)|]. simpl.
    split; simpl; [by rewrite fn_lookup_insert_ne|done].
Qed.

(** X5: a pass of [check_thresholds] in which the threshold of a channel is
    off, or in which the channel has no entry, leaves the stored
    classification of the channel as it was and sends no alert for it,
    whichever sends raise: switching a threshold off does not reset it. *)
Theorem disabled_threshold_keeps_state data i en st :
  thresh_enabled (ui en) i = false ∨ data !! str i = None →
  threshold_states (check_thresholds data en st).1 i = threshold_states st i ∧
  alerts i (delivered (check_thresholds data en st).1) = alerts i (delivered st).
Proof.
  intros Hoff.
  apply (for_each_preserves (channel_untouched i) range4
           (check_thresholds_body data) en).
  intros j acc s. destruct (decide (i = j)) as [<-|Hne].
  - unfold check_thresholds_body. unfold_monad.
    destruct Hoff as [-> | ->]; [|reflexivity].
    destruct (data !! str i); reflexivity.
  - by apply check_thresholds_body_other.
Qed.

Lemma check_thresholds_body_send_fails data i ch en st a e :
  data !! str i = Some ch →
  thresh_enabled (ui en) i = true →
  events_of i (threshold_states st i)
    (classify (checked_voltage (ui en) i ch)
       (thresh_high (ui en) i) (thresh_low (ui en) i))
    (checked_voltage (ui en) i ch)
    (thresh_high (ui en) i) (thresh_low (ui en) i) = [a] →
  faults en a = Some e →
  check_thresholds_body data i tt en st = (st, Raise e).
Proof.
  intros Hch Hen Hev Hf. unfold check_thresholds_body. unfold_monad.
  rewrite Hch, Hen. simpl. fold (checked_voltage (ui en) i ch).
  set (v := checked_voltage (ui en) i ch) in *.
  set (H := thresh_high (ui en) i) in *. set (L := thresh_low (ui en) i) in *.
  unfold events_of in Hev.
  destruct (threshold_states st i) as [s|] eqn:Hs.
  - case_decide as Hsl; [done|]. injection Hev as <-.
    rewrite bool_decide_eq_true_2 by congruence.
    destruct (classify v H L); simpl in *.
    + by rewrite Hf.
    + by rewrite Hf.
    + by rewrite Hf.
  - case_decide as Hn; [done|]. injection Hev as <-.
    rewrite bool_decide_eq_true_2 by done.
    destruct (classify v H L); simpl in *; [by rewrite Hf|by rewrite Hf|done].
Qed.

(** X6: when the send of the alert that is due for a channel raises, the
    pass ends with that exception or an earlier one, and the stored
    classification of the channel is not updated: the same alert is due
    again at the next pass. *)
Theorem failed_alert_stays_due data i ch en st a e :
  data !! str i = Some ch →
  thresh_enabled (ui en) i = true →
  events_of i (threshold_states st i)
    (classify (checked_voltage (ui en) i ch)
       (thresh_high (ui en) i) (thresh_low (ui en) i))
    (checked_voltage (ui en) i ch)
    (thresh_high (ui en) i) (thresh_low (ui en) i) = [a] →
  faults en a = Some e →
  ∃ st' e',
    check_thresholds data en st = (st', Raise e') ∧
    threshold_states st' i = threshold_states st i ∧
    alerts i (delivered st') = alerts i (delivered st) ∧
    events_of i (threshold_states st' i)
      (classify (checked_voltage (ui en) i ch)
         (thresh_high (ui en) i) (thresh_low (ui en) i))
      (checked_voltage (ui en) i ch)
      (thresh_high (ui en) i) (thresh_low (ui en) i) = [a].
Proof.
  intros Hch Hen Hev Hf.
  destruct (range4_split i) as (pre & post & Hsplit & Hpre).
  unfold check_thresholds. rewrite Hsplit, for_each_app.
  pose proof (for_each_preserves_in (channel_untouched i) pre
                (check_thresholds_body data) en) as Hpres.
  specialize (Hpres (λ j Hj acc s,
    check_thresholds_body_other data i j acc en s
      (λ Heq, Hpre (eq_ind_r (λ k, k ∈ pre) Hj Heq))) tt st).
  destruct (for_each pre (check_thresholds_body data) tt en st)
    as [st1 [[]|e1]]; simpl in Hpres; destruct Hpres as [T1 A1].
  - simpl. unfold mbind, M_bind at 1.
    rewrite (check_thresholds_body_send_fails data i ch en st1 a e)
      by (rewrite ?T1; done).
    exists st1, e. by rewrite T1.
  - exists st1, e1. by rewrite T1.
Qed.

(** ** Further properties of the smoothing filter *)

Lemma deque_append_last_n {A} m (d : list A) x :
  (length d ≤ m)%nat → deque_append m d x = last_n m (d ++ [x]).
Proof.
  intros Hd. unfold deque_append, last_n. rewrite length_app. simpl.
  case_decide as Hlen.
  - by replace (length d + 1 - m)%nat with 1%nat by lia.
  - by replace (length d + 1 - m)%nat with 0%nat by lia.
Qed.

Lemma last_n_last_n_app {A} m (l l' : list A) :
  last_n m (last_n m l ++ l') = last_n m (l ++ l').
Proof.
  unfold last_n. rewrite !length_app, length_drop.
  destruct (decide (length l ≤ m)%nat) as [Hle|Hgt].
  - replace (length l - m)%nat with 0%nat by lia. rewrite drop_0.
    f_equal. lia.
  - replace (length l - (length l - m) + length l' - m)%nat
      with (length l')%nat by lia.
    replace (length l + length l' - m)%nat
      with ((length l - m) + length l')%nat by lia.
    rewrite <- drop_drop. by rewrite (drop_app_le l l') by lia.
Qed.

Lemma length_last_n {A} m (l : list A) : (length (last_n m l) ≤ m)%nat.
Proof. unfold last_n. rewrite length_drop. lia. Qed.

Section History.

Variable float_of_str : string → option float.
Variable int_of_str : string → option Z.

Abbreviation apply_filters := (apply_filters float_of_str int_of_str).
Abbreviation process_data := (process_data float_of_str int_of_str).
Abbreviation filters_run := (filters_run float_of_str int_of_str).
Abbreviation reads := (reads float_of_str int_of_str).

Lemma apply_filters_reads i data v en st :
  reads i data v →
  filter_buffers (apply_filters data en st).1 i =
  deque_append 50 (filter_buffers st i) v.
Proof.
  intros (chs & entry & r & Hchs & Hr & Hentry & Hread).
  destruct (apply_filters_spec _ _ data chs en st Hchs Hr)
    as (st' & out & E & _ & C).
  rewrite E. simpl. specialize (C i). unfold filter_channel in C.
  rewrite Hentry, Hread in C. simpl in C. by injection C as -> _.
Qed.

(** X7: over successive frames in which the reading of a channel converts,
    the history of the channel is the last 50 of its former content followed
    by the new voltages, in the order of arrival: the oldest readings are
    the ones dropped. *)
Theorem history_is_last_fifty i frames vs en st :
  (length (filter_buffers st i) ≤ 50)%nat →
  Forall2 (reads i) frames vs →
  filter_buffers (filters_run frames en st) i =
  last_n 50 (filter_buffers st i ++ vs).
Proof.
  intros Hlen Hall. revert st Hlen.
  induction Hall as [|data v frames vs Hdv Hall IH]; intros st Hlen; simpl.
  - rewrite app_nil_r. unfold last_n.
    by replace (length (filter_buffers st i) - 50)%nat with 0%nat by lia.
  - rewrite IH.
    + rewrite (apply_filters_reads i data v en st Hdv).
      rewrite deque_append_last_n by done.
      rewrite last_n_last_n_app. by rewrite <- app_assoc.
    + rewrite (apply_filters_reads i data v en st Hdv).
      by apply length_deque_append_le.
Qed.

(** After the filter, a dispatch does not touch the histories, whatever it
    returns. *)
Lemma process_data_buffers data en st :
  filter_buffers (process_data data en st).1 =
  filter_buffers (apply_filters data en st).1.
Proof.
  destruct (apply_filters data en st) as [st1 [out|e]] eqn:E; simpl.
  2:{ by rewrite (process_data_filters_raise _ _ _ _ _ _ _ E). }
  destruct (apply_filters_ok_channels _ _ _ _ _ _ _ E) as [chs Hchs].
  rewrite (process_data_unfold _ _ data chs en st st1 out Hchs E).
  destruct (faults en (Emit_new_data data)); [done|]. cbv zeta.
  set (st2 := set_delivered _ st1).
  set (uf := filtered_radio (ui en)).
  set (od := if uf then _ else _).
  assert (filter_buffers
            ((if logging_active (ui en) && csv_writer (ui en)
              then log_to_csv data uf od else mret ()) en st2).1
          = filter_buffers st1) as FB3.
  { destruct (logging_active (ui en) && csv_writer (ui en)); [|done].
    by destruct (log_to_csv_step data uf od en st2) as [-> _]. }
  destruct ((if logging_active (ui en) && csv_writer (ui en)
             then log_to_csv data uf od else mret ()) en st2)
    as [st3 [[]|e3]]; simpl in *; [|done].
  assert (filter_buffers
            ((if streaming_active (ui en)
              then send_osc uf od out else mret ()) en st3).1
          = filter_buffers st1) as FB4.
  { destruct (streaming_active (ui en)); [|done].
    by destruct (send_osc_telemetry uf od out en st3) as [-> _]. }
  by destruct ((if streaming_active (ui en)
                then send_osc uf od out else mret ()) en st3)
    as [st4 [[]|e4]].
Qed.

(** X8: the filter is not idempotent on a frame.  When a frame is
    dispatched and then filtered once more, as the display slot
    [handle_new_data] does first with every frame that the dispatcher
    emits, the reading of a channel enters its history twice, whichever
    calls raise in the dispatch. *)
Theorem refiltering_appends_twice i data v en en' st :
  reads i data v →
  filter_buffers (apply_filters data en' (process_data data en st).1).1 i =
  deque_append 50 (deque_append 50 (filter_buffers st i) v) v.
Proof.
  intros Hr. rewrite (apply_filters_reads i data v en' _ Hr).
  by rewrite process_data_buffers, (apply_filters_reads i data v en st Hr).
Qed.

End History.

(** ** Further properties of the log *)

Lemma row_loop_cells uf od l row en st st' row' :
  for_each l (row_body uf od) row en st = (st', Ok row') →
  row' = row ++ mjoin (logged_cells uf od <$> l).
Proof.
  revert row. induction l as [|i l IH]; intros row; simpl.
  - unfold_monad. intros [= _ <-]. by rewrite app_nil_r.
  - unfold mbind, M_bind at 1. unfold row_body at 1, logged_cells at 1.
    unfold member.
    destruct (od !! str i) as [e|]; unfold_monad.
    + destruct (py_getitem e "raw"); simpl; [|done].
      destruct (py_getitem e _); simpl; [|done].
      intros H%IH. rewrite H, <- app_assoc. done.
    + intros H%IH. rewrite H, <- app_assoc. done.
Qed.

Lemma log_to_csv_row data uf od en st :
  non_telemetry_ok en →
  out_ok uf od →
  ∃ st' admin,
    log_to_csv data uf od en st = (st', Ok tt) ∧
    delivered st' =
      delivered st ++
      Writerow ([PStr (now_iso en); default (PInt 0) (timestamp data)] ++
                mjoin (logged_cells uf od <$> range4)) :: admin ∧
    Forall (λ c, is_send c = false ∧ is_row c = false) admin.
Proof.
  intros Hnt Hok. unfold log_to_csv.
  unfold mbind, M_bind at 1. unfold ask at 1.
  unfold mbind, M_bind at 1.
  destruct (row_loop_ok uf od range4
              [PStr (now_iso en); default (PInt 0) (timestamp data)] en st Hok)
    as [row Hrow].
  rewrite Hrow. apply row_loop_cells in Hrow. rewrite <- Hrow. clear Hrow.
  unfold_monad. rewrite (Hnt (Writerow row)) by done. simpl.
  case_bool_decide; cbv beta;
    rewrite ?(Hnt (Set_row_label _)) by done; simpl;
    (case_bool_decide; cbv beta; rewrite ?(Hnt Flush) by done; simpl);
    eexists _, _; (split; [reflexivity|]); simpl;
    rewrite <- ?app_assoc; simpl;
    (split; [reflexivity|]); by repeat constructor.
Qed.

Lemma logged_cells_filtered out i :
  logged_cells true (dict_of_out <$> out) i =
  match out !! str i with
  | Some o => [PInt (raw o); PFloat (filtered_voltage o)]
  | None => [PInt 0; PFloat 0]
  end.
Proof.
  unfold logged_cells. rewrite lookup_fmap.
  by destruct (out !! str i) as [o|].
Qed.

Section Log.

Variable float_of_str : string → option float.
Variable int_of_str : string → option Z.

Abbreviation apply_filters := (apply_filters float_of_str int_of_str).
Abbreviation process_data := (process_data float_of_str int_of_str).
Abbreviation frame_readable := (frame_readable float_of_str int_of_str).

(** X9: the layout of a log row.  With logging on and nothing but telemetry
    raising, the dispatch of a frame writes one row, before any message:
    the local time stamp, the time stamp of the frame or 0, then for each
    of the four channels in order its two cells.  In raw mode the cells are
    the count and the voltage as the frame holds them; in filtered mode
    they are the converted count and the filtered voltage that
    [apply_filters] returned; a channel with no entry in the dict that is
    logged gets the placeholders 0 and 0.0. *)
Theorem log_row_layout data chs en st :
  channels data = Some chs →
  frame_readable chs = true →
  frame_subscriptable chs = true →
  non_telemetry_ok en →
  logging_active (ui en) = true →
  csv_writer (ui en) = true →
  ∃ st' res st1 out admin sends,
    process_data data en st = (st', res) ∧
    apply_filters data en st = (st1, Ok out) ∧
    delivered st' =
      delivered st ++
      Emit_new_data data ::
      Writerow ([PStr (now_iso en); default (PInt 0) (timestamp data)] ++
                mjoin ((if filtered_radio (ui en)
                        then λ i, match out !! str i with
                                  | Some o => [PInt (raw o); PFloat (filtered_voltage o)]
                                  | None => [PInt 0; PFloat 0]
                                  end
                        else logged_cells false chs) <$> range4)) ::
      admin ++ sends ∧
    Forall (λ c, is_send c = false ∧ is_row c = false) admin ∧
    Forall (λ c, is_send c = true) sends.
Proof.
  intros Hchs Hr Hs Hnt Hlog Hcsv.
  destruct (apply_filters_spec _ _ data chs en st Hchs Hr)
    as (st1 & out & E & (_ & _ & _ & _ & D1) & _).
  rewrite (process_data_unfold _ _ data chs en st st1 out Hchs E).
  rewrite (Hnt (Emit_new_data data)) by done. cbv zeta.
  rewrite Hlog, Hcsv. simpl.
  set (st2 := set_delivered _ st1).
  set (od := if filtered_radio (ui en) then _ else _).
  assert (out_ok (filtered_radio (ui en)) od) as Hok by (by apply out_ok_output).
  destruct (log_to_csv_row data (filtered_radio (ui en)) od en st2 Hnt Hok)
    as (st3 & admin & -> & D3 & Hadmin).
  assert (logged_cells (filtered_radio (ui en)) od <$> range4 =
          (if filtered_radio (ui en)
           then λ i, match out !! str i with
                     | Some o => [PInt (raw o); PFloat (filtered_voltage o)]
                     | None => [PInt 0; PFloat 0]
                     end
           else logged_cells false chs) <$> range4) as Hcells.
  { unfold od. destruct (filtered_radio (ui en)); [|done].
    apply Forall_fmap_ext, Forall_forall. intros i _.
    apply logged_cells_filtered. }
  rewrite Hcells in D3. clear Hcells.
  assert (∃ st4 res sends,
            (if streaming_active (ui en)
             then send_osc (filtered_radio (ui en)) od out else mret tt)
              en st3 = (st4, res) ∧
            delivered st4 = delivered st3 ++ sends ∧
            Forall (λ c, is_send c = true) sends)
    as (st4 & res & sends & -> & D4 & Hsends).
  { destruct (streaming_active (ui en)).
    - pose proof (send_osc_telemetry (filtered_radio (ui en)) od out en st3)
        as (_ & _ & _ & _ & sends & ? & ?).
      destruct (send_osc _ od out en st3) as [st4 res].
      by exists st4, res, sends.
    - exists st3, (Ok tt), []. unfold_monad. by rewrite app_nil_r. }
  assert (delivered st4 = delivered st ++ Emit_new_data data ::
            Writerow ([PStr (now_iso en); default (PInt 0) (timestamp data)] ++
              mjoin ((if filtered_radio (ui en)
                      then λ i, match out !! str i with
                                | Some o => [PInt (raw o); PFloat (filtered_voltage o)]
                                | None => [PInt 0; PFloat 0]
                                end
                      else logged_cells false chs) <$> range4)) ::
            admin ++ sends) as D.
  { rewrite D4, D3. unfold st2. simpl. rewrite D1, <- !app_assoc. done. }
  destruct res as [[]|e].
  - eexists _, _, st1, out, admin, sends. split; [reflexivity|]. done.
  - eexists _, _, st1, out, admin, sends. split; [reflexivity|]. done.
Qed.

End Log.

(** ** The output switch and the alerts *)

#[global] Instance same_alerts_refl i : Reflexive (same_alerts i).
Proof. by intros st. Qed.

#[global] Instance same_alerts_trans i : Transitive (same_alerts i).
Proof. intros st1 st2 st3 H1 H2. unfold same_alerts in *. congruence. Qed.

Lemma alerts_non_send i l :
  Forall (λ c, is_send c = false) l → alerts i l = [].
Proof.
  induction 1 as [|c l Hc _ IH]; [done|].
  unfold alerts in *. rewrite filter_cons_False; [exact IH|].
  destruct c; simpl in *; try done; by intros [].
Qed.

Lemma alerts_data_message i j kind arg :
  kind = "raw" ∨ kind = "voltage" →
  alerts i [Send_message (data_addr j kind) arg] = [].
Proof. intros [-> | ->]; destruct i, j; vm_compute; reflexivity. Qed.

Lemma osc_body_alerts uf od j acc en st i :
  same_alerts i st (osc_body uf od j acc en st).1.
Proof.
  unfold osc_body, same_alerts. destruct (od !! str j) as [e|]; [|done].
  unfold_monad.
  destruct (py_getitem e "raw") as [r|]; simpl; [|done].
  destruct (faults en _); simpl; [done|].
  destruct (py_getitem e _) as [v|]; simpl.
  - destruct (faults en _); simpl.
    + rewrite alerts_app, alerts_data_message, app_nil_r; auto.
    + rewrite !alerts_app, !alerts_data_message, !app_nil_r; auto.
  - rewrite alerts_app, alerts_data_message, app_nil_r; auto.
Qed.

Lemma send_osc_quiet uf od fd en st :
  no_faults en → out_ok uf od →
  ∃ st1 st',
    send_osc uf od fd en st = (st', Ok tt) ∧
    check_thresholds fd en st1 = (st', Ok tt) ∧
    threshold_states st1 = threshold_states st ∧
    ∀ i, alerts i (delivered st1) = alerts i (delivered st).
Proof.
  intros Hnf Hok.
  destruct (for_each_ok range4 (osc_body uf od) en
              (λ i s, osc_body_ok uf od i en s Hnf Hok) st) as [st1 E1].
  destruct (check_thresholds_spec fd en st1 Hnf) as (st' & E & _).
  exists st1, st'. split.
  { unfold send_osc. unfold mbind, M_bind. by rewrite E1. }
  split; [done|]. split.
  - pose proof (for_each_preserves
                  (λ s s' : state, threshold_states s' = threshold_states s)
                  range4 (osc_body uf od) en
                  (λ i acc s, osc_body_thresholds uf od i acc en s) tt st) as H1.
    by rewrite E1 in H1.
  - intros i.
    pose proof (for_each_preserves (same_alerts i) range4 (osc_body uf od) en
                  (λ j acc s, osc_body_alerts uf od j acc en s i) tt st) as H1.
    by rewrite E1 in H1.
Qed.

Section OutputMode.

Variable float_of_str : string → option float.
Variable int_of_str : string → option Z.

Abbreviation apply_filters := (apply_filters float_of_str int_of_str).
Abbreviation process_data := (process_data float_of_str int_of_str).
Abbreviation frame_readable := (frame_readable float_of_str int_of_str).
Abbreviation filter_channel := (filter_channel float_of_str int_of_str).

(** A dispatch in which nothing raises: what it does to the stored
    classification and to the alerts of each channel. *)
Lemma process_data_quiet data chs en st :
  channels data = Some chs →
  frame_readable chs = true →
  frame_subscriptable chs = true →
  no_faults en →
  ∃ st',
    process_data data en st = (st', Ok tt) ∧
    ∀ i,
      let entry := (filter_channel (ui en) i (filter_buffers st i)
                      (chs !! str i)).2 in
      threshold_states st' i =
        (if streaming_active (ui en)
         then (threshold_channel (ui en) i (threshold_states st i) entry).1
         else threshold_states st i) ∧
      alerts i (delivered st') =
        alerts i (delivered st) ++
        (if streaming_active (ui en)
         then (threshold_channel (ui en) i (threshold_states st i) entry).2
         else []).
Proof.
  intros Hchs Hr Hs Hnf.
  destruct (apply_filters_spec _ _ data chs en st Hchs Hr)
    as (st1 & out & E & (TS1 & _ & _ & _ & D1) & C).
  rewrite (process_data_unfold _ _ data chs en st st1 out Hchs E), Hnf.
  cbv zeta.
  set (st2 := set_delivered _ st1).
  set (uf := filtered_radio (ui en)).
  set (od := if uf then _ else _).
  assert (out_ok uf od) as Hok by (by apply out_ok_output).
  destruct (log_block_spec data uf od en st2
              (no_faults_non_telemetry_ok en Hnf) Hok)
    as (st3 & l3 & -> & _ & TS3 & _ & _ & D3 & F3 & _).
  assert (∀ i, alerts i (delivered st3) = alerts i (delivered st)) as A3.
  { intros i. rewrite D3. unfold st2. simpl. rewrite D1, !alerts_app.
    rewrite (alerts_non_send i l3 F3), app_nil_r.
    change (alerts i [Emit_new_data data]) with (@nil call).
    by rewrite app_nil_r. }
  assert (∀ i, (filter_channel (ui en) i (filter_buffers st i) (chs !! str i)).2
               = out !! str i) as Hout.
  { intros i. by rewrite <- (C i). }
  destruct (streaming_active (ui en)) eqn:Hstream.
  - destruct (send_osc_quiet uf od out en st3 Hnf Hok)
      as (st4 & st5 & -> & E5 & TS4 & A4).
    destruct (check_thresholds_spec out en st4 Hnf) as (st5' & E5' & _ & T5).
    rewrite E5 in E5'. injection E5' as <-.
    eexists. split; [reflexivity|]. intros i. simpl.
    destruct (T5 i) as [-> ->].
    by rewrite Hout, TS4, TS3, A4, A3, <- TS1.
  - unfold_monad. eexists. split; [reflexivity|]. intros i. simpl.
    by rewrite TS3, A3, app_nil_r, <- TS1.
Qed.

(** X10: the output switch (raw or filtered) decides what is logged and
    sent, and nothing else: in a dispatch in which nothing raises, the
    stored classification and the alerts of every channel are the same
    with the switch either way. *)
Theorem output_mode_leaves_alerts data chs en st b i :
  channels data = Some chs →
  frame_readable chs = true →
  frame_subscriptable chs = true →
  no_faults en →
  threshold_states (process_data data (with_output_mode b en) st).1 i =
    threshold_states (process_data data en st).1 i ∧
  alerts i (delivered (process_data data (with_output_mode b en) st).1) =
    alerts i (delivered (process_data data en st).1).
Proof.
  intros Hchs Hr Hs Hnf.
  destruct (process_data_quiet data chs en st Hchs Hr Hs Hnf) as (st1 & -> & H1).
  destruct (process_data_quiet data chs (with_output_mode b en) st Hchs Hr Hs)
    as (st2 & -> & H2); [exact Hnf|].
  simpl. destruct (H1 i) as [-> ->]. destruct (H2 i) as [-> ->]. done.
Qed.

End OutputMode.

(** ** The serial transport *)

Lemma split_newline_None s : split_newline s = None ↔ has_newline s = false.
Proof.
  induction s as [|c s IH]; simpl; [done|].
  case_decide as Hc.
  - rewrite bool_decide_eq_true_2 by done. done.
  - rewrite bool_decide_eq_false_2 by done. simpl.
    destruct (split_newline s) as [[l r]|]; [|done].
    split; [done|]. intros H%IH. done.
Qed.

Lemma split_newline_length s l r :
  split_newline s = Some (l, r) → (String.length r < String.length s)%nat.
Proof.
  revert l. induction s as [|c s IH]; intros l; simpl; [done|].
  case_decide.
  - intros [= _ <-]. lia.
  - destruct (split_newline s) as [[l' r']|]; [|done].
    intros [= _ <-]. specialize (IH l' eq_refl). lia.
Qed.

Lemma split_newline_unsplit s l r :
  split_newline s = Some (l, r) →
  s = l +:+ String newline r ∧ has_newline l = false.
Proof.
  revert l. induction s as [|c s IH]; intros l; simpl; [done|].
  case_decide as Hc.
  - intros [= <- <-]. by subst c.
  - destruct (split_newline s) as [[l' r']|]; [|done].
    intros [= <- <-]. destruct (IH l' eq_refl) as [-> Hl]. simpl.
    by rewrite bool_decide_eq_false_2.
Qed.

Lemma lines_of_split s :
  match split_newline s with
  | Some (l, r) => lines_of s = (l :: (lines_of r).1, (lines_of r).2)
  | None => lines_of s = ([], s)
  end.
Proof.
  induction s as [|c s IH]; simpl; [done|].
  case_decide as Hc.
  - by destruct (lines_of s).
  - destruct (split_newline s) as [[l r]|].
    + rewrite IH. done.
    + rewrite IH. done.
Qed.

Lemma unlines_lines_of s : unlines (lines_of s).1 (lines_of s).2 = s.
Proof.
  induction s as [|c s IH]; simpl; [done|].
  destruct (lines_of s) as [ls r]. simpl in IH. case_decide as Hc.
  - simpl. by rewrite IH, Hc.
  - destruct ls as [|l ls]; simpl in *; by rewrite <- IH.
Qed.

Lemma lines_of_no_newline s :
  Forall (λ l, has_newline l = false) (lines_of s).1 ∧
  has_newline (lines_of s).2 = false.
Proof.
  induction s as [|c s IH]; simpl; [done|].
  destruct (lines_of s) as [ls r]. simpl in IH. destruct IH as [Hls Hr].
  case_decide as Hc.
  - simpl. split; [by constructor|done].
  - destruct ls as [|l ls]; simpl.
    + split; [done|]. by rewrite bool_decide_eq_false_2.
    + apply Forall_cons in Hls as [Hl Hls]. split; [|done].
      constructor; [|done]. simpl. by rewrite bool_decide_eq_false_2.
Qed.

Lemma lines_of_app s t :
  lines_of (s +:+ t) =
  ((lines_of s).1 ++ (lines_of ((lines_of s).2 +:+ t)).1,
   (lines_of ((lines_of s).2 +:+ t)).2).
Proof.
  induction s as [|c s IH].
  - simpl. change ("" +:+ t) with t. by destruct (lines_of t).
  - change (String c s +:+ t) with (String c (s +:+ t)). simpl.
    rewrite IH. destruct (lines_of s) as [ls r]. simpl.
    case_decide as Hc; [done|].
    destruct ls as [|l ls]; simpl.
    + change (String c r +:+ t) with (String c (r +:+ t)). simpl.
      destruct (lines_of (r +:+ t)) as [[|l2 ls2] r2]; simpl;
        by rewrite decide_False by done.
    + done.
Qed.

Section SerialFacts.

Variable float_of_str : string → option float.
Variable int_of_str : string → option Z.
Variable strip : string → string.
Variable json_loads : string → option frame.

Abbreviation serial_line := (serial_line float_of_str int_of_str strip json_loads).
Abbreviation serial_drain := (serial_drain float_of_str int_of_str strip json_loads).
Abbreviation serial_read := (serial_read float_of_str int_of_str strip json_loads).
Abbreviation run_lines := (run_lines float_of_str int_of_str strip json_loads).
Abbreviation no_frame := (no_frame strip json_loads).

Lemma serial_drain_run_lines budget k buffer cycles st :
  (String.length buffer < budget)%nat →
  serial_drain budget k buffer cycles st =
  run_lines k (lines_of buffer).1 (lines_of buffer).2 cycles st.
Proof.
  revert k buffer st. induction budget as [|budget IH]; intros k buffer st Hlen;
    [lia|]. simpl.
  pose proof (lines_of_split buffer) as Hsplit.
  destruct (split_newline buffer) as [[l r]|] eqn:Hs.
  - rewrite Hsplit. simpl.
    destruct (serial_line l (cycles k) st) as [st' [[]|e]].
    + apply IH. apply split_newline_length in Hs. lia.
    + by rewrite unlines_lines_of.
  - by rewrite Hsplit.
Qed.

(** X11: the framing of the serial stream.  The loop dispatches the
    complete lines of the buffer in the order of arrival and keeps the text
    after the last line feed for the next turn; when a dispatch raises, the
    lines it had not reached are kept as well.  Nothing is lost or made up:
    the lines, each with its line feed, followed by the text kept, are the
    buffer. *)
Theorem serial_framing buffer cycles st :
  serial_drain (S (String.length buffer)) 0 buffer cycles st =
    run_lines 0 (lines_of buffer).1 (lines_of buffer).2 cycles st ∧
  unlines (lines_of buffer).1 (lines_of buffer).2 = buffer ∧
  Forall (λ l, has_newline l = false) (lines_of buffer).1 ∧
  has_newline (lines_of buffer).2 = false.
Proof.
  split; [apply serial_drain_run_lines; lia|].
  split; [apply unlines_lines_of|]. apply lines_of_no_newline.
Qed.

Lemma serial_line_no_frame l en st :
  no_frame l = true → serial_line l en st = (st, Ok tt).
Proof.
  unfold no_frame, serial_line. intros H.
  destruct (starts_with_brace (strip l)); simpl in *; [|done].
  destruct (json_loads (strip l)) as [data|]; [|done].
  destruct (channels data); [|done].
  by rewrite bool_decide_eq_true_2 in H by done.
Qed.

Lemma run_lines_no_frames k ls r cycles st :
  Forall (λ l, no_frame l = true) ls →
  run_lines k ls r cycles st = (st, r, Ok tt).
Proof.
  intros Hall. revert k. induction Hall as [|l ls Hl _ IH]; intros k; simpl.
  - done.
  - rewrite serial_line_no_frame by done. apply IH.
Qed.

(** X12: records that are no frames do no harm.  When none of the complete
    lines of a turn is a frame (stripped, a line does not open with a brace,
    or does not decode, or decodes to an object without channels), the turn
    changes nothing in the window object, counts no error, and keeps the
    text after the last line feed. *)
Theorem malformed_lines_are_dropped o buffer chunk st :
  incoming o = Ok (Some chunk) →
  Forall (λ l, no_frame l = true) (lines_of (buffer +:+ chunk)).1 →
  serial_read o buffer st = (st, (lines_of (buffer +:+ chunk)).2).
Proof.
  intros Hin Hall. unfold serial_read. rewrite Hin.
  rewrite serial_drain_run_lines by lia.
  by rewrite run_lines_no_frames.
Qed.

Lemma run_lines_shift n k ls r cycles st :
  run_lines (n + k) ls r cycles st = run_lines k ls r (λ j, cycles (n + j)%nat) st.
Proof.
  revert k st. induction ls as [|l ls IH]; intros k st; simpl; [done|].
  destruct (serial_line l (cycles (n + k)%nat) st) as [st' [[]|e]]; [|done].
  rewrite <- IH. f_equal. lia.
Qed.

Lemma run_lines_app k l1 l2 r1 r cycles st st1 r1' :
  run_lines k l1 r1 cycles st = (st1, r1', Ok tt) →
  r1' = r1 ∧
  run_lines k (l1 ++ l2) r cycles st =
  run_lines (length l1 + k) l2 r cycles st1.
Proof.
  revert k st. induction l1 as [|l l1 IH]; intros k st; simpl.
  - by intros [= <- <-].
  - destruct (serial_line l (cycles k) st) as [st' [[]|e]]; [|done].
    intros H. destruct (IH _ _ H) as [-> ->]. split; [done|].
    f_equal. lia.
Qed.

(** Text that arrives in two pieces, once the first is dispatched, is
    dispatched as the whole text would have been. *)
Lemma serial_drain_pieces buffer a b cycles st st1 r1 :
  serial_drain (S (String.length (buffer +:+ a))) 0 (buffer +:+ a) cycles st
    = (st1, r1, Ok tt) →
  serial_drain (S (String.length (r1 +:+ b))) 0 (r1 +:+ b)
    (λ k, cycles (length (lines_of (buffer +:+ a)).1 + k)%nat) st1 =
  serial_drain (S (String.length ((buffer +:+ a) +:+ b))) 0
    ((buffer +:+ a) +:+ b) cycles st.
Proof.
  rewrite !serial_drain_run_lines by lia. intros H1.
  rewrite (lines_of_app (buffer +:+ a) b). simpl.
  destruct (run_lines_app 0 _ (lines_of ((lines_of (buffer +:+ a)).2 +:+ b)).1
              _ (lines_of ((lines_of (buffer +:+ a)).2 +:+ b)).2 _ _ _ _ H1)
    as [-> ->].
  by rewrite run_lines_shift.
Qed.

Lemma append_assoc_text (s t u : string) : s +:+ (t +:+ u) = (s +:+ t) +:+ u.
Proof.
  induction s as [|c s IH]; [done|].
  change (String c s +:+ (t +:+ u)) with (String c (s +:+ (t +:+ u))).
  change ((String c s +:+ t) +:+ u) with (String c ((s +:+ t) +:+ u)).
  by rewrite IH.
Qed.

Variable utf8_decode : list Byte.byte → string.

Abbreviation port_delivers := (port_delivers utf8_decode).

(** X13: bytes that arrive in two reads are dispatched as if they had
    arrived in one, provided the cut falls between two characters.  Each
    read is decoded on its own, so the proviso is that decoding the two
    pieces gives the two parts of the decoded whole (a sequence of several
    bytes cut by the read would be left out of both pieces).  Then, when
    the lines of the first read are dispatched without an exception, the
    turn of the second read leaves the window object and the buffer as one
    turn reading all the bytes would have, the surroundings of each line
    being the same in both cases: a record that arrives in two pieces is
    dispatched once, whole. *)
Theorem chunking_does_not_matter buffer a b cycles now now' st st1 r1 :
  utf8_decode (a ++ b) = utf8_decode a +:+ utf8_decode b →
  serial_drain (S (String.length (buffer +:+ utf8_decode a))) 0
    (buffer +:+ utf8_decode a) cycles st = (st1, r1, Ok tt) →
  let first := serial_read (port_delivers a cycles now) buffer st in
  let later :=
    λ k, cycles (length (lines_of (buffer +:+ utf8_decode a)).1 + k)%nat in
  first = (st1, r1) ∧
  serial_read (port_delivers b later now') first.2 first.1 =
  serial_read (port_delivers (a ++ b) cycles now) buffer st.
Proof.
  intros Hcut H1 first later.
  assert (first = (st1, r1)) as Hfirst.
  { unfold first, serial_read, port_delivers. cbn [incoming line_cycle].
    cbv zeta. by rewrite H1. }
  split; [done|]. rewrite Hfirst.
  unfold serial_read, port_delivers. cbn [incoming line_cycle fst snd].
  cbv zeta. rewrite Hcut, append_assoc_text.
  unfold later.
  by rewrite (serial_drain_pieces buffer (utf8_decode a) (utf8_decode b)
                cycles st st1 r1 H1).
Qed.

End SerialFacts.

(** ** Frames without readings *)

Lemma for_each_skip {A} (l : list A) (body : A → unit → M unit) en st :
  (∀ i s, body i tt en s = (s, Ok tt)) →
  for_each l body tt en st = (st, Ok tt).
Proof.
  intros Hbody. induction l as [|i l IH]; simpl; [done|].
  unfold mbind, M_bind. by rewrite Hbody.
Qed.

Lemma send_osc_nothing uf od fd en st :
  (∀ i, od !! str i = None) →
  (∀ i, fd !! str i = None) →
  send_osc uf od fd en st = (st, Ok tt).
Proof.
  intros Hod Hfd. unfold send_osc, check_thresholds.
  unfold mbind, M_bind.
  rewrite for_each_skip.
  - apply for_each_skip. intros i s. unfold check_thresholds_body.
    unfold_monad. by rewrite Hfd.
  - intros i s. unfold osc_body. by rewrite Hod.
Qed.

Section EmptyFrames.

Variable float_of_str : string → option float.
Variable int_of_str : string → option Z.

Abbreviation apply_filters := (apply_filters float_of_str int_of_str).
Abbreviation process_data := (process_data float_of_str int_of_str).
Abbreviation fetch_and_dispatch := (fetch_and_dispatch float_of_str int_of_str).
Abbreviation frame_readable := (frame_readable float_of_str int_of_str).

(** X14: a request that fails, or a payload without a [channels] member,
    reaches no sink and touches no history: the attempt only advances the
    error counter. *)
Theorem unusable_response_counts_error o st :
  (∃ e, response o = Raise e) ∨
  (∃ data, response o = Ok data ∧ channels data = None) →
  fetch_and_dispatch o st = set_error_count (error_count st + 1) st.
Proof.
  unfold fetch_and_dispatch. intros [[e ->]|(data & -> & Hchs)]; [done|].
  assert (apply_filters data (cycle o) st = (st, Raise KeyError)) as E.
  { unfold apply_filters. unfold_monad. by rewrite Hchs. }
  by rewrite (process_data_filters_raise _ _ _ _ _ _ _ E).
Qed.

(** X15: a frame with a [channels] member that holds none of the four
    channels is a sample like any other.  When nothing but telemetry
    raises, its dispatch returns and counts one sample; no history and no
    stored classification changes; no message is sent, telemetry on or
    off; and with logging on the row written holds the placeholders 0 and
    0.0 for all four channels. *)
Theorem empty_frame_is_a_sample data chs en st :
  channels data = Some chs →
  (∀ i, chs !! str i = None) →
  non_telemetry_ok en →
  ∃ st' l,
    process_data data en st = (st', Ok tt) ∧
    sample_count st' = sample_count st + 1 ∧
    (∀ i, filter_buffers st' i = filter_buffers st i) ∧
    threshold_states st' = threshold_states st ∧
    delivered st' = delivered st ++ Emit_new_data data :: l ∧
    Forall (λ c, is_send c = false) l ∧
    (logging_active (ui en) && csv_writer (ui en) = true →
     ∃ admin,
       l = Writerow [PStr (now_iso en); default (PInt 0) (timestamp data);
                     PInt 0; PFloat 0; PInt 0; PFloat 0;
                     PInt 0; PFloat 0; PInt 0; PFloat 0] :: admin).
Proof.
  intros Hchs Hnone Hnt.
  assert (frame_readable chs = true) as Hr.
  { unfold frame_readable.
    apply forallb_forall. intros i _. by rewrite Hnone. }
  destruct (apply_filters_spec _ _ data chs en st Hchs Hr)
    as (st1 & out & E & (TS1 & RC1 & SC1 & EC1 & D1) & B).
  assert (∀ i, filter_buffers st1 i = filter_buffers st i ∧ out !! str i = None)
    as Hout.
  { intros i. specialize (B i). rewrite Hnone in B. simpl in B.
    by inversion B. }
  set (uf := filtered_radio (ui en)).
  set (od := if uf then dict_of_out <$> out else chs).
  assert (∀ i, od !! str i = None) as Hod.
  { intros i. unfold od. destruct uf; [|done].
    rewrite lookup_fmap. by rewrite (proj2 (Hout i)). }
  assert (out_ok uf od) as Hok.
  { intros i e He. by rewrite Hod in He. }
  assert (mjoin (logged_cells uf od <$> range4) =
          [PInt 0; PFloat 0; PInt 0; PFloat 0;
           PInt 0; PFloat 0; PInt 0; PFloat 0]) as Hcells.
  { unfold logged_cells.
    pose proof (Hod Ch0) as H0. pose proof (Hod Ch1) as H1.
    pose proof (Hod Ch2) as H2. pose proof (Hod Ch3) as H3.
    simpl in *. by rewrite H0, H1, H2, H3. }
  rewrite (process_data_unfold _ _ data chs en st st1 out Hchs E).
  rewrite (Hnt (Emit_new_data data)) by done. cbv zeta.
  fold uf. fold od.
  set (st2 := set_delivered (delivered st1 ++ [Emit_new_data data]) st1).
  destruct (logging_active (ui en) && csv_writer (ui en)) eqn:Hlog.
  - destruct (log_to_csv_row data uf od en st2 Hnt Hok)
      as (st3 & admin & E3 & D3 & F3).
    pose proof (log_to_csv_step data uf od en st2) as S3.
    rewrite E3 in S3. simpl in S3.
    rewrite E3.
    assert ((if streaming_active (ui en) then send_osc uf od out else mret tt)
              en st3 = (st3, Ok tt)) as ->.
    { destruct (streaming_active (ui en)); [|done].
      apply send_osc_nothing; [done|]. intros i. apply Hout. }
    eexists _, _. split; [reflexivity|]. simpl.
    destruct S3 as (B3 & T3 & SC3 & EC3 & _).
    rewrite Hcells in D3.
    split; [by rewrite SC3, <- SC1|].
    split; [intros i; by rewrite B3; apply Hout|].
    split; [by rewrite T3|].
    split.
    { rewrite D3. unfold st2. simpl. rewrite D1, <- app_assoc. reflexivity. }
    split.
    { constructor; [done|]. eapply Forall_impl; [exact F3|]. by intros ? []. }
    intros _. by eexists.
  - assert ((if streaming_active (ui en) then send_osc uf od out else mret tt)
              en st2 = (st2, Ok tt)) as Hs.
    { destruct (streaming_active (ui en)); [|done].
      apply send_osc_nothing; [done|]. intros i. apply Hout. }
    change ((mret tt : M unit) en st2) with (st2, Ok tt : result unit).
    cbv iota beta. rewrite Hs.
    exists (set_sample_count (sample_count st2 + 1) st2), [].
    split; [reflexivity|]. simpl.
    split; [by rewrite SC1|].
    split; [intros i; apply Hout|].
    split; [done|].
    split; [by rewrite D1|].
    split; [constructor|]. done.
Qed.

End EmptyFrames.

(** ** The serial loop *)

Section SerialLoop.

Variable float_of_str : string → option float.
Variable int_of_str : string → option Z.
Variable strip : string → string.
Variable json_loads : string → option frame.

Abbreviation process_data := (process_data float_of_str int_of_str).
Abbreviation serial_line := (serial_line float_of_str int_of_str strip json_loads).
Abbreviation serial_drain := (serial_drain float_of_str int_of_str strip json_loads).
Abbreviation serial_read := (serial_read float_of_str int_of_str strip json_loads).
Abbreviation serial_body := (serial_body float_of_str int_of_str strip json_loads).
Abbreviation serial_loop := (serial_loop float_of_str int_of_str strip json_loads).

Lemma lines_step_refl st : lines_step st st.
Proof. unfold lines_step. split; [done|]. split; [lia|done]. Qed.

Lemma lines_step_trans st1 st2 st3 :
  lines_step st1 st2 → lines_step st2 st3 → lines_step st1 st3.
Proof.
  intros (E1 & S1 & B1) (E2 & S2 & B2). unfold lines_step.
  split; [congruence|]. split; [lia|auto].
Qed.

Lemma serial_line_step line en st :
  lines_step st (serial_line line en st).1.
Proof.
  unfold serial_line.
  destruct (starts_with_brace (strip line)); [|apply lines_step_refl].
  destruct (json_loads (strip line)) as [data|]; [|apply lines_step_refl].
  destruct (channels data); [|apply lines_step_refl].
  pose proof (process_data_effect float_of_str int_of_str data en st)
    as (HB & EC & SC & _).
  split; [done|]. split; [|done].
  destruct (is_ok _); lia.
Qed.

Lemma serial_drain_step budget k buffer cycles st :
  lines_step st (serial_drain budget k buffer cycles st).1.1.
Proof.
  revert k buffer st. induction budget as [|budget IH]; intros k buffer st;
    simpl; [apply lines_step_refl|].
  destruct (split_newline buffer) as [[l r]|]; [|apply lines_step_refl].
  pose proof (serial_line_step l (cycles k) st) as Hl.
  destruct (serial_line l (cycles k) st) as [st' [[]|e]]; simpl in *.
  - eapply lines_step_trans; [exact Hl|apply IH].
  - done.
Qed.

Lemma serial_read_step o buffer st :
  turns_step 1 st (serial_read o buffer st).1.
Proof.
  unfold serial_read, turns_step.
  destruct (incoming o) as [[chunk|]|e]; cbv zeta.
  - pose proof (serial_drain_step (S (String.length (buffer +:+ chunk))) 0
                  (buffer +:+ chunk) (line_cycle o) st) as (EC & SC & HB).
    destruct (serial_drain (S (String.length (buffer +:+ chunk))) 0
                (buffer +:+ chunk) (line_cycle o) st)
      as [[st' b'] [[]|e]]; simpl in *.
    + split; [lia|]. done.
    + split; [lia|]. done.
  - simpl. split; [lia|]. split; [lia|done].
  - simpl. split; [lia|]. split; [lia|done].
Qed.

Lemma serial_body_step interval o ss :
  turns_step 1 (serial_app ss) (serial_app (serial_body interval o ss)).
Proof.
  unfold serial_body.
  destruct (serial_current_time o <? serial_next_sample_time ss)%float.
  - simpl. unfold turns_step. simpl. split; [lia|]. split; [lia|done].
  - pose proof (serial_read_step o (line_buffer ss) (serial_app ss)) as H.
    by destruct (serial_read o (line_buffer ss) (serial_app ss)).
Qed.

(** X16: a turn of the serial loop counts at most one error, however many
    records it reads: the first dispatch that raises ends the turn, and a
    record that is dropped counts none.  So over any run the error counter
    advances by at most the number of turns; the sample counter never goes
    back; and histories within the bound of 50 readings stay within it. *)
Theorem serial_errors_once_a_turn interval obs ss :
  let st := serial_app ss in
  let st' := serial_app (serial_loop interval obs ss).1 in
  error_count st ≤ error_count st' ≤ error_count st + Z.of_nat (length obs) ∧
  sample_count st ≤ sample_count st' ∧
  (histories_bounded st → histories_bounded st').
Proof.
  cbv zeta. revert ss. induction obs as [|o obs IH]; intros ss.
  - simpl. split; [lia|]. split; [lia|done].
  - cbn [serial_loop length]. destruct (serial_running o).
    + destruct (IH (serial_body interval o ss)) as (E & S & B).
      destruct (serial_body_step interval o ss) as (E1 & S1 & B1).
      split; [lia|]. split; [lia|auto].
    + simpl. split; [lia|]. split; [lia|done].
Qed.

End SerialLoop.

(** ** Opening a log *)

Lemma free_index_spec present base fuel k n :
  free_index present base fuel k = Some n ↔
  (k ≤ n < k + fuel)%nat ∧
  present (csv_name base n) = false ∧
  ∀ m, (k ≤ m < n)%nat → present (csv_name base m) = true.
Proof.
  revert k. induction fuel as [|fuel IH]; intros k; simpl.
  - split; [done|]. intros [? _]. lia.
  - destruct (present (csv_name base k)) eqn:Hk.
    + rewrite IH. split.
      * intros (Hn & Hfree & Hlow). split; [lia|]. split; [done|].
        intros m Hm. destruct (decide (m = k)) as [->|]; [done|].
        apply Hlow. lia.
      * intros (Hn & Hfree & Hlow).
        assert (n ≠ k) by (intros ->; congruence).
        split; [lia|]. split; [done|]. intros m Hm. apply Hlow. lia.
    + split.
      * intros [= <-]. split; [lia|]. split; [done|]. intros m Hm. lia.
      * intros (Hn & Hfree & Hlow). f_equal.
        destruct (decide (k = n)) as [|Hne]; [done|].
        rewrite Hlow in Hk by lia. done.
Qed.

(** X17: the log that [start_logging] opens is the first free one.  The
    search for a file name returns the rank [n] exactly when the name of
    rank [n] is not in the directory and the names of all lower ranks are:
    a log that exists is never opened for writing, and the search returns
    as soon as there is a free rank within the turns it is given. *)
Theorem log_name_is_first_free present base fuel n :
  free_index present base fuel 0 = Some n ↔
  (n < fuel)%nat ∧
  present (csv_name base n) = false ∧
  ∀ m, (m < n)%nat → present (csv_name base m) = true.
Proof.
  rewrite free_index_spec. split.
  - intros (Hn & Hfree & Hlow). split; [lia|]. split; [done|].
    intros m Hm. apply Hlow. lia.
  - intros (Hn & Hfree & Hlow). split; [lia|]. split; [done|].
    intros m Hm. apply Hlow. lia.
Qed.

(** ** The properties above on examples *)

Lemma histories_stay_bounded_witness :
  let o := Observation true 0%float (Ok (reading Ch0 2)) (quiet logging) in
  histories_bounded
    (app (acquisition_loop unparsed_float unparsed_int 1%float [o; o]
            (LoopState 0%float init_state)).1).
Proof.
  intros o.
  apply (histories_stay_bounded unparsed_float unparsed_int 1%float [o; o]
           (LoopState 0%float init_state)).
  intros i. simpl. lia.
Defined.

Lemma sinks_keep_to_switches_witness :
  let data := Frame None (Some two_channels) in
  let en := quiet smoothing in
  ∃ l,
    delivered (process_data unparsed_float unparsed_int data en init_state).1 =
      delivered init_state ++ l ∧
    Forall (λ c, is_row c = false) l ∧
    csv_row_count (process_data unparsed_float unparsed_int data en init_state).1 =
      csv_row_count init_state.
Proof.
  intros data en.
  destruct (sinks_keep_to_switches unparsed_float unparsed_int data en init_state)
    as (l & D & _ & Hlog).
  exists l. split; [exact D|]. apply Hlog. reflexivity.
Defined.

Lemma rows_have_ten_cells_witness :
  let data := Frame None (Some two_channels) in
  let en := telemetry_down logging in
  ∃ l row,
    delivered (process_data unparsed_float unparsed_int data en init_state).1 =
      delivered init_state ++ l ∧
    Writerow row ∈ l ∧ length row = length header.
Proof.
  intros data en.
  destruct (rows_have_ten_cells unparsed_float unparsed_int data en init_state)
    as (l & D & Hrow & _).
  pose proof D as D'. vm_compute in D'. subst l.
  eexists _, _. split; [exact D|].
  assert (∀ P Q : Prop, P → (P → Q) → P ∧ Q) as both by tauto.
  apply both; [|apply Hrow]. apply list_elem_of_further, list_elem_of_here.
Defined.

Lemma disabled_threshold_keeps_state_witness :
  let data : gmap string chan_out := {[ str Ch0 := ChanOut 0 2 2 ]} in
  threshold_states (check_thresholds data (quiet smoothing) alerted).1 Ch0 =
    threshold_states alerted Ch0 ∧
  alerts Ch0 (delivered (check_thresholds data (quiet smoothing) alerted).1) =
    alerts Ch0 (delivered alerted).
Proof.
  intros data.
  apply (disabled_threshold_keeps_state data Ch0 (quiet smoothing) alerted).
  left. reflexivity.
Defined.

Lemma failed_alert_stays_due_witness :
  let data : gmap string chan_out := {[ str Ch0 := ChanOut 0 2 2 ]} in
  let en := telemetry_down default_alerting in
  let a := alert_for Ch0 high 2%float 1%float 0.1%float in
  ∃ st' e',
    check_thresholds data en init_state = (st', Raise e') ∧
    threshold_states st' Ch0 = threshold_states init_state Ch0 ∧
    alerts Ch0 (delivered st') = alerts Ch0 (delivered init_state) ∧
    events_of Ch0 (threshold_states st' Ch0)
      (classify (checked_voltage (ui en) Ch0 (ChanOut 0 2 2))
         (thresh_high (ui en) Ch0) (thresh_low (ui en) Ch0))
      (checked_voltage (ui en) Ch0 (ChanOut 0 2 2))
      (thresh_high (ui en) Ch0) (thresh_low (ui en) Ch0) = [a].
Proof.
  intros data en a.
  apply (failed_alert_stays_due data Ch0 (ChanOut 0 2 2) en init_state a OSError);
    reflexivity.
Defined.

Lemma history_is_last_fifty_witness :
  filter_buffers
    (filters_run unparsed_float unparsed_int
       [reading Ch0 1; reading Ch0 2] (quiet default_alerting) init_state) Ch0 =
  last_n 50 (filter_buffers init_state Ch0 ++ [1%float; 2%float]).
Proof.
  apply (history_is_last_fifty unparsed_float unparsed_int Ch0
           [reading Ch0 1; reading Ch0 2] [1%float; 2%float]
           (quiet default_alerting) init_state).
  - simpl. lia.
  - repeat constructor; eexists _, _, _; repeat split; reflexivity.
Defined.

Lemma refiltering_appends_twice_witness :
  filter_buffers
    (apply_filters unparsed_float unparsed_int (reading Ch0 2) (quiet logging)
       (process_data unparsed_float unparsed_int (reading Ch0 2)
          (telemetry_down logging) init_state).1).1 Ch0 =
  deque_append 50
    (deque_append 50 (filter_buffers init_state Ch0) 2%float) 2%float.
Proof.
  apply (refiltering_appends_twice unparsed_float unparsed_int Ch0
           (reading Ch0 2) 2%float (telemetry_down logging) (quiet logging)
           init_state).
  eexists _, _, _; repeat split; reflexivity.
Defined.

Lemma log_row_layout_witness :
  let data := Frame None (Some two_channels) in
  let en := telemetry_down logging in
  ∃ st' res st1 out admin sends,
    process_data unparsed_float unparsed_int data en init_state = (st', res) ∧
    apply_filters unparsed_float unparsed_int data en init_state = (st1, Ok out) ∧
    delivered st' =
      delivered init_state ++
      Emit_new_data data ::
      Writerow ([PStr (now_iso en); default (PInt 0) (timestamp data)] ++
                mjoin ((if filtered_radio (ui en)
                        then λ i, match out !! str i with
                                  | Some o => [PInt (raw o); PFloat (filtered_voltage o)]
                                  | None => [PInt 0; PFloat 0]
                                  end
                        else logged_cells false two_channels) <$> range4)) ::
      admin ++ sends ∧
    Forall (λ c, is_send c = false ∧ is_row c = false) admin ∧
    Forall (λ c, is_send c = true) sends.
Proof.
  intros data en.
  apply (log_row_layout unparsed_float unparsed_int data two_channels en
           init_state);
    first [reflexivity | apply non_telemetry_ok_telemetry_down].
Defined.

Lemma output_mode_leaves_alerts_witness :
  let data := Frame None (Some two_channels) in
  let en := quiet default_alerting in
  threshold_states
    (process_data unparsed_float unparsed_int data (with_output_mode true en)
       init_state).1 Ch0 =
    threshold_states
      (process_data unparsed_float unparsed_int data en init_state).1 Ch0 ∧
  alerts Ch0 (delivered
    (process_data unparsed_float unparsed_int data (with_output_mode true en)
       init_state).1) =
    alerts Ch0 (delivered
      (process_data unparsed_float unparsed_int data en init_state).1).
Proof.
  intros data en.
  apply (output_mode_leaves_alerts unparsed_float unparsed_int data
           two_channels en init_state true Ch0);
    first [reflexivity | intros c; reflexivity].
Defined.

Lemma serial_errors_once_a_turn_witness :
  let ss := SerialState 0%float "" init_state in
  let ss' :=
    (serial_loop unparsed_float unparsed_int strip_none decode_known 1%float
       [two_records_display_down] ss).1 in
  (error_count (serial_app ss) ≤ error_count (serial_app ss')
     ≤ error_count (serial_app ss) + Z.of_nat (length [two_records_display_down]) ∧
   sample_count (serial_app ss) ≤ sample_count (serial_app ss') ∧
   (histories_bounded (serial_app ss) → histories_bounded (serial_app ss'))) ∧
  error_count (serial_app ss') = 1 ∧
  line_buffer ss' = record_line.
Proof.
  intros ss ss'. split; [|split; reflexivity].
  apply (serial_errors_once_a_turn unparsed_float unparsed_int strip_none
           decode_known 1%float [two_records_display_down] ss).
Defined.

Lemma log_name_is_first_free_witness :
  free_index two_logs "run" 5 0 = Some 2%nat ∧
  csv_name "run" 2 = "run_002.csv".
Proof.
  split; [|reflexivity].
  apply (log_name_is_first_free two_logs "run" 5 2).
  split; [lia|]. split; [reflexivity|].
  intros [|[|m]] Hm; [reflexivity|reflexivity|lia].
Defined.

Lemma malformed_lines_are_dropped_witness :
  let chunk := "}" +:+ String newline "ready" +:+ String newline "{" in
  serial_read unparsed_float unparsed_int strip_none decode_known
    (delivers chunk) "{" init_state =
  (init_state, (lines_of ("{" +:+ chunk)).2).
Proof.
  intros chunk.
  apply (malformed_lines_are_dropped unparsed_float unparsed_int strip_none
           decode_known (delivers chunk) "{" chunk init_state).
  - reflexivity.
  - vm_compute. repeat constructor.
Defined.

Lemma chunking_does_not_matter_witness :
  let cycles : nat → env := λ _, quiet logging in
  let read := serial_read unparsed_float unparsed_int strip_none decode_known in
  let first :=
    read (port_delivers ascii_decode head_bytes cycles 0%float) "" init_state in
  let later :=
    λ k, cycles (length (lines_of ("" +:+ ascii_decode head_bytes)).1 + k)%nat in
  first = (init_state, record_head) ∧
  read (port_delivers ascii_decode tail_bytes later 1%float) first.2 first.1 =
  read (port_delivers ascii_decode (head_bytes ++ tail_bytes) cycles 0%float)
    "" init_state.
Proof.
  intros cycles read first later.
  apply (chunking_does_not_matter unparsed_float unparsed_int strip_none
           decode_known ascii_decode "" head_bytes tail_bytes cycles
           0%float 1%float init_state init_state record_head);
    reflexivity.
Defined.

Lemma unusable_response_counts_error_witness :
  let failed := Observation true 0%float (Raise OSError) (quiet logging) in
  let bare := Observation true 0%float (Ok (Frame None None)) (quiet logging) in
  fetch_and_dispatch unparsed_float unparsed_int failed init_state =
    set_error_count (error_count init_state + 1) init_state ∧
  fetch_and_dispatch unparsed_float unparsed_int bare init_state =
    set_error_count (error_count init_state + 1) init_state.
Proof.
  intros failed bare. split.
  - apply (unusable_response_counts_error unparsed_float unparsed_int failed
             init_state).
    left. exists OSError. reflexivity.
  - apply (unusable_response_counts_error unparsed_float unparsed_int bare
             init_state).
    right. exists (Frame None None). split; reflexivity.
Defined.

Lemma empty_frame_is_a_sample_witness :
  let data := Frame None (Some ∅) in
  let en := telemetry_down logging in
  ∃ st' l,
    process_data unparsed_float unparsed_int data en init_state = (st', Ok tt) ∧
    sample_count st' = sample_count init_state + 1 ∧
    (∀ i, filter_buffers st' i = filter_buffers init_state i) ∧
    threshold_states st' = threshold_states init_state ∧
    delivered st' = delivered init_state ++ Emit_new_data data :: l ∧
    Forall (λ c, is_send c = false) l ∧
    (logging_active (ui en) && csv_writer (ui en) = true →
     ∃ admin,
       l = Writerow [PStr (now_iso en); default (PInt 0) (timestamp data);
                     PInt 0; PFloat 0; PInt 0; PFloat 0;
                     PInt 0; PFloat 0; PInt 0; PFloat 0] :: admin).
Proof.
  intros data en.
  apply (empty_frame_is_a_sample unparsed_float unparsed_int data ∅ en
           init_state).
  - reflexivity.
  - intros i. apply lookup_empty.
  - apply non_telemetry_ok_telemetry_down.
Defined.
